(** * AgenticAI: the claim-processing pipeline of [src/lib/agents.ts]

    A shallow embedding of the TypeScript sources (the agents and the
    orchestrator of [src/lib/agents.ts], the Zod schemas they validate
    against, and the two [POST] route handlers that call [runWorkflow])
    and the properties the specification states about them.

    Conventions.
    - A JavaScript string is a [string]: the list of its characters, a
      non-ASCII character standing as its UTF-8 bytes.  [trim] and [\s]
      know the white space of Unicode by its bytes.  [toLowerCase] lowers
      the ASCII letters itself and takes the result for any text with a
      non-ASCII character from the case tables of the engine, which every
      function that lowers a text receives as [unicode].  The regular
      expressions of [normalizeDOB] only ever accept ASCII digits, [/] and
      [-], so they read any text exactly as the engine does.
    - [await] is sequencing: every agent runs to completion before the next
      one starts, so an [async] function is a computation in the monad [M]
      below (environment, state, exceptions).
    - The generative-text service, [Date.now] and [performance.now] are the
      environment: arbitrary functions of the number of calls made so far
      (the service also sees the prompt).  A reading of the performance
      clock is a finite binary64 number that is not negative; the elapsed
      time is their binary64 difference. *)

From Stdlib Require Import String Ascii List Bool Arith ZArith QArith Qround Lia.
From Stdlib Require Import SpecFloat.
From Stdlib Require Import DecimalString.
Import ListNotations.

Local Close Scope Q_scope.
Local Open Scope list_scope.
Local Open Scope string_scope.
Local Open Scope nat_scope.

(* ================================================================== *)
(** * Part I: the program *)
(* ================================================================== *)

(** ** JavaScript strings *)

Module JS.

(** [\d] without the [u]/[v] flags: the ten ASCII digits. *)
Definition is_digit (c : ascii) : bool :=
  let n := nat_of_ascii c in (48 <=? n) && (n <=? 57).

Definition is_upper (c : ascii) : bool :=
  let n := nat_of_ascii c in (65 <=? n) && (n <=? 90).

Fixpoint is_ascii (s : string) : bool :=
  match s with
  | EmptyString => true
  | String c s' => (nat_of_ascii c <? 128) && is_ascii s'
  end.

Definition lower_char (c : ascii) : ascii :=
  if is_upper c then ascii_of_nat (nat_of_ascii c + 32) else c.

(** The letters A to Z lowered, every other character kept. *)
Fixpoint lower_ascii (s : string) : string :=
  match s with
  | EmptyString => EmptyString
  | String c s' => String (lower_char c) (lower_ascii s')
  end.

(** [String.prototype.toLowerCase].  On a text of the ASCII range it
    lowers the letters A to Z.  On a text that holds any other character
    the result follows the Unicode case tables of the engine (the Kelvin
    sign becomes [k], a capital sigma depends on what follows it):
    [unicode] stands for the engine's function on such texts. *)
Definition toLowerCase (unicode : string -> string) (s : string) : string :=
  if is_ascii s then lower_ascii s else unicode s.

(** [toUpperCase] on a text of the ASCII range: the letters a to z
    raised.  The code applies it to the three severity names only. *)
Fixpoint upper_ascii (s : string) : string :=
  match s with
  | EmptyString => EmptyString
  | String c s' =>
      let n := nat_of_ascii c in
      String (if (97 <=? n) && (n <=? 122) then ascii_of_nat (n - 32) else c)
             (upper_ascii s')
  end.

(** The text made of the given bytes. *)
Definition bytes (l : list nat) : string :=
  string_of_list_ascii (map ascii_of_nat l).

(** White space and line terminators, as [String.prototype.trim] strips
    them and [\s] matches them (Unicode 6.3 and later), each as its UTF-8
    bytes: TAB, LF, VT, FF, CR, SPACE, U+00A0, U+1680, U+2000 to U+200A,
    U+2028, U+2029, U+202F, U+205F, U+3000 and U+FEFF. *)
Definition white_space : list string :=
  map bytes
    [ [9]; [10]; [11]; [12]; [13]; [32];
      [194; 160];
      [225; 154; 128];
      [226; 128; 128]; [226; 128; 129]; [226; 128; 130]; [226; 128; 131];
      [226; 128; 132]; [226; 128; 133]; [226; 128; 134]; [226; 128; 135];
      [226; 128; 136]; [226; 128; 137]; [226; 128; 138];
      [226; 128; 168]; [226; 128; 169];
      [226; 128; 175];
      [226; 129; 159];
      [227; 128; 128];
      [239; 187; 191] ].

(** What is left of [s] after the prefix [p]. *)
Fixpoint strip_prefix (p s : string) : option string :=
  match p, s with
  | EmptyString, _ => Some s
  | String a p', String b s' => if Ascii.eqb a b then strip_prefix p' s' else None
  | String _ _, EmptyString => None
  end.

Fixpoint strip_one_of (ps : list string) (s : string) : option string :=
  match ps with
  | [] => None
  | p :: rest =>
      match strip_prefix p s with
      | Some r => Some r
      | None => strip_one_of rest s
      end
  end.

(** What is left of [s] after one leading white-space character, if it
    starts with one. *)
Definition strip_space (s : string) : option string := strip_one_of white_space s.

(** [trimStart]: leading white-space characters are dropped one by one;
    there are at most as many as the text has bytes. *)
Fixpoint trimStart_within (n : nat) (s : string) : string :=
  match n with
  | O => s
  | S n' =>
      match strip_space s with
      | Some r => trimStart_within n' r
      | None => s
      end
  end.

Definition trimStart (s : string) : string := trimStart_within (String.length s) s.

(** The text is white space from end to end (or empty). *)
Definition only_space (s : string) : bool := String.eqb (trimStart s) "".

(** [trimEnd]: the text is cut at the first position from which only
    white space follows. *)
Fixpoint trimEnd (s : string) : string :=
  match s with
  | EmptyString => EmptyString
  | String c s' => if only_space s then EmptyString else String c (trimEnd s')
  end.

Definition trim (s : string) : string := trimEnd (trimStart s).

(** [s.includes(p)]: [p] occurs in [s] at some position. *)
Fixpoint includes (s p : string) : bool :=
  String.prefix p s ||
  match s with
  | EmptyString => false
  | String _ s' => includes s' p
  end.

Fixpoint repeat_char_cycle (fill cur : string) (n : nat) : string :=
  match n with
  | O => EmptyString
  | S n' =>
      match cur with
      | String c cur' => String c (repeat_char_cycle fill cur' n')
      | EmptyString =>
          match fill with
          | String c cur' => String c (repeat_char_cycle fill cur' n')
          | EmptyString => EmptyString
          end
      end
  end.

(** [s.padStart(targetLength, padString)]: [s] itself when it is long
    enough (or the filler is empty), else the filler repeated and cut to
    the missing length, then [s]. *)
Definition padStart (s : string) (targetLength : nat) (padString : string) : string :=
  if targetLength <=? String.length s then s
  else repeat_char_cycle padString padString (targetLength - String.length s) ++ s.

(** Truthiness of a string: the empty string is the only falsy one. *)
Definition truthy_string (s : string) : bool :=
  match s with EmptyString => false | _ => true end.

End JS.

(** ** The regular expressions of [normalizeDOB]

    A matcher is a backtracking parser: from the text still to read it
    lists every way to go on, in the order the engine tries them (a greedy
    quantifier offers its longest reading first).  [String.prototype.match]
    returns the captures of the first alternative that reaches the end of
    the pattern. *)

Module Regex.

Definition Matcher (A : Type) : Type := string -> list (A * string).

Definition ret {A} (a : A) : Matcher A := fun s => [(a, s)].

Definition bind {A B} (m : Matcher A) (k : A -> Matcher B) : Matcher B :=
  fun s => flat_map (fun ar => k (fst ar) (snd ar)) (m s).

(** Up to [n] leading digits, longest first. *)
Fixpoint take_digits (n : nat) (s : string) : list (string * string) :=
  match n, s with
  | S n', String c s' =>
      if JS.is_digit c
      then (map (fun dr => (String c (fst dr), snd dr)) (take_digits n' s')
             ++ [(EmptyString, s)])%list
      else [(EmptyString, s)]
  | _, _ => [(EmptyString, s)]
  end.

(** [(\d{lo,hi})] *)
Definition digits (lo hi : nat) : Matcher string :=
  fun s => filter (fun dr => lo <=? String.length (fst dr)) (take_digits hi s).

(** A character class such as [[\/\-]]. *)
Definition one_of (cs : list ascii) : Matcher ascii :=
  fun s =>
    match s with
    | String c s' => if existsb (Ascii.eqb c) cs then [(c, s')] else []
    | EmptyString => []
    end.

(** [$] without the [m] flag: the end of the text. *)
Definition eos : Matcher unit :=
  fun s => match s with EmptyString => [(tt, s)] | _ => [] end.

(** A pattern that starts with [^] is tried at position 0 only. *)
Definition js_match {A} (re : Matcher A) (s : string) : option A :=
  match re s with
  | (a, _) :: _ => Some a
  | [] => None
  end.

End Regex.

Notation "x <~ m ;; k" := (Regex.bind m (fun x => k))
  (at level 61, m at next level, right associativity).

(** [/^(\d{4})-(\d{2})-(\d{2})$/] *)
Definition iso_re : Regex.Matcher (string * string * string) :=
  y <~ Regex.digits 4 4 ;;
  _ <~ Regex.one_of ["-"%char] ;;
  m <~ Regex.digits 2 2 ;;
  _ <~ Regex.one_of ["-"%char] ;;
  d <~ Regex.digits 2 2 ;;
  _ <~ Regex.eos ;;
  Regex.ret (y, m, d).

(** [/^(\d{1,2})[\/\-](\d{1,2})[\/\-](\d{2,4})$/] *)
Definition mdy_re : Regex.Matcher (string * string * string) :=
  mm <~ Regex.digits 1 2 ;;
  _ <~ Regex.one_of ["/"%char; "-"%char] ;;
  dd <~ Regex.digits 1 2 ;;
  _ <~ Regex.one_of ["/"%char; "-"%char] ;;
  yyyy <~ Regex.digits 2 4 ;;
  _ <~ Regex.eos ;;
  Regex.ret (mm, dd, yyyy).

Definition normalizeDOB (dob : string) : string :=
  match Regex.js_match iso_re dob with
  | Some _ => dob
  | None =>
      match Regex.js_match mdy_re dob with
      | Some (mm, dd, yyyy) =>
          let y := (if String.length yyyy =? 2 then "19" else "") ++ yyyy in
          JS.padStart y 4 "0" ++ "-" ++ JS.padStart mm 2 "0" ++ "-" ++ JS.padStart dd 2 "0"
      | None => dob
      end
  end.

(** ** JSON values

    What [JSON.parse] returns: the reply of the generative-text service and
    the body of a request.  A number stands as the text JavaScript prints
    for it; nothing in the pipeline computes with a number that comes from
    JSON.  An object lists its properties; a key is looked up from the
    front. *)

#[warnings="-register-all"]
Inductive JSON : Type :=
| JNull
| JBool (b : bool)
| JNum (printed : string)
| JStr (s : string)
| JArr (items : list JSON)
| JObj (props : list (string * JSON)).

Fixpoint lookup {V} (k : string) (props : list (string * V)) : option V :=
  match props with
  | [] => None
  | (k', v) :: rest => if String.eqb k k' then Some v else lookup k rest
  end.

(** The results of a list, when each one exists. *)
Fixpoint all_some {A} (l : list (option A)) : option (list A) :=
  match l with
  | [] => Some []
  | None :: _ => None
  | Some a :: rest => option_map (cons a) (all_some rest)
  end.

(** [ToString(v)], as a template literal applies it; [None] is the
    TypeError of a value that has no primitive.  An array joins its items
    with commas, [null] counting for nothing.  A plain object is converted
    by its [toString]: the inherited one gives ["[object Object]"]; an own
    property of that name is JSON data and cannot be called, [valueOf]
    gives no primitive either, and the conversion throws. *)
Fixpoint ToString (v : JSON) : option string :=
  match v with
  | JNull => Some "null"
  | JBool true => Some "true"
  | JBool false => Some "false"
  | JNum printed => Some printed
  | JStr s => Some s
  | JArr items =>
      option_map (String.concat ",")
        (all_some
           (map (fun x => match x with JNull => Some "" | _ => ToString x end) items))
  | JObj props =>
      match lookup "toString" props with
      | Some _ => None
      | None => Some "[object Object]"
      end
  end.

(** Truthiness of a parsed JSON value. *)
Definition truthy (v : JSON) : bool :=
  match v with
  | JNull => false
  | JBool b => b
  | JNum printed => negb (String.eqb printed "0")
  | JStr s => JS.truthy_string s
  | JArr _ | JObj _ => true
  end.

(** ** Exceptions *)

(** A thrown value: an [Error] with its [name] and [message], or something
    that is not an [Error] and has no [message]. *)
Inductive Thrown : Type :=
| JsError (name message : string)
| NotAnError.

Definition TypeError (message : string) : Thrown := JsError "TypeError" message.

(** Zod reports the list of issues as the message; its wording is the
    library's and is left out. *)
Definition ZodError (schema : string) : Thrown :=
  JsError "ZodError" ("invalid " ++ schema).

(** ** Schemas ([src/lib/schemas.ts]) *)

(** [z.string().optional().nullable()] *)
Inductive Optional : Type :=
| Undefined
| Null
| Str (s : string).

Module ClaimInput.
Record t : Type := mk {
  patientName : string;
  dob : string;
  insuranceId : Optional;
  procedure : string;
  cptCode : Optional
}.
End ClaimInput.

Inductive Severity : Type := info | warn | error.

Definition Severity_eqb (a b : Severity) : bool :=
  match a, b with
  | info, info | warn, warn | error, error => true
  | _, _ => false
  end.

Definition Severity_name (s : Severity) : string :=
  match s with info => "info" | warn => "warn" | error => "error" end.

Module VerificationIssue.
(** [message] is declared a string; at run time the Verifier stores
    whatever the service put in [notes]. *)
Record t : Type := mk {
  field : string;
  message : JSON;
  severity : Severity
}.
End VerificationIssue.

Inductive Status : Type := READY | BLOCKED.

Module SubmissionDraft.
Record t : Type := mk {
  patient : string;
  dob : string;
  insuranceId : option string;
  procedure : string;
  cptCode : option string;
  status : Status;
  notes : list string
}.
End SubmissionDraft.

Inductive Risk : Type := low | medium | high.

Definition Risk_name (r : Risk) : string :=
  match r with low => "low" | medium => "medium" | high => "high" end.

Definition Status_name (s : Status) : string :=
  match s with READY => "READY" | BLOCKED => "BLOCKED" end.

Record CoderResult : Type := {
  suggestedCpt : option string;
  justification : string;
  valid : bool
}.

Record ReviewerResult : Type := {
  denialRisk : Risk;
  rationale : string
}.

Record VerifierResult : Type := {
  issues : list VerificationIssue.t;
  normalized : ClaimInput.t
}.

(** The [data] payload of a log entry ([z.any()]). *)
Inductive LogData : Type :=
| DataClaim (c : ClaimInput.t)
| DataIssues (l : list VerificationIssue.t)
| DataCoder (suggested : option string) (valid : bool)
| DataDraft (d : SubmissionDraft.t)
| DataReview (risk : Risk) (rationale : string).

Module AgentLog.
Record t : Type := mk {
  agent : string;
  step : string;
  detail : string;
  data : LogData;
  ts : Z
}.
End AgentLog.

Record Metrics : Type := {
  baselineSeconds : Z;
  automatedSeconds : Z;
  timeSavedPercent : Z;
  cleanClaimRate : Z
}.

Record WorkflowResponse : Type := {
  parsed : ClaimInput.t;
  verified : VerifierResult;
  coder : CoderResult;
  submission : SubmissionDraft.t;
  reviewer : ReviewerResult;
  metrics : Metrics;
  logs : list AgentLog.t;
  explanation : string
}.

Definition zod_string (v : option JSON) : option string :=
  match v with Some (JStr s) => Some s | _ => None end.

Definition zod_optional_nullable_string (v : option JSON) : option Optional :=
  match v with
  | None => Some Undefined
  | Some JNull => Some Null
  | Some (JStr s) => Some (Str s)
  | Some _ => None
  end.

(** [ClaimInputSchema.safeParse]: an object (not an array) whose known keys
    have the declared types; unknown keys are dropped. *)
Definition ClaimInputSchema_safeParse (input : JSON) : option ClaimInput.t :=
  match input with
  | JObj props =>
      match zod_string (lookup "patientName" props),
            zod_string (lookup "dob" props),
            zod_optional_nullable_string (lookup "insuranceId" props),
            zod_string (lookup "procedure" props),
            zod_optional_nullable_string (lookup "cptCode" props) with
      | Some n, Some d, Some i, Some p, Some c => Some (ClaimInput.mk n d i p c)
      | _, _, _, _, _ => None
      end
  | _ => None
  end.

Definition message_is_string (i : VerificationIssue.t) : bool :=
  match VerificationIssue.message i with JStr _ => true | _ => false end.

(** ** The environment and the monad of [async] code *)

(** The snapshot [mini] that [humanExplain] puts in its prompt. *)
Module Mini.
Record t : Type := mk {
  patientName : string;
  dob : string;
  insuranceId : string;
  procedure : string;
  cpt : option string;
  issues : list string;
  status : Status;
  denialRisk : Risk;
  timeSavedPercent : Z;
  cleanClaimRate : Z
}.
End Mini.

(** What a prompt is built from: the text around it is fixed. *)
Inductive Prompt : Type :=
| ParsePrompt (input : JSON)
| VerifyPrompt (claim : ClaimInput.t)
| CoderPrompt (procedure cpt : string)
| ReviewPrompt (draft : SubmissionDraft.t)
| RecapPrompt (mini : Mini.t).

(** [askGeminiJSON] returns the JSON it found in the completion, or throws
    (the network call failed, no JSON in the text). *)
Inductive Reply : Type :=
| Returned (j : JSON)
| Threw (e : Thrown).

(** A JavaScript number is a binary64 floating-point number: a
    [spec_float] with a mantissa of 53 bits and exponents below 1024, under
    the operations of IEEE 754 as the standard library specifies them
    (rounding to nearest, ties to even). *)
Module Number.

Definition prec : Z := 53.
Definition emax : Z := 1024.

Definition sub (x y : spec_float) : spec_float := SFsub prec emax x y.

Definition div (x y : spec_float) : spec_float := SFdiv prec emax x y.

(** The number of a whole literal such as [1000] (exact below 2^53). *)
Definition of_Z (z : Z) : spec_float := binary_normalize prec emax z 0 false.

(** The exact value of a finite number.  The numbers the code rounds are
    finite: the difference of two finite numbers of the same sign is, and
    so is its quotient by 1000. *)
Definition value (x : spec_float) : Q :=
  match x with
  | S754_finite s m e =>
      let n := if s then Zneg m else Zpos m in
      match e with
      | Zneg k => Qmake n (2 ^ k)
      | _ => inject_Z (n * 2 ^ e)
      end
  | _ => 0%Q
  end.

(** What [performance.now] returns: a finite number that is not
    negative. *)
Definition is_timestamp (x : spec_float) : bool :=
  valid_binary prec emax x
  && match x with
     | S754_zero false | S754_finite false _ _ => true
     | _ => false
     end.

Record Timestamp : Type := {
  reading : spec_float;
  reading_ok : is_timestamp reading = true
}.

End Number.

Record Env : Type := {
  gemini : nat -> Prompt -> Reply;
  date_now : nat -> Z;
  perf_now : nat -> Number.Timestamp
}.

(** The calls made so far, and the array [logs] that [runWorkflow]
    allocates and hands to every agent. *)
Record State : Type := {
  asked : nat;
  date_reads : nat;
  perf_reads : nat;
  log_array : list AgentLog.t
}.

Inductive Outcome (A : Type) : Type :=
| Ok (a : A)
| Throw (e : Thrown).
Arguments Ok {A} a.
Arguments Throw {A} e.

Definition M (A : Type) : Type := Env -> State -> Outcome A * State.

Definition ret {A} (a : A) : M A := fun _ st => (Ok a, st).

Definition throw {A} (e : Thrown) : M A := fun _ st => (Throw e, st).

Definition bind {A B} (m : M A) (k : A -> M B) : M B :=
  fun env st =>
    match m env st with
    | (Ok a, st') => k a env st'
    | (Throw e, st') => (Throw e, st')
    end.

(** [try { m } catch (e) { handler e }] *)
Definition try_catch {A} (m : M A) (handler : Thrown -> M A) : M A :=
  fun env st =>
    match m env st with
    | (Ok a, st') => (Ok a, st')
    | (Throw e, st') => handler e env st'
    end.

Notation "x <- m ;; k" := (bind m (fun x => k))
  (at level 61, m at next level, right associativity).
Notation "m ;;; k" := (bind m (fun _ => k))
  (at level 61, right associativity).

Definition askGeminiJSON (prompt : Prompt) : M JSON :=
  fun env st =>
    let st' := {| asked := S (asked st); date_reads := date_reads st;
                  perf_reads := perf_reads st; log_array := log_array st |} in
    match gemini env (asked st) prompt with
    | Returned j => (Ok j, st')
    | Threw e => (Throw e, st')
    end.

Definition now : M Z :=
  fun env st =>
    (Ok (date_now env (date_reads st)),
     {| asked := asked st; date_reads := S (date_reads st);
        perf_reads := perf_reads st; log_array := log_array st |}).

Definition performance_now : M spec_float :=
  fun env st =>
    (Ok (Number.reading (perf_now env (perf_reads st))),
     {| asked := asked st; date_reads := date_reads st;
        perf_reads := S (perf_reads st); log_array := log_array st |}).

Definition pushLog (agent step detail : string) (data : LogData) : M unit :=
  ts <- now ;;
  fun _ st =>
    (Ok tt,
     {| asked := asked st; date_reads := date_reads st; perf_reads := perf_reads st;
        log_array := (log_array st ++ [AgentLog.mk agent step detail data ts])%list |}).

(** [v.k] for a key that no prototype defines: reading a property of
    [null] throws, a missing one is [undefined]. *)
Definition get_prop (v : JSON) (k : string) : M (option JSON) :=
  match v with
  | JNull => throw (TypeError ("Cannot read properties of null (reading '" ++ k ++ "')"))
  | JObj props => ret (lookup k props)
  | _ => ret None
  end.

(** [`${v}`]: the text of [v], or the TypeError of its conversion. *)
Definition cannot_convert : Thrown :=
  TypeError "Cannot convert object to primitive value".

Definition interpolate (v : JSON) : M string :=
  match ToString v with
  | Some s => ret s
  | None => throw cannot_convert
  end.

(** [l.map(f)] for an [f] that can throw: the items in order, up to the
    first that throws. *)
Fixpoint mapM {A B} (f : A -> M B) (l : list A) : M (list B) :=
  match l with
  | [] => ret []
  | x :: rest =>
      y <- f x ;;
      ys <- mapM f rest ;;
      ret (y :: ys)
  end.

(** ** The CPT table and plain-object semantics *)

Record CptEntry : Type := {
  label : string;
  procedures : list string
}.

(** [CPT_REF], its properties in the order the literal declares them. *)
Definition CPT_REF : list (string * CptEntry) :=
  [ ("73721", {| label := "MRI Lower Extremity w/o contrast";
                 procedures := ["mri knee"; "knee mri"] |});
    ("70551", {| label := "MRI Brain w/o contrast";
                 procedures := ["mri brain"; "brain mri"] |});
    ("72148", {| label := "MRI Lumbar Spine w/o contrast";
                 procedures := ["mri spine"; "lumbar mri"] |}) ].

(** The value of a canonical numeric string: all digits, no leading zero
    (["0"] apart). *)
Fixpoint decimal_value (acc : N) (s : string) : option N :=
  match s with
  | EmptyString => Some acc
  | String c s' =>
      if JS.is_digit c
      then decimal_value (10 * acc + N.of_nat (nat_of_ascii c - 48))%N s'
      else None
  end.

(** A property key is an array index when it is the canonical text of an
    integer below 2^32 - 1. *)
Definition array_index (k : string) : option N :=
  match k with
  | EmptyString => None
  | String c rest =>
      if Ascii.eqb c "0" && JS.truthy_string rest then None
      else match decimal_value 0 k with
           | Some n => if (n <? 4294967295)%N then Some n else None
           | None => None
           end
  end.

Fixpoint insert_by_index {V} (n : N) (kv : string * V)
    (sorted : list (N * (string * V))) : list (N * (string * V)) :=
  match sorted with
  | [] => [(n, kv)]
  | (m, kv') :: rest =>
      if (n <? m)%N then (n, kv) :: sorted
      else (m, kv') :: insert_by_index n kv rest
  end.

Fixpoint index_entries {V} (props : list (string * V)) : list (N * (string * V)) :=
  match props with
  | [] => []
  | kv :: rest =>
      match array_index (fst kv) with
      | Some n => insert_by_index n kv (index_entries rest)
      | None => index_entries rest
      end
  end.

(** [Object.entries]: the own enumerable string-keyed properties in the
    order of [[OwnPropertyKeys]]: array indices in ascending numeric
    order, then the other keys in the order they were created. *)
Definition Object_entries {V} (props : list (string * V)) : list (string * V) :=
  (map snd (index_entries props)
   ++ filter (fun kv => match array_index (fst kv) with Some _ => false | None => true end)
        props)%list.

(** What a plain object inherits from [Object.prototype]. *)
Definition Object_prototype_keys : list string :=
  [ "constructor"; "__defineGetter__"; "__defineSetter__"; "hasOwnProperty";
    "__lookupGetter__"; "__lookupSetter__"; "isPrototypeOf";
    "propertyIsEnumerable"; "toString"; "valueOf"; "__proto__";
    "toLocaleString" ].

(** [obj[k]] on a plain object: an own property, else one inherited from
    [Object.prototype] (a function or the prototype itself: truthy, and
    with no [procedures]), else [undefined]. *)
Inductive Property (V : Type) : Type :=
| Own (v : V)
| Inherited
| Missing.
Arguments Own {V} v.
Arguments Inherited {V}.
Arguments Missing {V}.

Definition get_property {V} (props : list (string * V)) (k : string) : Property V :=
  match lookup k props with
  | Some v => Own v
  | None => if existsb (String.eqb k) Object_prototype_keys then Inherited else Missing
  end.

(** ** The agents ([src/lib/agents.ts]) *)

Definition with_dob (c : ClaimInput.t) (d : string) : ClaimInput.t :=
  ClaimInput.mk (ClaimInput.patientName c) d (ClaimInput.insuranceId c)
    (ClaimInput.procedure c) (ClaimInput.cptCode c).

(** [typeof input === "object" && input] *)
Definition is_object (input : JSON) : bool :=
  match input with
  | JObj _ | JArr _ => true
  | _ => false
  end.

(** The own properties that [{...json}] copies; only an object gets as far
    as the spread, since nothing else has a [dob]. *)
Definition spread (json : JSON) : list (string * JSON) :=
  match json with
  | JObj props => props
  | _ => []
  end.

Definition parserAgent (input : JSON) : M ClaimInput.t :=
  match (if is_object input then ClaimInputSchema_safeParse input else None) with
  | Some data =>
      let normalized := with_dob data (normalizeDOB (ClaimInput.dob data)) in
      pushLog "ParserAgent" "parse-json" "Parsed JSON claim." (DataClaim normalized) ;;;
      ret normalized
  | None =>
      json <- askGeminiJSON (ParsePrompt input) ;;
      d <- get_prop json "dob" ;;
      match d with
      | Some (JStr s) =>
          match ClaimInputSchema_safeParse
                  (JObj (("dob", JStr (normalizeDOB s)) :: spread json)) with
          | Some result =>
              pushLog "ParserAgent" "parse-text" "Parsed text claim." (DataClaim result) ;;;
              ret result
          | None => throw (ZodError "ClaimInput")
          end
      | Some JNull => throw (TypeError "Cannot read properties of null (reading 'match')")
      | Some _ => throw (TypeError "dob.match is not a function")
      | None => throw (TypeError "Cannot read properties of undefined (reading 'match')")
      end
  end.

(** [!o] for an optional string. *)
Definition falsy (o : Optional) : bool :=
  match o with
  | Str s => negb (JS.truthy_string s)
  | Undefined | Null => true
  end.

Definition blank (o : Optional) : bool :=
  match o with
  | Str s => String.eqb (JS.trim s) ""
  | Undefined | Null => false
  end.

Definition field_checks (claim : ClaimInput.t) : list VerificationIssue.t :=
  ((if falsy (ClaimInput.insuranceId claim) || blank (ClaimInput.insuranceId claim)
    then [VerificationIssue.mk "insuranceId" (JStr "Missing insurance ID.") error]
    else [])
   ++ (if negb (JS.truthy_string (ClaimInput.dob claim))
       then [VerificationIssue.mk "dob" (JStr "DOB missing or invalid format.") warn]
       else [])
   ++ (if negb (JS.truthy_string (ClaimInput.patientName claim))
       then [VerificationIssue.mk "patientName" (JStr "Patient name missing.") error]
       else [])
   ++ (if negb (JS.truthy_string (ClaimInput.procedure claim))
       then [VerificationIssue.mk "procedure" (JStr "Procedure missing.") error]
       else []))%list.

Definition verifierAgent (claim : ClaimInput.t) : M VerifierResult :=
  let checks := field_checks claim in
  notes <- try_catch
             (res <- askGeminiJSON (VerifyPrompt claim) ;;
              n <- get_prop res "notes" ;;
              ret (match n with
                   | Some (JArr items) => firstn 3 items
                   | _ => []
                   end))
             (fun _ => ret []) ;;
  let issues :=
    (checks ++ map (fun n => VerificationIssue.mk "general" n info) notes)%list in
  pushLog "VerifierAgent" "validate" "Validated fields & consistency."
    (DataIssues issues) ;;;
  ret {| issues := issues; normalized := claim |}.

(** [v.procedures.some((p) => proc.includes(p))] *)
Definition matches (proc : string) (v : CptEntry) : bool :=
  existsb (fun p => JS.includes proc p) (procedures v).

Definition or_empty (o : option string) : string :=
  match o with Some s => s | None => "" end.

Definition nullish_to_null (o : Optional) : option string :=
  match o with
  | Str s => Some s
  | Undefined | Null => None
  end.

Definition coderAgent (unicode : string -> string) (claim : ClaimInput.t) : M CoderResult :=
  let proc := JS.trim (JS.toLowerCase unicode (ClaimInput.procedure claim)) in
  valid <- match ClaimInput.cptCode claim with
           | Str code =>
               if JS.truthy_string code then
                 match get_property CPT_REF code with
                 | Own v => ret (matches proc v)
                 | Inherited =>
                     throw (TypeError "Cannot read properties of undefined (reading 'some')")
                 | Missing => ret false
                 end
               else ret false
           | Undefined | Null => ret false
           end ;;
  let suggested :=
    if negb valid
    then option_map fst (find (fun kv => matches proc (snd kv)) (Object_entries CPT_REF))
    else nullish_to_null (ClaimInput.cptCode claim) in
  let fallback := "Heuristic CPT validation completed." in
  justification <-
    try_catch
      (j <- askGeminiJSON
              (CoderPrompt (ClaimInput.procedure claim)
                 (match suggested with
                  | Some s => s
                  | None => or_empty (nullish_to_null (ClaimInput.cptCode claim))
                  end)) ;;
       t <- get_prop j "justification" ;;
       ret (match t with Some (JStr s) => s | _ => fallback end))
      (fun _ => ret fallback) ;;
  pushLog "CoderAgent" "code-validate" "Validated/suggested CPT code."
    (DataCoder suggested valid) ;;;
  ret {| suggestedCpt := suggested; justification := justification; valid := valid |}.

(** [SubmissionDraftSchema.parse] of a draft built from a [ClaimInput]:
    every field already has its declared type, so the draft is returned. *)
Definition SubmissionDraftSchema_parse (draft : SubmissionDraft.t) : M SubmissionDraft.t :=
  ret draft.

Definition is_error (i : VerificationIssue.t) : bool :=
  Severity_eqb (VerificationIssue.severity i) error.

Definition submissionAgent (claim : ClaimInput.t) (issues : list VerificationIssue.t)
    (suggestedCpt : option string) : M SubmissionDraft.t :=
  let blocked := existsb is_error issues in
  notes <- mapM (fun i =>
                   message <- interpolate (VerificationIssue.message i) ;;
                   ret (JS.upper_ascii (Severity_name (VerificationIssue.severity i))
                        ++ ": " ++ message))
             issues ;;
  let draft :=
    {| SubmissionDraft.patient := ClaimInput.patientName claim;
       SubmissionDraft.dob := ClaimInput.dob claim;
       SubmissionDraft.insuranceId := nullish_to_null (ClaimInput.insuranceId claim);
       SubmissionDraft.procedure := ClaimInput.procedure claim;
       SubmissionDraft.cptCode :=
         match suggestedCpt with
         | Some s => Some s
         | None => nullish_to_null (ClaimInput.cptCode claim)
         end;
       SubmissionDraft.status := if blocked then BLOCKED else READY;
       SubmissionDraft.notes := notes |} in
  validated <- SubmissionDraftSchema_parse draft ;;
  pushLog "SubmissionAgent" "draft" "Prepared submission draft." (DataDraft validated) ;;;
  ret validated.

(** [!s] for a string or [null]. *)
Definition absent (o : option string) : bool :=
  match o with
  | Some s => negb (JS.truthy_string s)
  | None => true
  end.

Definition reviewerAgent (submission : SubmissionDraft.t) : M ReviewerResult :=
  let risk :=
    match SubmissionDraft.status submission with
    | BLOCKED => high
    | READY =>
        if absent (SubmissionDraft.insuranceId submission)
           || absent (SubmissionDraft.cptCode submission)
        then medium else low
    end in
  let fallback := "Automated review completed." in
  rationale <-
    try_catch
      (r <- askGeminiJSON (ReviewPrompt submission) ;;
       t <- get_prop r "rationale" ;;
       ret (match t with Some (JStr s) => s | _ => fallback end))
      (fun _ => ret fallback) ;;
  pushLog "ReviewerAgent" "review" "Assessed denial risk." (DataReview risk rationale) ;;;
  ret {| denialRisk := risk; rationale := rationale |}.

(** ** The recap and the orchestrator *)

Definition Z_to_string (z : Z) : string := NilEmpty.string_of_int (Z.to_int z).

Definition LF : string := String (ascii_of_nat 10) EmptyString.

Definition present (b : bool) : string := if b then "Present" else "Missing".

(** [a || b] on texts. *)
Definition first_truthy (a b : option string) : option string :=
  if negb (absent a) then a else if negb (absent b) then b else None.

Definition humanExplain (parsed : ClaimInput.t)
    (verifiedIssues : list VerificationIssue.t) (suggestedCpt : option string)
    (coderValid : bool) (submission : SubmissionDraft.t) (reviewer : ReviewerResult)
    (timeSavedPercent cleanClaimRate : Z) : M string :=
  issue_texts <- mapM (fun i =>
                         message <- interpolate (VerificationIssue.message i) ;;
                         ret (Severity_name (VerificationIssue.severity i) ++ ":"
                              ++ message))
                   verifiedIssues ;;
  let mini :=
    {| Mini.patientName := present (JS.truthy_string (ClaimInput.patientName parsed));
       Mini.dob := present (JS.truthy_string (ClaimInput.dob parsed));
       Mini.insuranceId := present (negb (absent (SubmissionDraft.insuranceId submission)));
       Mini.procedure :=
         if JS.truthy_string (ClaimInput.procedure parsed)
         then ClaimInput.procedure parsed else "Missing";
       Mini.cpt := first_truthy suggestedCpt (SubmissionDraft.cptCode submission);
       Mini.issues := firstn 5 issue_texts;
       Mini.status := SubmissionDraft.status submission;
       Mini.denialRisk := denialRisk reviewer;
       Mini.timeSavedPercent := timeSavedPercent;
       Mini.cleanClaimRate := cleanClaimRate |} in
  let fallback :=
    String.concat LF
      [ "🧾 Read the claim and pulled out key fields.";
        "✅ Checked for missing/incorrect details.";
        "💬 Matched the procedure to a billing code (CPT: "
          ++ match Mini.cpt mini with Some c => c | None => "n/a" end ++ ").";
        "📤 Prepared a submission draft — status: "
          ++ Status_name (Mini.status mini) ++ ".";
        "🔍 Denial risk: " ++ Risk_name (Mini.denialRisk mini) ++ ".";
        "⚡ Estimated time saved: " ++ Z_to_string (Mini.timeSavedPercent mini)
          ++ "% · Clean-claim rate: " ++ Z_to_string (Mini.cleanClaimRate mini) ++ "%." ] in
  try_catch
    (j <- askGeminiJSON (RecapPrompt mini) ;;
     if truthy j then
       t <- get_prop j "text" ;;
       ret (match t with Some (JStr s) => JS.trim s | _ => fallback end)
     else ret fallback)
    (fun _ => ret fallback).

(** [Math.round] of a number given by its exact value: the nearest
    integer, a half going up. *)
Definition Math_round (x : Q) : Z := Qfloor (x + (1 # 2)).

(** [const logs: AgentLog[] = []] *)
Definition new_logs : M unit :=
  fun _ st =>
    (Ok tt, {| asked := asked st; date_reads := date_reads st;
               perf_reads := perf_reads st; log_array := [] |}).

Definition read_logs : M (list AgentLog.t) := fun _ st => (Ok (log_array st), st).

Definition runWorkflow (unicode : string -> string) (input : JSON) : M WorkflowResponse :=
  new_logs ;;;
  t0 <- performance_now ;;
  parsed <- parserAgent input ;;
  verified <- verifierAgent parsed ;;
  coder <- coderAgent unicode parsed ;;
  submission <- submissionAgent parsed (issues verified) (suggestedCpt coder) ;;
  reviewer <- reviewerAgent submission ;;
  t1 <- performance_now ;;
  let automatedMs := Number.sub t1 t0 in
  let baselineSeconds := (12 * 60 / 10)%Z in
  let automatedSeconds :=
    Z.max 1 (Math_round (Number.value (Number.div automatedMs (Number.of_Z 1000)))) in
  let timeSavedPercent :=
    Math_round ((1 - inject_Z automatedSeconds / inject_Z baselineSeconds) * 100) in
  let cleanClaimRate :=
    match SubmissionDraft.status submission with
    | READY => 98%Z
    | BLOCKED => 82%Z
    end in
  explanation <- humanExplain parsed (issues verified) (suggestedCpt coder)
                   (valid coder) submission reviewer timeSavedPercent cleanClaimRate ;;
  logs <- read_logs ;;
  ret {| parsed := parsed; verified := verified; coder := coder;
         submission := submission; reviewer := reviewer;
         metrics := {| baselineSeconds := baselineSeconds;
                       automatedSeconds := automatedSeconds;
                       timeSavedPercent := timeSavedPercent;
                       cleanClaimRate := cleanClaimRate |};
         logs := logs; explanation := explanation |}.

(** ** The run endpoint ([src/app/api/run/route.ts]) *)

(** [WorkflowResponseSchema.parse] of what [runWorkflow] returns: the one
    field whose run-time type is not settled by construction is the
    [message] of an issue made from a note of the service. *)
Definition WorkflowResponseSchema_parse (result : WorkflowResponse) : M WorkflowResponse :=
  if forallb message_is_string (issues (verified result))
  then ret result
  else throw (ZodError "WorkflowResponse").

(** [await req.json()]: the parsed body, or the error of a body that is
    not JSON. *)
Inductive RequestBody : Type :=
| Json (j : JSON)
| Malformed (e : Thrown).

Inductive ResponseBody : Type :=
| WorkflowJson (r : WorkflowResponse)
| ErrorJson (error : string).

Record Response : Type := {
  status_code : Z;
  body : ResponseBody
}.

(** [body?.input ?? body] *)
Definition input_of (body : JSON) : JSON :=
  match body with
  | JObj props =>
      match lookup "input" props with
      | Some JNull | None => body
      | Some v => v
      end
  | _ => body
  end.

(** [e?.message ?? "Unknown error"], and
    [err instanceof Error ? err.message : "Unknown error"]. *)
Definition error_message (e : Thrown) : string :=
  match e with
  | JsError _ message => message
  | NotAnError => "Unknown error"
  end.

Definition req_json (req : RequestBody) : M JSON :=
  match req with
  | Json j => ret j
  | Malformed e => throw e
  end.

(** The handler that lets a malformed body fail. *)
Module Part_001.
Definition POST (unicode : string -> string) (req : RequestBody) : M Response :=
  try_catch
    (body <- req_json req ;;
     result <- runWorkflow unicode (input_of body) ;;
     validated <- WorkflowResponseSchema_parse result ;;
     ret {| status_code := 200; body := WorkflowJson validated |})
    (fun e => ret {| status_code := 400; body := ErrorJson (error_message e) |}).
End Part_001.

(** The handler that reads a malformed body as [{}]. *)
Module Part_000.
Definition POST (unicode : string -> string) (req : RequestBody) : M Response :=
  try_catch
    (body <- try_catch (req_json req) (fun _ => ret (JObj [])) ;;
     let input := input_of body in
     result <- runWorkflow unicode input ;;
     validated <- WorkflowResponseSchema_parse result ;;
     ret {| status_code := 200; body := WorkflowJson validated |})
    (fun err => ret {| status_code := 400; body := ErrorJson (error_message err) |}).
End Part_000.

(** ** The LLM client ([src/lib/gemini.ts])

    [askGeminiJSON] turns the text of a completion into a JSON value.  The
    completion (the network call and [res.response.text()]) and
    [JSON.parse] are taken as given: the first is a text or a thrown
    value, the second a function that reads a text or throws a
    SyntaxError. *)

Module Fence.

(** One character that satisfies [p]. *)
Definition satisfy (p : ascii -> bool) : Regex.Matcher ascii :=
  fun s =>
    match s with
    | String c s' => if p c then [(c, s')] else []
    | EmptyString => []
    end.

(** A literal under the [i] flag: each character up to the case of the
    ASCII letters (the engine's [Canonicalize] never takes a character
    from outside the ASCII range into it). *)
Fixpoint literal_ci (w : string) : Regex.Matcher unit :=
  match w with
  | EmptyString => Regex.ret tt
  | String x w' =>
      _ <~ satisfy (fun c => Ascii.eqb (JS.lower_char c) (JS.lower_char x)) ;;
      literal_ci w'
  end.

(** [\s*], greedy: every run of leading white-space characters, the
    longest first; there are at most as many as the text has bytes. *)
Fixpoint spaces_within (n : nat) (s : string) : list (unit * string) :=
  match n, JS.strip_space s with
  | S n', Some r => (spaces_within n' r ++ [(tt, s)])%list
  | _, _ => [(tt, s)]
  end.

Definition spaces : Regex.Matcher unit :=
  fun s => spaces_within (String.length s) s.

(** [([\s\S]*?)], lazy: every prefix, the shortest first. *)
Fixpoint lazy_any (s : string) : list (string * string) :=
  (EmptyString, s)
  :: match s with
     | String c s' => map (fun br => (String c (fst br), snd br)) (lazy_any s')
     | EmptyString => []
     end.

(** [text.match(re)] for a pattern that is not anchored: the first match
    at the leftmost position that has one. *)
Fixpoint search {A} (re : Regex.Matcher A) (s : string) : option A :=
  match re s with
  | (a, _) :: _ => Some a
  | [] =>
      match s with
      | String _ s' => search re s'
      | EmptyString => None
      end
  end.

End Fence.

(** The pattern of a fenced block: three backticks, [json] in any case,
    white space, the captured body (lazy), white space, three backticks. *)
Definition fence_re : Regex.Matcher string :=
  _ <~ Fence.literal_ci "```json" ;;
  _ <~ Fence.spaces ;;
  body <~ Fence.lazy_any ;;
  _ <~ Fence.spaces ;;
  _ <~ Fence.literal_ci "```" ;;
  Regex.ret body.

(** [s.indexOf(c)] and [s.lastIndexOf(c)] for a one-character [c];
    [None] is -1. *)
Fixpoint indexOf (c : ascii) (s : string) : option nat :=
  match s with
  | EmptyString => None
  | String x s' =>
      if Ascii.eqb x c then Some 0 else option_map S (indexOf c s')
  end.

Fixpoint lastIndexOf (c : ascii) (s : string) : option nat :=
  match s with
  | EmptyString => None
  | String x s' =>
      match lastIndexOf c s' with
      | Some n => Some (S n)
      | None => if Ascii.eqb x c then Some 0 else None
      end
  end.

(** [s.slice(start, stop)] for indices within the text: empty when
    [stop <= start]. *)
Definition slice (s : string) (start stop : nat) : string :=
  String.substring start (stop - start) s.

Inductive Completion : Type :=
| Completed (text : string)
| Failed (e : Thrown).

Module Gemini.
Section Client.

(** [JSON.parse]; [None] when it throws its SyntaxError. *)
Variable JSON_parse : string -> option JSON.

(** The wording of the SyntaxError is the engine's and is left out. *)
Definition SyntaxError : Thrown := JsError "SyntaxError" "invalid JSON".

(** [text.match(...)?.[1] ?? text] *)
Definition jsonLike (text : string) : string :=
  match Fence.search fence_re text with
  | Some body => body
  | None => text
  end.

Definition askGeminiJSON (completion : Completion) : Reply :=
  match completion with
  | Failed e => Threw e
  | Completed raw =>
      let text := JS.trim raw in
      let candidate := jsonLike text in
      match JSON_parse candidate with
      | Some j => Returned j
      | None =>
          match indexOf "{" candidate, lastIndexOf "}" candidate with
          | Some start, Some stop =>
              match JSON_parse (slice candidate start (S stop)) with
              | Some j => Returned j
              | None => Threw SyntaxError
              end
          | _, _ => Threw (JsError "Error" "Gemini did not return valid JSON")
          end
      end
  end.

End Client.
End Gemini.

(* ================================================================== *)
(** * Part II: the vocabulary of the properties *)
(* ================================================================== *)

(** ** The date forms the specification names

    A reading of a date that does not go through the regular-expression
    engine: the longest run of digits, one separator, the longest run of
    digits, one separator, digits to the end of the text; each group within
    its length bounds. *)

Fixpoint all_digits (s : string) : bool :=
  match s with
  | EmptyString => true
  | String c s' => JS.is_digit c && all_digits s'
  end.

Fixpoint span_digits (s : string) : string * string :=
  match s with
  | String c s' =>
      if JS.is_digit c
      then (String c (fst (span_digits s')), snd (span_digits s'))
      else (EmptyString, s)
  | EmptyString => (EmptyString, EmptyString)
  end.

Definition within (lo hi : nat) (s : string) : bool :=
  (lo <=? String.length s) && (String.length s <=? hi).

Definition read_date (seps_ok : ascii -> ascii -> bool)
    (lo1 hi1 lo2 hi2 lo3 hi3 : nat) (s : string) : option (string * string * string) :=
  match snd (span_digits s) with
  | String c1 r1 =>
      match snd (span_digits r1) with
      | String c2 r2 =>
          match snd (span_digits r2) with
          | EmptyString =>
              if seps_ok c1 c2
                 && within lo1 hi1 (fst (span_digits s))
                 && within lo2 hi2 (fst (span_digits r1))
                 && within lo3 hi3 (fst (span_digits r2))
              then Some (fst (span_digits s), fst (span_digits r1), fst (span_digits r2))
              else None
          | String _ _ => None
          end
      | EmptyString => None
      end
  | EmptyString => None
  end.

Definition is_some {A} (o : option A) : bool :=
  match o with Some _ => true | None => false end.

(** YYYY-MM-DD: four digits, a hyphen, two digits, a hyphen, two digits. *)
Definition is_iso_form (s : string) : bool :=
  is_some (read_date (fun c1 c2 => Ascii.eqb c1 "-" && Ascii.eqb c2 "-") 4 4 2 2 2 2 s).

(** M/D/Y (with [sep] a slash) or M-D-Y (with [sep] a hyphen): one or two
    digits, [sep], one or two digits, [sep], two to four digits. *)
Definition mdy_parts (sep : ascii) (s : string) : option (string * string * string) :=
  read_date (fun c1 c2 => Ascii.eqb c1 sep && Ascii.eqb c2 sep) 1 2 1 2 2 4 s.

Definition is_mdy_form (s : string) : bool :=
  is_some (mdy_parts "/" s) || is_some (mdy_parts "-" s).

Definition is_sep (c : ascii) : bool := Ascii.eqb c "/" || Ascii.eqb c "-".

(** The same three groups, each separator a slash or a hyphen on its
    own. *)
Definition mdy_parts_any (s : string) : option (string * string * string) :=
  read_date (fun c1 c2 => is_sep c1 && is_sep c2) 1 2 1 2 2 4 s.

(** The year as [normalizeDOB] writes it. *)
Definition written_year (yyyy : string) : string :=
  match String.length yyyy with
  | 2 => "19" ++ yyyy
  | 3 => "0" ++ yyyy
  | _ => yyyy
  end.

(** ** The shape both patterns share

    Three groups of digits with a character class between them, and the
    end of the text. *)

Definition three_groups (lo1 hi1 : nat) (cs1 : list ascii) (lo2 hi2 : nat)
    (cs2 : list ascii) (lo3 hi3 : nat) : Regex.Matcher (string * string * string) :=
  a <~ Regex.digits lo1 hi1 ;;
  _ <~ Regex.one_of cs1 ;;
  b <~ Regex.digits lo2 hi2 ;;
  _ <~ Regex.one_of cs2 ;;
  c <~ Regex.digits lo3 hi3 ;;
  _ <~ Regex.eos ;;
  Regex.ret (a, b, c).

(** [s] is [a], a separator, [b], a separator, [c]. *)
Definition date_parts (ok : ascii -> ascii -> bool) (lo1 hi1 lo2 hi2 lo3 hi3 : nat)
    (s a b c : string) : Prop :=
  exists c1 c2,
    s = a ++ String c1 (b ++ String c2 c) /\ ok c1 c2 = true /\
    all_digits a = true /\ all_digits b = true /\ all_digits c = true /\
    within lo1 hi1 a = true /\ within lo2 hi2 b = true /\ within lo3 hi3 c = true.

(** The two separators belong to the two character classes. *)
Definition in_class (cs1 cs2 : list ascii) (c1 c2 : ascii) : bool :=
  existsb (Ascii.eqb c1) cs1 && existsb (Ascii.eqb c2) cs2.

(** ** What the agents leave behind *)

(** The state after one more call to the service. *)
Definition asked_once (st : State) : State :=
  {| asked := S (asked st); date_reads := date_reads st;
     perf_reads := perf_reads st; log_array := log_array st |}.

(** The state after one more log entry, stamped with the next reading of
    the clock. *)
Definition logged (env : Env) (agent step detail : string) (data : LogData)
    (st : State) : State :=
  {| asked := asked st; date_reads := S (date_reads st); perf_reads := perf_reads st;
     log_array :=
       (log_array st
        ++ [AgentLog.mk agent step detail data (date_now env (date_reads st))])%list |}.

(** The state in which the Parser starts: a new log array, and the first
    reading of the performance clock taken. *)
Definition started (st : State) : State :=
  {| asked := asked st; date_reads := date_reads st;
     perf_reads := S (perf_reads st); log_array := [] |}.

(** What the Verifier keeps of a reply: at most three notes, when the
    reply is an object whose [notes] is an array. *)
Definition notes_of (reply : Reply) : list JSON :=
  match reply with
  | Returned (JObj props) =>
      match lookup "notes" props with
      | Some (JArr items) => firstn 3 items
      | _ => []
      end
  | _ => []
  end.

(** What the Coder and the Reviewer keep of a reply: the text under
    [key], when the reply is an object that has one. *)
Definition text_of (key fallback : string) (reply : Reply) : string :=
  match reply with
  | Returned (JObj props) =>
      match lookup key props with
      | Some (JStr s) => s
      | _ => fallback
      end
  | _ => fallback
  end.

(** The issue a note becomes. *)
Definition note_issue (n : JSON) : VerificationIssue.t :=
  VerificationIssue.mk "general" n info.

(** A value that a template literal can convert, and the text it
    becomes. *)
Definition converts (v : JSON) : bool :=
  match ToString v with Some _ => true | None => false end.

Definition shown (v : JSON) : string :=
  match ToString v with Some s => s | None => "" end.

(** Every message of the list converts. *)
Definition all_convert (found : list VerificationIssue.t) : bool :=
  forallb (fun i => converts (VerificationIssue.message i)) found.

(** The draft the Submission step assembles. *)
Definition draft_of (claim : ClaimInput.t) (found : list VerificationIssue.t)
    (suggested : option string) : SubmissionDraft.t :=
  {| SubmissionDraft.patient := ClaimInput.patientName claim;
     SubmissionDraft.dob := ClaimInput.dob claim;
     SubmissionDraft.insuranceId := nullish_to_null (ClaimInput.insuranceId claim);
     SubmissionDraft.procedure := ClaimInput.procedure claim;
     SubmissionDraft.cptCode :=
       match suggested with
       | Some s => Some s
       | None => nullish_to_null (ClaimInput.cptCode claim)
       end;
     SubmissionDraft.status := if existsb is_error found then BLOCKED else READY;
     SubmissionDraft.notes :=
       map (fun i => JS.upper_ascii (Severity_name (VerificationIssue.severity i))
                      ++ ": " ++ shown (VerificationIssue.message i))
           found |}.

(** The risk the Reviewer computes. *)
Definition risk_of (submission : SubmissionDraft.t) : Risk :=
  match SubmissionDraft.status submission with
  | BLOCKED => high
  | READY =>
      if absent (SubmissionDraft.insuranceId submission)
         || absent (SubmissionDraft.cptCode submission)
      then medium else low
  end.

(** ** The Coder's decisions *)

(** The supplied code names a property every object inherits. *)
Definition names_inherited (o : Optional) : bool :=
  match o with
  | Str code => existsb (String.eqb code) Object_prototype_keys
  | Undefined | Null => false
  end.

(** The supplied code is a key of the table and one of its substrings
    occurs in the text. *)
Definition validates (proc : string) (o : Optional) : bool :=
  match o with
  | Str code =>
      match lookup code CPT_REF with
      | Some v => matches proc v
      | None => false
      end
  | Undefined | Null => false
  end.

(** The first code of [table], in the order listed, one of whose
    substrings occurs in the text. *)
Definition scan (table : list (string * CptEntry)) (proc : string) : option string :=
  option_map fst (find (fun kv => matches proc (snd kv)) table).

(** The code the Coder suggests. *)
Definition suggestion (unicode : string -> string) (claim : ClaimInput.t) : option string :=
  let proc := JS.trim (JS.toLowerCase unicode (ClaimInput.procedure claim)) in
  if validates proc (ClaimInput.cptCode claim)
  then nullish_to_null (ClaimInput.cptCode claim)
  else scan (Object_entries CPT_REF) proc.

(** The prompt the Coder sends. *)
Definition coder_prompt (unicode : string -> string) (claim : ClaimInput.t) : Prompt :=
  CoderPrompt (ClaimInput.procedure claim)
    (match suggestion unicode claim with
     | Some s => s
     | None => or_empty (nullish_to_null (ClaimInput.cptCode claim))
     end).

(** The table with its codes in ascending numeric order. *)
Definition ascending_codes : list (string * CptEntry) :=
  [ ("70551", {| label := "MRI Brain w/o contrast";
                 procedures := ["mri brain"; "brain mri"] |});
    ("72148", {| label := "MRI Lumbar Spine w/o contrast";
                 procedures := ["mri spine"; "lumbar mri"] |});
    ("73721", {| label := "MRI Lower Extremity w/o contrast";
                 procedures := ["mri knee"; "knee mri"] |}) ].

(** ** The elapsed time *)

(** [automatedMs] of a run that starts in [st]: the second reading of the
    performance clock minus the first. *)
Definition automatedMs (env : Env) (st : State) : spec_float :=
  Number.sub (Number.reading (perf_now env (S (perf_reads st))))
             (Number.reading (perf_now env (perf_reads st))).

(** The notes the Verifier gets from the call it makes in [st]. *)
Definition verifier_notes (env : Env) (st : State) (claim : ClaimInput.t) : list JSON :=
  notes_of (gemini env (asked st) (VerifyPrompt claim)).

(** ** Issues, missing fields and failing calls *)


(** An optional text that is absent ([undefined] or [null]) or empty. *)
Definition lacks (o : Optional) : Prop := o = Undefined \/ o = Null \/ o = Str "".

(** A text that is [null] or empty: what the code reads as missing. *)
Definition missing (o : option string) : Prop := o = None \/ o = Some "".

(** The call the step is about to make fails, whatever the prompt. *)
Definition next_call_fails (env : Env) (st : State) : Prop :=
  forall prompt, exists e, gemini env (asked st) prompt = Threw e.

(** ** The answer of the endpoint *)

(** The response the handler owes to the outcome of the run. *)
Definition answer (o : Outcome WorkflowResponse) : Response :=
  match o with
  | Ok r =>
      if forallb message_is_string (issues (verified r))
      then {| status_code := 200; body := WorkflowJson r |}
      else {| status_code := 400;
              body := ErrorJson (error_message (ZodError "WorkflowResponse")) |}
  | Throw e => {| status_code := 400; body := ErrorJson (error_message e) |}
  end.

(** ** Sample runs *)

(** An engine whose case tables leave every text with a non-ASCII
    character as it is. *)
Definition no_tables : string -> string := fun s => s.

(** Readings of the performance clock: 0 ms, 1500 ms, and the numbers
    nearest to 0.1 ms and 1500.1 ms. *)
Definition at_0 : Number.Timestamp :=
  {| Number.reading := S754_zero false; Number.reading_ok := eq_refl |}.

Definition at_1500 : Number.Timestamp :=
  {| Number.reading := Number.of_Z 1500; Number.reading_ok := eq_refl |}.

Definition at_0_1 : Number.Timestamp :=
  {| Number.reading := S754_finite false 7205759403792794 (-56);
     Number.reading_ok := eq_refl |}.

Definition at_1500_1 : Number.Timestamp :=
  {| Number.reading := S754_finite false 6597509571307110 (-42);
     Number.reading_ok := eq_refl |}.

(** A service that is down, and clocks that stand still. *)
Definition service_down : Env :=
  {| gemini := fun _ _ => Threw (JsError "Error" "fetch failed");
     date_now := fun _ => 0%Z;
     perf_now := fun _ => at_0 |}.

(** A process that has made no call yet. *)
Definition fresh : State :=
  {| asked := 0; date_reads := 0; perf_reads := 0; log_array := [] |}.

(** The claim of the README, as a request would carry it. *)
Definition john_doe : JSON :=
  JObj [ ("patientName", JStr "John Doe"); ("dob", JStr "01/01/1975");
         ("insuranceId", JStr ""); ("procedure", JStr "MRI Knee");
         ("cptCode", JStr "73721") ].

(** A run whose two readings of the performance clock are 1500 ms apart
    (the service is down). *)
Definition a_second_and_a_half : Env :=
  {| gemini := fun _ _ => Threw (JsError "Error" "fetch failed");
     date_now := fun _ => 0%Z;
     perf_now := fun n => match n with O => at_0 | S _ => at_1500 end |}.

(** The same run, started a tenth of a millisecond later. *)
Definition a_tenth_later : Env :=
  {| gemini := fun _ _ => Threw (JsError "Error" "fetch failed");
     date_now := fun _ => 0%Z;
     perf_now := fun n => match n with O => at_0_1 | S _ => at_1500_1 end |}.

(** A service whose consistency notes are not texts. *)
Definition numeric_notes : Env :=
  {| gemini := fun _ _ => Returned (JObj [("notes", JArr [JNum "5"])]);
     date_now := fun _ => 0%Z;
     perf_now := fun _ => at_0 |}.

(** A service whose consistency note is an object with a [toString] of
    its own. *)
Definition stubborn_notes : Env :=
  {| gemini := fun _ _ =>
       Returned (JObj [("notes", JArr [JObj [("toString", JNum "1")]])]);
     date_now := fun _ => 0%Z;
     perf_now := fun _ => at_0 |}.

(** A no-break space (U+00A0), and the text [MRI Knee] written with the
    Kelvin sign (U+212A) for its K. *)
Definition no_break_space : string := JS.bytes [194; 160].

Definition kelvin_knee : string := "MRI " ++ JS.bytes [226; 132; 170] ++ "nee".

(** ** More vocabulary: the Parser, the log, the serialised claim *)

(** The input is an object that the claim schema accepts. *)
Definition accepted (input : JSON) : option ClaimInput.t :=
  if is_object input then ClaimInputSchema_safeParse input else None.

(** The claim the Parser makes of accepted data. *)
Definition normalized_claim (data : ClaimInput.t) : ClaimInput.t :=
  with_dob data (normalizeDOB (ClaimInput.dob data)).

(** A thrown value is an [Error] of the given name. *)
Definition is_named (name : string) (e : Thrown) : Prop :=
  exists message, e = JsError name message.

(** What [JSON.parse (JSON.stringify claim)] gives: the five fields in the
    order of the record, an [undefined] one left out. *)
Definition optional_prop (k : string) (o : Optional) : list (string * JSON) :=
  match o with
  | Undefined => []
  | Null => [(k, JNull)]
  | Str s => [(k, JStr s)]
  end.

Definition claim_to_json (c : ClaimInput.t) : JSON :=
  JObj ([("patientName", JStr (ClaimInput.patientName c));
         ("dob", JStr (ClaimInput.dob c))]
        ++ optional_prop "insuranceId" (ClaimInput.insuranceId c)
        ++ [("procedure", JStr (ClaimInput.procedure c))]
        ++ optional_prop "cptCode" (ClaimInput.cptCode c))%list.

(** A field the Verifier reports as an error: [insuranceId] absent, empty
    or blank, [patientName] empty, [procedure] empty. *)
Definition misses_a_field (claim : ClaimInput.t) : Prop :=
  ClaimInput.insuranceId claim = Undefined \/ ClaimInput.insuranceId claim = Null
  \/ (exists s, ClaimInput.insuranceId claim = Str s /\ JS.trim s = "")
  \/ ClaimInput.patientName claim = "" \/ ClaimInput.procedure claim = "".

(** The text a reply offers under [key], if it is an object with one. *)
Definition offered (key : string) (reply : Reply) : option string :=
  match reply with
  | Returned (JObj props) =>
      match lookup key props with
      | Some (JStr s) => Some s
      | _ => None
      end
  | _ => None
  end.

(** The issues that are not notes of the service. *)
Definition without_info (l : list VerificationIssue.t) : list VerificationIssue.t :=
  filter (fun i => negb (Severity_eqb (VerificationIssue.severity i) info)) l.

(** Texts without a given character, texts of white space, and texts
    that start and end with something else than white space. *)
Fixpoint lacks_char (c : ascii) (s : string) : bool :=
  match s with
  | EmptyString => true
  | String x s' => negb (Ascii.eqb x c) && lacks_char c s'
  end.

Definition all_space (s : string) : bool := JS.only_space s.

Definition head_tight (s : string) : bool :=
  negb (String.eqb s "")
  && match JS.strip_space s with Some _ => false | None => true end.

Definition last_tight (s : string) : bool :=
  negb (String.eqb s "") && String.eqb (JS.trimEnd s) s.

(** A byte that continues a character of several bytes, and a text that
    does not start with one. *)
Definition is_tail_byte (c : ascii) : bool :=
  let n := nat_of_ascii c in (128 <=? n) && (n <? 192).

Definition clean_start (s : string) : bool :=
  match s with
  | String c _ => negb (is_tail_byte c)
  | EmptyString => true
  end.

(** What follows the captured body of a fenced block: white space, then
    the closing fence. *)
Definition closing : Regex.Matcher unit :=
  _ <~ Fence.spaces ;; Fence.literal_ci "```".

(** [sub] occurs in [s]. *)
Definition part_of (sub s : string) : Prop := exists a b, s = a ++ sub ++ b.

(** A toy [JSON.parse] for sample runs: it reads the empty object only. *)
Definition reads_empty_object (s : string) : option JSON :=
  if String.eqb s "{}" then Some (JObj []) else None.

(** A note that is a text. *)
Definition is_text (n : JSON) : bool :=
  match n with JStr _ => true | _ => false end.

(** [Date.now] never goes back. *)
Definition clock_is_monotone (env : Env) : Prop :=
  forall n, (date_now env n <= date_now env (S n))%Z.

Fixpoint nondecreasing (l : list Z) : Prop :=
  match l with
  | [] => True
  | x :: rest =>
      match rest with
      | [] => True
      | y :: _ => (x <= y)%Z /\ nondecreasing rest
      end
  end.

(* ================================================================== *)
(** * Part III: properties *)
(* ================================================================== *)

(** ** Strings *)

Lemma append_nil_r (s : string) : s ++ "" = s.
Proof. induction s; simpl; congruence. Qed.

Lemma append_assoc (a b c : string) : (a ++ b) ++ c = a ++ (b ++ c).
Proof. induction a; simpl; congruence. Qed.

Lemma length_append (a b : string) :
  String.length (a ++ b) = String.length a + String.length b.
Proof. induction a; simpl; auto. Qed.

Lemma all_digits_append (a b : string) :
  all_digits (a ++ b) = all_digits a && all_digits b.
Proof.
  induction a as [|c a IH]; simpl; [reflexivity|].
  rewrite IH. now rewrite andb_assoc.
Qed.

(** ** The matcher combinators *)

Section Combinators.

Import Regex.

Lemma take_digits_In (n : nat) : forall s d r,
  In (d, r) (take_digits n s) <->
  s = d ++ r /\ all_digits d = true /\ String.length d <= n.
Proof.
  induction n as [|n IH]; intros s d r.
  - simpl. split.
    + intros [E|[]]. inversion E; subst. simpl. auto.
    + intros (-> & _ & L). destruct d; [left; reflexivity | simpl in L; lia].
  - destruct s as [|c s]; simpl.
    + split.
      * intros [E|[]]. inversion E; subst. simpl. repeat split; auto. lia.
      * intros (E & _ & _). destruct d; [|discriminate]. simpl in E. subst. now left.
    + destruct (JS.is_digit c) eqn:Dc.
      * rewrite in_app_iff, in_map_iff. split.
        -- intros [((d', r') & E & Hin) | [E|[]]].
           ++ inversion E; subst. apply IH in Hin. destruct Hin as (-> & Hd & Hl).
              simpl. rewrite Dc, Hd. repeat split; auto. lia.
           ++ inversion E; subst. simpl. repeat split; auto. lia.
        -- intros (E & Hd & Hl). destruct d as [|c' d].
           ++ simpl in E. subst. right. now left.
           ++ simpl in E. inversion E; subst. left. exists (d, r). split; [reflexivity|].
              apply IH. simpl in Hd, Hl. apply andb_true_iff in Hd.
              repeat split; [tauto | lia].
      * split.
        -- intros [E|[]]. inversion E; subst. simpl. repeat split; auto. lia.
        -- intros (E & Hd & _). destruct d as [|c' d].
           ++ simpl in E. subst. now left.
           ++ simpl in E. inversion E; subst. simpl in Hd. rewrite Dc in Hd. discriminate.
Qed.

Lemma digits_In (lo hi : nat) (s d r : string) :
  In (d, r) (digits lo hi s) <->
  s = d ++ r /\ all_digits d = true /\ lo <= String.length d <= hi.
Proof.
  unfold digits. rewrite filter_In, take_digits_In. simpl.
  rewrite Nat.leb_le. tauto.
Qed.

Lemma one_of_In (cs : list ascii) (s : string) (c : ascii) (r : string) :
  In (c, r) (one_of cs s) <-> s = String c r /\ existsb (Ascii.eqb c) cs = true.
Proof.
  unfold one_of. destruct s as [|c' s]; simpl.
  - split; [tauto | intros [E _]; discriminate].
  - destruct (existsb (Ascii.eqb c') cs) eqn:Ec; simpl.
    + split.
      * intros [E|[]]. inversion E; subst. auto.
      * intros [E _]. inversion E; subst. now left.
    + split; [tauto|]. intros [E H]. inversion E; subst. congruence.
Qed.

Lemma eos_In (s : string) (u : unit) (r : string) :
  In (u, r) (eos s) <-> s = "" /\ r = "".
Proof.
  unfold eos. destruct s; simpl.
  - split.
    + intros [E|[]]. inversion E. auto.
    + intros [_ ->]. left. now destruct u.
  - split; [tauto | intros [E _]; discriminate].
Qed.

Lemma bind_In {A B} (m : Matcher A) (k : A -> Matcher B) (s : string) (b : B) (r : string) :
  In (b, r) (bind m k s) <-> exists a r', In (a, r') (m s) /\ In (b, r) (k a r').
Proof.
  unfold bind. rewrite in_flat_map. split.
  - intros ([a r'] & H1 & H2). eauto.
  - intros (a & r' & H1 & H2). exists (a, r'). auto.
Qed.

Lemma js_match_Some_In {A} (re : Matcher A) (s : string) (a : A) :
  js_match re s = Some a -> exists r, In (a, r) (re s).
Proof.
  unfold js_match. destruct (re s) as [|[a' r] l]; [discriminate|].
  intros E. inversion E; subst. exists r. now left.
Qed.

Lemma js_match_None_In {A} (re : Matcher A) (s : string) (a : A) (r : string) :
  js_match re s = None -> ~ In (a, r) (re s).
Proof.
  unfold js_match. destruct (re s) as [|[a' r'] l]; [auto | discriminate].
Qed.

End Combinators.

(** ** The two patterns read a date as [read_date] does *)

Lemma within_iff (lo hi : nat) (s : string) :
  within lo hi s = true <-> lo <= String.length s <= hi.
Proof. unfold within. rewrite andb_true_iff, !Nat.leb_le. tauto. Qed.

Lemma span_digits_spec (s : string) :
  s = fst (span_digits s) ++ snd (span_digits s) /\
  all_digits (fst (span_digits s)) = true /\
  match snd (span_digits s) with
  | String c _ => JS.is_digit c = false
  | EmptyString => True
  end.
Proof.
  induction s as [|c s (E & D & N)]; simpl; [auto|].
  destruct (JS.is_digit c) eqn:Dc; simpl.
  - rewrite Dc, D. repeat split; [congruence | exact N].
  - auto.
Qed.

Lemma span_digits_stop (a : string) (c : ascii) (r : string) :
  all_digits a = true -> JS.is_digit c = false ->
  span_digits (a ++ String c r) = (a, String c r).
Proof.
  intros Da Dc. induction a as [|x a IH]; simpl.
  - now rewrite Dc.
  - simpl in Da. apply andb_true_iff in Da. destruct Da as [Dx Da].
    rewrite Dx, (IH Da). reflexivity.
Qed.

Lemma span_digits_end (a : string) :
  all_digits a = true -> span_digits a = (a, "").
Proof.
  induction a as [|x a IH]; simpl; [reflexivity|].
  intros Da. apply andb_true_iff in Da. destruct Da as [Dx Da].
  rewrite Dx, (IH Da). reflexivity.
Qed.

Section ReadDate.

Variable ok : ascii -> ascii -> bool.
Variables lo1 hi1 lo2 hi2 lo3 hi3 : nat.

Lemma read_date_sound (s a b c : string) :
  read_date ok lo1 hi1 lo2 hi2 lo3 hi3 s = Some (a, b, c) ->
  date_parts ok lo1 hi1 lo2 hi2 lo3 hi3 s a b c.
Proof.
  unfold read_date.
  destruct (span_digits_spec s) as (E1 & D1 & _).
  destruct (snd (span_digits s)) as [|c1 r1]; [discriminate|].
  destruct (span_digits_spec r1) as (E2 & D2 & _).
  destruct (snd (span_digits r1)) as [|c2 r2]; [discriminate|].
  destruct (span_digits_spec r2) as (E3 & D3 & _).
  destruct (snd (span_digits r2)) as [|? ?]; [|discriminate].
  destruct (ok c1 c2 && _ && _ && _) eqn:C; [|discriminate].
  intros H. inversion H; subst a b c; clear H.
  rewrite !andb_true_iff in C. destruct C as [[[C0 C1] C2] C3].
  rewrite append_nil_r in E3.
  exists c1, c2. repeat split; auto. congruence.
Qed.

Hypothesis separators_are_not_digits :
  forall c1 c2, ok c1 c2 = true -> JS.is_digit c1 = false /\ JS.is_digit c2 = false.

Lemma read_date_complete (s a b c : string) :
  date_parts ok lo1 hi1 lo2 hi2 lo3 hi3 s a b c ->
  read_date ok lo1 hi1 lo2 hi2 lo3 hi3 s = Some (a, b, c).
Proof.
  intros (c1 & c2 & -> & Hok & Da & Db & Dc & Wa & Wb & Wc).
  destruct (separators_are_not_digits _ _ Hok) as [N1 N2].
  unfold read_date.
  rewrite (span_digits_stop a c1 _ Da N1). simpl.
  rewrite (span_digits_stop b c2 _ Db N2). simpl.
  rewrite (span_digits_end c Dc). simpl.
  now rewrite Hok, Wa, Wb, Wc.
Qed.

End ReadDate.

Lemma read_date_ext (ok ok' : ascii -> ascii -> bool) lo1 hi1 lo2 hi2 lo3 hi3 s :
  (forall c1 c2, ok c1 c2 = ok' c1 c2) ->
  read_date ok lo1 hi1 lo2 hi2 lo3 hi3 s = read_date ok' lo1 hi1 lo2 hi2 lo3 hi3 s.
Proof.
  intros E. unfold read_date.
  destruct (snd (span_digits s)) as [|c1 r1]; [reflexivity|].
  destruct (snd (span_digits r1)) as [|c2 r2]; [reflexivity|].
  now rewrite E.
Qed.

Section ThreeGroups.

Variables lo1 hi1 lo2 hi2 lo3 hi3 : nat.
Variables cs1 cs2 : list ascii.

Let re := three_groups lo1 hi1 cs1 lo2 hi2 cs2 lo3 hi3.
Let parts := date_parts (in_class cs1 cs2) lo1 hi1 lo2 hi2 lo3 hi3.

Lemma three_groups_In (s a b c r : string) :
  In ((a, b, c), r) (re s) <-> r = "" /\ parts s a b c.
Proof.
  unfold re, parts, three_groups, date_parts, in_class. split.
  - intros H.
    apply bind_In in H. destruct H as (a' & r1 & H1 & H).
    apply bind_In in H. destruct H as (c1 & r2 & H2 & H).
    apply bind_In in H. destruct H as (b' & r3 & H3 & H).
    apply bind_In in H. destruct H as (c2 & r4 & H4 & H).
    apply bind_In in H. destruct H as (c' & r5 & H5 & H).
    apply bind_In in H. destruct H as (u & r6 & H6 & H).
    destruct H as [H|[]]. inversion H; subst a' b' c' r6; clear H.
    apply digits_In in H1, H3, H5. apply one_of_In in H2, H4. apply eos_In in H6.
    destruct H1 as (-> & Da & La), H2 as (-> & S1), H3 as (-> & Db & Lb),
             H4 as (-> & S2), H5 as (-> & Dc & Lc), H6 as (E5 & ->).
    subst r5. rewrite append_nil_r. split; [reflexivity|].
    exists c1, c2. rewrite S1, S2, !within_iff. repeat split; auto; lia.
  - intros (-> & c1 & c2 & -> & Hok & Da & Db & Dc & Wa & Wb & Wc).
    apply andb_true_iff in Hok. destruct Hok as [S1 S2].
    apply within_iff in Wa, Wb, Wc.
    apply bind_In. exists a, (String c1 (b ++ String c2 c)). split.
    { apply digits_In. auto. }
    apply bind_In. exists c1, (b ++ String c2 c). split.
    { apply one_of_In. auto. }
    apply bind_In. exists b, (String c2 c). split.
    { apply digits_In. auto. }
    apply bind_In. exists c2, c. split.
    { apply one_of_In. auto. }
    apply bind_In. exists c, "". split.
    { apply digits_In. rewrite append_nil_r. auto. }
    apply bind_In. exists tt, "". split.
    { apply eos_In. auto. }
    now left.
Qed.

Hypothesis cs1_not_digits : forallb (fun c => negb (JS.is_digit c)) cs1 = true.
Hypothesis cs2_not_digits : forallb (fun c => negb (JS.is_digit c)) cs2 = true.

Lemma in_class_not_digits (c1 c2 : ascii) :
  in_class cs1 cs2 c1 c2 = true -> JS.is_digit c1 = false /\ JS.is_digit c2 = false.
Proof.
  unfold in_class. rewrite andb_true_iff, !existsb_exists.
  intros [(x & Hx & Ex) (y & Hy & Ey)].
  apply Ascii.eqb_eq in Ex, Ey. subst x y.
  rewrite forallb_forall in cs1_not_digits, cs2_not_digits.
  apply cs1_not_digits in Hx. apply cs2_not_digits in Hy.
  now rewrite negb_true_iff in Hx, Hy.
Qed.

(** The engine's backtracking never finds a second reading: the first
    match of the pattern is the one reading [read_date] makes. *)
Lemma js_match_three_groups (s : string) :
  Regex.js_match re s = read_date (in_class cs1 cs2) lo1 hi1 lo2 hi2 lo3 hi3 s.
Proof.
  destruct (Regex.js_match re s) as [[[a b] c]|] eqn:E.
  - apply js_match_Some_In in E. destruct E as [r E].
    apply three_groups_In in E. destruct E as [_ E].
    symmetry. apply read_date_complete; [exact in_class_not_digits | exact E].
  - destruct (read_date _ _ _ _ _ _ _ s) as [[[a b] c]|] eqn:R; [|reflexivity].
    exfalso. apply read_date_sound in R.
    apply (js_match_None_In re s (a, b, c) "" E).
    apply three_groups_In. auto.
Qed.

End ThreeGroups.

Lemma iso_re_reads (s : string) :
  Regex.js_match iso_re s =
  read_date (fun c1 c2 => Ascii.eqb c1 "-" && Ascii.eqb c2 "-") 4 4 2 2 2 2 s.
Proof.
  change iso_re with (three_groups 4 4 ["-"%char] 2 2 ["-"%char] 2 2).
  rewrite js_match_three_groups by reflexivity.
  apply read_date_ext. intros c1 c2. unfold in_class. simpl.
  now rewrite !orb_false_r.
Qed.

Lemma mdy_re_reads (s : string) :
  Regex.js_match mdy_re s = mdy_parts_any s.
Proof.
  change mdy_re
    with (three_groups 1 2 ["/"%char; "-"%char] 1 2 ["/"%char; "-"%char] 2 4).
  rewrite js_match_three_groups by reflexivity.
  apply read_date_ext. intros c1 c2. unfold in_class, is_sep. simpl.
  now rewrite !orb_false_r.
Qed.

(** ** The date forms, spelled out *)

Lemma mdy_parts_any_iff (s mm dd yyyy : string) :
  mdy_parts_any s = Some (mm, dd, yyyy) <->
  exists c1 c2,
    s = mm ++ String c1 (dd ++ String c2 yyyy) /\
    is_sep c1 && is_sep c2 = true /\
    all_digits mm = true /\ all_digits dd = true /\ all_digits yyyy = true /\
    within 1 2 mm = true /\ within 1 2 dd = true /\ within 2 4 yyyy = true.
Proof.
  split.
  - apply read_date_sound.
  - apply read_date_complete. intros c1 c2.
    unfold is_sep. rewrite andb_true_iff, !orb_true_iff, !Ascii.eqb_eq.
    intros [[-> | ->] [-> | ->]]; split; reflexivity.
Qed.

Lemma mdy_parts_iff (sep : ascii) (s mm dd yyyy : string) :
  JS.is_digit sep = false ->
  mdy_parts sep s = Some (mm, dd, yyyy) <->
  s = mm ++ String sep (dd ++ String sep yyyy) /\
  all_digits mm = true /\ all_digits dd = true /\ all_digits yyyy = true /\
  within 1 2 mm = true /\ within 1 2 dd = true /\ within 2 4 yyyy = true.
Proof.
  intros N. split.
  - intros H. apply read_date_sound in H.
    destruct H as (c1 & c2 & E & Hok & H).
    apply andb_true_iff in Hok. destruct Hok as [E1 E2].
    apply Ascii.eqb_eq in E1, E2. subst c1 c2. auto.
  - intros (E & H). apply read_date_complete.
    + intros c1 c2 Hok. apply andb_true_iff in Hok. destruct Hok as [E1 E2].
      apply Ascii.eqb_eq in E1, E2. subst c1 c2. auto.
    + exists sep, sep. rewrite !Ascii.eqb_refl. auto.
Qed.

(** ISO form, character by character. *)
Lemma is_iso_form_iff (s : string) :
  is_iso_form s = true <->
  exists y1 y2 y3 y4 m1 m2 d1 d2,
    s = String y1 (String y2 (String y3 (String y4 (String "-"
          (String m1 (String m2 (String "-" (String d1 (String d2 "")))))))))
    /\ forallb JS.is_digit [y1; y2; y3; y4; m1; m2; d1; d2] = true.
Proof.
  unfold is_iso_form. split.
  - destruct (read_date _ 4 4 2 2 2 2 s) as [[[y m] d]|] eqn:R; [|discriminate].
    intros _. apply read_date_sound in R.
    destruct R as (c1 & c2 & -> & Hok & Dy & Dm & Dd & Wy & Wm & Wd).
    apply andb_true_iff in Hok. destruct Hok as [E1 E2].
    apply Ascii.eqb_eq in E1, E2. subst c1 c2.
    unfold within in Wy, Wm, Wd.
    destruct y as [|y1 [|y2 [|y3 [|y4 [|y5 y]]]]]; simpl in Wy; try discriminate.
    destruct m as [|m1 [|m2 [|m3 m]]]; simpl in Wm; try discriminate.
    destruct d as [|d1 [|d2 [|d3 d]]]; simpl in Wd; try discriminate.
    exists y1, y2, y3, y4, m1, m2, d1, d2. split; [reflexivity|].
    simpl in *. rewrite !andb_true_r in *.
    rewrite !andb_true_iff in *. tauto.
  - intros (y1 & y2 & y3 & y4 & m1 & m2 & d1 & d2 & -> & D).
    simpl in D. rewrite !andb_true_r in D. rewrite !andb_true_iff in D.
    destruct D as (Dy1 & Dy2 & Dy3 & Dy4 & Dm1 & Dm2 & Dd1 & Dd2).
    rewrite (read_date_complete _ 4 4 2 2 2 2) with
      (a := String y1 (String y2 (String y3 (String y4 ""))))
      (b := String m1 (String m2 "")) (c := String d1 (String d2 ""));
      [reflexivity | |].
    + intros x y E. apply andb_true_iff in E. destruct E as [E1 E2].
      apply Ascii.eqb_eq in E1, E2. subst. split; reflexivity.
    + exists "-"%char, "-"%char. simpl.
      rewrite Dy1, Dy2, Dy3, Dy4, Dm1, Dm2, Dd1, Dd2. repeat split; reflexivity.
Qed.

(** ** [normalizeDOB] *)

Lemma normalizeDOB_reads (s : string) :
  normalizeDOB s =
  if is_iso_form s then s
  else match mdy_parts_any s with
       | Some (mm, dd, yyyy) =>
           JS.padStart ((if String.length yyyy =? 2 then "19" else "") ++ yyyy) 4 "0"
           ++ "-" ++ JS.padStart mm 2 "0" ++ "-" ++ JS.padStart dd 2 "0"
       | None => s
       end.
Proof.
  unfold normalizeDOB, is_iso_form. rewrite iso_re_reads, mdy_re_reads.
  destruct (read_date _ 4 4 2 2 2 2 s); reflexivity.
Qed.

Lemma read_date_weaken (ok ok' : ascii -> ascii -> bool) lo1 hi1 lo2 hi2 lo3 hi3 s p :
  (forall c1 c2, ok c1 c2 = true -> ok' c1 c2 = true) ->
  read_date ok lo1 hi1 lo2 hi2 lo3 hi3 s = Some p ->
  read_date ok' lo1 hi1 lo2 hi2 lo3 hi3 s = Some p.
Proof.
  intros W. unfold read_date.
  destruct (snd (span_digits s)) as [|c1 r1]; [discriminate|].
  destruct (snd (span_digits r1)) as [|c2 r2]; [discriminate|].
  destruct (snd (span_digits r2)); [|discriminate].
  destruct (ok c1 c2) eqn:E; simpl; [|discriminate].
  now rewrite (W _ _ E).
Qed.

Lemma mdy_parts_any_of (sep : ascii) (s : string) p :
  is_sep sep = true -> mdy_parts sep s = Some p -> mdy_parts_any s = Some p.
Proof.
  intros Hs. apply read_date_weaken. intros c1 c2 H.
  apply andb_true_iff in H. destruct H as [E1 E2].
  apply Ascii.eqb_eq in E1, E2. subst. now rewrite Hs.
Qed.

Lemma is_sep_not_digit (c1 c2 : ascii) :
  is_sep c1 && is_sep c2 = true -> JS.is_digit c1 = false /\ JS.is_digit c2 = false.
Proof.
  unfold is_sep. rewrite andb_true_iff, !orb_true_iff, !Ascii.eqb_eq.
  intros [[-> | ->] [-> | ->]]; split; reflexivity.
Qed.

Lemma mdy_parts_any_sound (s mm dd yyyy : string) :
  mdy_parts_any s = Some (mm, dd, yyyy) ->
  date_parts (fun c1 c2 => is_sep c1 && is_sep c2) 1 2 1 2 2 4 s mm dd yyyy.
Proof. apply read_date_sound. Qed.

(** A date in month-day-year form is not in ISO form: its first group is
    too short. *)
Lemma mdy_is_not_iso (s : string) p :
  mdy_parts_any s = Some p -> is_iso_form s = false.
Proof.
  unfold mdy_parts_any, is_iso_form, read_date.
  destruct (snd (span_digits s)) as [|c1 r1]; [discriminate|].
  destruct (snd (span_digits r1)) as [|c2 r2]; [discriminate|].
  destruct (snd (span_digits r2)); [|discriminate].
  unfold within.
  destruct (String.length (fst (span_digits s))) as [|[|[|[|[|n]]]]];
    simpl; rewrite ?andb_false_r; simpl; try discriminate; reflexivity.
Qed.

Lemma year_written (yyyy : string) :
  within 2 4 yyyy = true ->
  JS.padStart ((if String.length yyyy =? 2 then "19" else "") ++ yyyy) 4 "0"
  = written_year yyyy.
Proof.
  unfold within, written_year, JS.padStart.
  destruct yyyy as [|a [|b [|c [|d [|e y]]]]]; simpl; try discriminate; reflexivity.
Qed.

Lemma normalizeDOB_mdy (s mm dd yyyy : string) :
  mdy_parts_any s = Some (mm, dd, yyyy) ->
  normalizeDOB s
  = written_year yyyy ++ "-" ++ JS.padStart mm 2 "0" ++ "-" ++ JS.padStart dd 2 "0".
Proof.
  intros H. rewrite normalizeDOB_reads, (mdy_is_not_iso _ _ H), H.
  rewrite year_written; [reflexivity|].
  apply mdy_parts_any_sound in H.
  destruct H as (? & ? & _ & _ & _ & _ & _ & _ & _ & W). exact W.
Qed.

Lemma normalizeDOB_iso (s : string) :
  is_iso_form s = true -> normalizeDOB s = s.
Proof. intros H. now rewrite normalizeDOB_reads, H. Qed.

Lemma normalizeDOB_other (s : string) :
  is_iso_form s = false -> mdy_parts_any s = None -> normalizeDOB s = s.
Proof. intros H1 H2. now rewrite normalizeDOB_reads, H1, H2. Qed.

Lemma padStart_two_digits (x : string) :
  all_digits x = true -> within 1 2 x = true ->
  all_digits (JS.padStart x 2 "0") = true /\ String.length (JS.padStart x 2 "0") = 2.
Proof.
  unfold within, JS.padStart.
  destruct x as [|a [|b [|c x]]]; simpl; try discriminate; auto.
Qed.

Lemma written_year_four_digits (yyyy : string) :
  all_digits yyyy = true -> within 2 4 yyyy = true ->
  all_digits (written_year yyyy) = true /\ String.length (written_year yyyy) = 4.
Proof.
  unfold within, written_year.
  destruct yyyy as [|a [|b [|c [|d [|e y]]]]]; simpl; try discriminate; auto.
Qed.

(** What [normalizeDOB] writes is in ISO form. *)
Lemma normalizeDOB_mdy_iso (s mm dd yyyy : string) :
  mdy_parts_any s = Some (mm, dd, yyyy) -> is_iso_form (normalizeDOB s) = true.
Proof.
  intros H. rewrite (normalizeDOB_mdy _ _ _ _ H).
  apply mdy_parts_any_sound in H.
  destruct H as (c1 & c2 & _ & _ & Da & Db & Dc & Wa & Wb & Wc).
  destruct (padStart_two_digits mm Da Wa) as [Dm Lm].
  destruct (padStart_two_digits dd Db Wb) as [Dd Ld].
  destruct (written_year_four_digits yyyy Dc Wc) as [Dy Ly].
  unfold is_iso_form.
  rewrite (read_date_complete _ 4 4 2 2 2 2) with
    (a := written_year yyyy) (b := JS.padStart mm 2 "0") (c := JS.padStart dd 2 "0");
    [reflexivity | |].
  - intros x y E. apply andb_true_iff in E. destruct E as [E1 E2].
    apply Ascii.eqb_eq in E1, E2. subst. split; reflexivity.
  - exists "-"%char, "-"%char. unfold within. rewrite Lm, Ld, Ly.
    repeat split; auto.
Qed.

Lemma normalizeDOB_idempotent (s : string) :
  normalizeDOB (normalizeDOB s) = normalizeDOB s.
Proof.
  destruct (is_iso_form s) eqn:I.
  - now rewrite !(normalizeDOB_iso s I).
  - destruct (mdy_parts_any s) as [[[mm dd] yyyy]|] eqn:P.
    + apply normalizeDOB_iso. eapply normalizeDOB_mdy_iso; eauto.
    + now rewrite !(normalizeDOB_other s I P).
Qed.

Lemma written_year_prefix (yyyy : string) :
  String.length yyyy = 2 <-> written_year yyyy = "19" ++ yyyy.
Proof.
  unfold written_year.
  destruct yyyy as [|a [|b [|c [|d y]]]]; simpl; split; intros E;
    try reflexivity; try discriminate; try lia;
    apply (f_equal String.length) in E; simpl in E; lia.
Qed.

(** C5, as the specification words it, fails: a date whose two separators
    differ is in neither of the forms M/D/Y and M-D-Y, nor in ISO form,
    and [normalizeDOB] rewrites it all the same. *)
Lemma normalizeDOB_rewrites_mixed_separators :
  ~ (forall s, is_iso_form s = false -> is_mdy_form s = false -> normalizeDOB s = s).
Proof.
  intros H. specialize (H "1/2-1975" eq_refl eq_refl).
  vm_compute in H. discriminate H.
Qed.

(** C5 (amended): ["01/01/1975"] and ["01/01/75"] both become
    ["1975-01-01"]; a text made of one or two digits, a separator, one or
    two digits, a separator and two to four digits, each separator being a
    slash or a hyphen independently of the other, is rewritten to
    year-month-day with month and day padded to two digits, the year
    getting the prefix 19 exactly when it has two digits; M/D/Y and M-D-Y
    are of that form; every text that is neither of that form nor in ISO
    form is returned unchanged. *)
Theorem normalizeDOB_month_day_year :
  normalizeDOB "01/01/1975" = "1975-01-01" /\
  normalizeDOB "01/01/75" = "1975-01-01" /\
  (forall s mm dd yyyy,
      mdy_parts_any s = Some (mm, dd, yyyy) ->
      normalizeDOB s
      = written_year yyyy ++ "-" ++ JS.padStart mm 2 "0" ++ "-" ++ JS.padStart dd 2 "0"
      /\ (String.length yyyy = 2 <-> written_year yyyy = "19" ++ yyyy)) /\
  (forall s p, mdy_parts "/" s = Some p \/ mdy_parts "-" s = Some p ->
               mdy_parts_any s = Some p) /\
  (forall s, is_iso_form s = false -> mdy_parts_any s = None -> normalizeDOB s = s).
Proof.
  split; [reflexivity|]. split; [reflexivity|]. split; [|split].
  - intros s mm dd yyyy H. split.
    + now apply normalizeDOB_mdy.
    + apply written_year_prefix.
  - intros s p [H|H]; revert H; apply mdy_parts_any_of; reflexivity.
  - exact normalizeDOB_other.
Qed.

Lemma normalizeDOB_month_day_year_witness :
  normalizeDOB "3-7/68" = "1968-03-07" /\ normalizeDOB "next week" = "next week".
Proof.
  destruct normalizeDOB_month_day_year as (_ & _ & Hmdy & _ & Hother). split.
  - exact (proj1 (Hmdy "3-7/68" "3" "7" "68" eq_refl)).
  - exact (Hother "next week" eq_refl eq_refl).
Defined.

(** C6: a text already in the form YYYY-MM-DD (four digits, a hyphen, two
    digits, a hyphen, two digits) is returned unchanged, so normalizing it
    again is the identity. *)
Theorem normalizeDOB_iso_unchanged (s : string) :
  is_iso_form s = true ->
  normalizeDOB s = s /\ normalizeDOB (normalizeDOB s) = s.
Proof.
  intros H. pose proof (normalizeDOB_iso s H) as E.
  split; [exact E | now rewrite !E].
Qed.

Lemma normalizeDOB_iso_unchanged_witness :
  normalizeDOB "1975-01-01" = "1975-01-01" /\
  normalizeDOB (normalizeDOB "1975-01-01") = "1975-01-01".
Proof. apply (normalizeDOB_iso_unchanged "1975-01-01"). reflexivity. Defined.

(** C10: a date M/D/Y or M-D-Y whose year has exactly three digits is
    recognized and rewritten with the year padded by one zero: it gets no
    19 in front and does not pass through unchanged. *)
Theorem normalizeDOB_three_digit_year (s mm dd yyyy : string) :
  mdy_parts "/" s = Some (mm, dd, yyyy) \/ mdy_parts "-" s = Some (mm, dd, yyyy) ->
  String.length yyyy = 3 ->
  normalizeDOB s = "0" ++ yyyy ++ "-" ++ JS.padStart mm 2 "0" ++ "-" ++ JS.padStart dd 2 "0"
  /\ String.prefix "19" (normalizeDOB s) = false
  /\ normalizeDOB s <> s.
Proof.
  intros H L.
  assert (P : mdy_parts_any s = Some (mm, dd, yyyy)).
  { destruct H as [H|H]; revert H; apply mdy_parts_any_of; reflexivity. }
  pose proof (normalizeDOB_mdy _ _ _ _ P) as E.
  unfold written_year in E. rewrite L in E.
  split; [exact E|]. rewrite E. split; [reflexivity|].
  apply mdy_parts_any_sound in P.
  destruct P as (c1 & c2 & -> & Hok & Da & _ & Dy & Wa & _ & _).
  apply is_sep_not_digit in Hok. destruct Hok as [N1 _].
  destruct yyyy as [|y1 [|y2 [|y3 [|y4 y]]]]; simpl in L; try discriminate.
  simpl in Dy. rewrite !andb_true_iff in Dy. destruct Dy as (Dy1 & Dy2 & _).
  unfold within in Wa.
  destruct mm as [|m1 [|m2 [|m3 m]]]; simpl in Wa; try discriminate; simpl; intros C.
  - inversion C; subst. congruence.
  - inversion C; subst. congruence.
Qed.

Lemma normalizeDOB_three_digit_year_witness :
  normalizeDOB "1/2/975" = "0975-01-02"
  /\ String.prefix "19" (normalizeDOB "1/2/975") = false
  /\ normalizeDOB "1/2/975" <> "1/2/975".
Proof.
  apply (normalizeDOB_three_digit_year "1/2/975" "1" "2" "975").
  - left. reflexivity.
  - reflexivity.
Defined.

(** ** Running the agents *)

Lemma pushLog_run agent step detail data env st :
  pushLog agent step detail data env st = (Ok tt, logged env agent step detail data st).
Proof. reflexivity. Qed.

Lemma notes_block_run prompt env st :
  try_catch
    (res <- askGeminiJSON prompt ;;
     n <- get_prop res "notes" ;;
     ret (match n with
          | Some (JArr items) => firstn 3 items
          | _ => []
          end))
    (fun _ => ret []) env st
  = (Ok (notes_of (gemini env (asked st) prompt)), asked_once st).
Proof.
  unfold try_catch, bind, askGeminiJSON, notes_of.
  destruct (gemini env (asked st) prompt) as [j|e]; [|reflexivity].
  destruct j; reflexivity.
Qed.

Lemma text_block_run key fallback prompt env st :
  try_catch
    (j <- askGeminiJSON prompt ;;
     t <- get_prop j key ;;
     ret (match t with Some (JStr s) => s | _ => fallback end))
    (fun _ => ret fallback) env st
  = (Ok (text_of key fallback (gemini env (asked st) prompt)), asked_once st).
Proof.
  unfold try_catch, bind, askGeminiJSON, text_of.
  destruct (gemini env (asked st) prompt) as [j|e]; [|reflexivity].
  destruct j; reflexivity.
Qed.

Lemma verifierAgent_run claim env st :
  let found :=
    (field_checks claim
     ++ map note_issue (notes_of (gemini env (asked st) (VerifyPrompt claim))))%list in
  verifierAgent claim env st
  = (Ok {| issues := found; normalized := claim |},
     logged env "VerifierAgent" "validate" "Validated fields & consistency."
       (DataIssues found) (asked_once st)).
Proof.
  intros found. unfold verifierAgent.
  unfold bind at 1. rewrite notes_block_run.
  unfold bind. rewrite pushLog_run. reflexivity.
Qed.

Lemma mapM_interpolate {A} (f : A -> string -> string) (msg : A -> JSON)
    (l : list A) env st :
  mapM (fun i => message <- interpolate (msg i) ;; ret (f i message)) l env st
  = if forallb (fun i => converts (msg i)) l
    then (Ok (map (fun i => f i (shown (msg i))) l), st)
    else (Throw cannot_convert, st).
Proof.
  revert st. induction l as [|x l IH]; intros st; [reflexivity|].
  assert (E : interpolate (msg x) env st
              = match ToString (msg x) with
                | Some t => (Ok t, st)
                | None => (Throw cannot_convert, st)
                end)
    by (unfold interpolate; destruct (ToString (msg x)); reflexivity).
  cbn [mapM forallb map]. unfold bind at 1. unfold bind at 1. rewrite E.
  unfold converts at 1. unfold shown at 1.
  destruct (ToString (msg x)) as [t|]; [|reflexivity].
  cbn [andb]. unfold ret at 1. unfold bind at 1. rewrite IH.
  destruct (forallb _ l); reflexivity.
Qed.

Lemma submissionAgent_run claim found suggested env st :
  submissionAgent claim found suggested env st
  = if all_convert found
    then (Ok (draft_of claim found suggested),
          logged env "SubmissionAgent" "draft" "Prepared submission draft."
            (DataDraft (draft_of claim found suggested)) st)
    else (Throw cannot_convert, st).
Proof.
  unfold submissionAgent. unfold bind at 1. rewrite mapM_interpolate.
  fold (all_convert found). destruct (all_convert found); reflexivity.
Qed.

Lemma all_convert_iff (found : list VerificationIssue.t) :
  all_convert found = true
  <-> forall i, In i found -> ToString (VerificationIssue.message i) <> None.
Proof.
  unfold all_convert. rewrite forallb_forall. unfold converts.
  split; intros H i Hin; specialize (H i Hin);
    destruct (ToString (VerificationIssue.message i)); congruence.
Qed.

Lemma texts_convert (found : list VerificationIssue.t) :
  forallb message_is_string found = true -> all_convert found = true.
Proof.
  unfold all_convert. rewrite !forallb_forall. intros H i Hin.
  specialize (H i Hin). unfold message_is_string, converts in *.
  destruct (VerificationIssue.message i); try discriminate H. reflexivity.
Qed.

Lemma reviewerAgent_run submission env st :
  let why :=
    text_of "rationale" "Automated review completed."
      (gemini env (asked st) (ReviewPrompt submission)) in
  reviewerAgent submission env st
  = (Ok {| denialRisk := risk_of submission; rationale := why |},
     logged env "ReviewerAgent" "review" "Assessed denial risk."
       (DataReview (risk_of submission) why) (asked_once st)).
Proof.
  intros why. unfold reviewerAgent.
  unfold bind at 1. rewrite text_block_run.
  unfold bind. rewrite pushLog_run. reflexivity.
Qed.

Lemma lookup_CPT_REF_digits (code : string) (v : CptEntry) :
  lookup code CPT_REF = Some v ->
  existsb (String.eqb code) Object_prototype_keys = false.
Proof.
  unfold CPT_REF. simpl.
  destruct (String.eqb_spec code "73721") as [->|_]; [reflexivity|].
  destruct (String.eqb_spec code "70551") as [->|_]; [reflexivity|].
  destruct (String.eqb_spec code "72148") as [->|_]; [reflexivity|].
  discriminate.
Qed.

Lemma coderAgent_run (unicode : string -> string) claim env st :
  names_inherited (ClaimInput.cptCode claim) = false ->
  let proc := JS.trim (JS.toLowerCase unicode (ClaimInput.procedure claim)) in
  let ok := validates proc (ClaimInput.cptCode claim) in
  let why :=
    text_of "justification" "Heuristic CPT validation completed."
      (gemini env (asked st) (coder_prompt unicode claim)) in
  coderAgent unicode claim env st
  = (Ok {| suggestedCpt := suggestion unicode claim; justification := why; valid := ok |},
     logged env "CoderAgent" "code-validate" "Validated/suggested CPT code."
       (DataCoder (suggestion unicode claim) ok) (asked_once st)).
Proof.
  intros NI proc ok why. unfold coderAgent. fold proc.
  assert (V : (match ClaimInput.cptCode claim with
               | Str code =>
                   if JS.truthy_string code then
                     match get_property CPT_REF code with
                     | Own v => ret (matches proc v)
                     | Inherited =>
                         throw (TypeError "Cannot read properties of undefined (reading 'some')")
                     | Missing => ret false
                     end
                   else ret false
               | Undefined | Null => ret false
               end) env st = (Ok ok, st)).
  { unfold ok, validates, get_property. unfold names_inherited in NI.
    destruct (ClaimInput.cptCode claim) as [| |code]; try reflexivity.
    rewrite NI.
    destruct (lookup code CPT_REF) as [v|] eqn:L.
    - destruct code; [discriminate L | reflexivity].
    - destruct code; reflexivity. }
  unfold bind at 1. rewrite V.
  unfold bind at 1.
  replace (if negb ok
           then option_map fst
                  (find (fun kv => matches proc (snd kv)) (Object_entries CPT_REF))
           else nullish_to_null (ClaimInput.cptCode claim))
    with (suggestion unicode claim)
    by (unfold suggestion, scan; fold proc; fold ok; destruct ok; reflexivity).
  fold (coder_prompt unicode claim).
  rewrite text_block_run. unfold bind. rewrite pushLog_run. reflexivity.
Qed.

Lemma coderAgent_inherited (unicode : string -> string) claim env st :
  names_inherited (ClaimInput.cptCode claim) = true ->
  coderAgent unicode claim env st
  = (Throw (TypeError "Cannot read properties of undefined (reading 'some')"), st).
Proof.
  intros NI. unfold coderAgent, names_inherited in *.
  destruct (ClaimInput.cptCode claim) as [| |code]; try discriminate.
  unfold bind at 1. unfold get_property.
  destruct (lookup code CPT_REF) as [v|] eqn:L.
  - apply lookup_CPT_REF_digits in L. congruence.
  - rewrite NI. destruct code; [discriminate NI | reflexivity].
Qed.

(** ** The Submission step *)

Lemma is_error_iff (i : VerificationIssue.t) :
  is_error i = true <-> VerificationIssue.severity i = error.
Proof.
  unfold is_error. destruct (VerificationIssue.severity i); simpl;
    split; congruence.
Qed.

Lemma draft_status claim found suggested :
  (SubmissionDraft.status (draft_of claim found suggested) = BLOCKED <->
   exists i, In i found /\ VerificationIssue.severity i = error) /\
  (SubmissionDraft.status (draft_of claim found suggested) = READY <->
   forall i, In i found -> VerificationIssue.severity i <> error).
Proof.
  unfold draft_of. simpl.
  destruct (existsb is_error found) eqn:E.
  - apply existsb_exists in E. destruct E as (i & Hin & Hi).
    apply is_error_iff in Hi. split; split; intros H; try reflexivity; try discriminate.
    + eauto.
    + exfalso. eapply H; eauto.
  - split; split; intros H; try reflexivity; try discriminate.
    + destruct H as (i & Hin & Hi). apply is_error_iff in Hi.
      assert (existsb is_error found = true) by (apply existsb_exists; eauto).
      congruence.
    + intros i Hin Hi. apply is_error_iff in Hi.
      assert (existsb is_error found = true) by (apply existsb_exists; eauto).
      congruence.
Qed.

(** C1: whatever the claim, the issue list and the suggested code, the
    draft that the Submission step returns has status BLOCKED if and only
    if at least one issue has severity "error", and READY otherwise.  The
    step returns a draft exactly when every message converts to a text, as
    every message that is a text (the declared type of a message) does;
    otherwise it throws the TypeError of the conversion and leaves the log
    as it was. *)
Theorem submission_blocked_iff_error (claim : ClaimInput.t)
    (found : list VerificationIssue.t) (suggested : option string)
    (env : Env) (st : State) :
  ((exists draft st', submissionAgent claim found suggested env st = (Ok draft, st'))
   <-> forall i, In i found -> ToString (VerificationIssue.message i) <> None) /\
  (forallb message_is_string found = true ->
   exists draft st', submissionAgent claim found suggested env st = (Ok draft, st')) /\
  (forall draft st',
     submissionAgent claim found suggested env st = (Ok draft, st') ->
     (SubmissionDraft.status draft = BLOCKED <->
      exists i, In i found /\ VerificationIssue.severity i = error) /\
     (SubmissionDraft.status draft = READY <->
      forall i, In i found -> VerificationIssue.severity i <> error)) /\
  (forall e st',
     submissionAgent claim found suggested env st = (Throw e, st') ->
     e = cannot_convert /\ st' = st).
Proof.
  rewrite submissionAgent_run, <- all_convert_iff.
  pose proof (texts_convert found) as T.
  destruct (all_convert found).
  - split; [split; [reflexivity | eauto]|]. split; [eauto|]. split.
    + intros draft st' E. inversion E; subst. apply draft_status.
    + intros e st' E. discriminate E.
  - split.
    { split; [intros (d & st' & E); discriminate E | discriminate]. }
    split; [intros H; apply T in H; discriminate H|]. split.
    + intros draft st' E. discriminate E.
    + intros e st' E. inversion E. auto.
Qed.

(** ** The Verifier step *)







Lemma notes_convert claim (notes : list JSON) :
  all_convert (field_checks claim ++ map note_issue notes)%list = forallb converts notes.
Proof.
  unfold all_convert. rewrite forallb_app.
  assert (F : forallb (fun i => converts (VerificationIssue.message i))
                (field_checks claim) = true).
  { unfold field_checks.
    repeat match goal with
           | |- context [if ?b then _ else _] => destruct b
           end; reflexivity. }
  rewrite F. cbn [andb].
  induction notes as [|n l IH]; [reflexivity|]. cbn [map forallb]. now rewrite IH.
Qed.




(** ** The Reviewer step *)

Lemma absent_iff (o : option string) : absent o = true <-> missing o.
Proof.
  unfold missing. destruct o as [[|c s]|]; simpl; split; intros H; auto;
    try discriminate; destruct H; congruence.
Qed.

(** C3: the Reviewer returns, whatever the service replies, with denial
    risk "high" for a BLOCKED draft, "medium" for a READY draft whose
    insuranceId or cptCode is missing, and "low" otherwise. *)
Theorem reviewer_risk_classification (submission : SubmissionDraft.t)
    (env : Env) (st : State) :
  exists r st',
    reviewerAgent submission env st = (Ok r, st') /\
    (SubmissionDraft.status submission = BLOCKED -> denialRisk r = high) /\
    (SubmissionDraft.status submission = READY ->
     missing (SubmissionDraft.insuranceId submission)
     \/ missing (SubmissionDraft.cptCode submission) ->
     denialRisk r = medium) /\
    (SubmissionDraft.status submission = READY ->
     ~ missing (SubmissionDraft.insuranceId submission) ->
     ~ missing (SubmissionDraft.cptCode submission) ->
     denialRisk r = low).
Proof.
  rewrite reviewerAgent_run. eexists. eexists. split; [reflexivity|].
  simpl. unfold risk_of.
  repeat split.
  - intros ->. reflexivity.
  - intros -> H. rewrite <- !absent_iff in H.
    apply orb_true_iff in H. now rewrite H.
  - intros -> H1 H2. rewrite <- absent_iff in H1, H2.
    apply not_true_is_false in H1, H2. now rewrite H1, H2.
Qed.

(** ** The Coder step *)

(** The three keys are array indices, so [Object.entries] lists them by
    value and not as declared. *)
Lemma Object_entries_CPT_REF : Object_entries CPT_REF = ascending_codes.
Proof. reflexivity. Qed.

(** Keys that are not array indices keep the order of their creation,
    after the indices. *)
Example Object_entries_mixed_keys :
  Object_entries [("b", 1); ("10", 2); ("a", 3); ("2", 4); ("02", 5)]
  = [("2", 4); ("10", 2); ("b", 1); ("a", 3); ("02", 5)].
Proof. reflexivity. Qed.

Lemma scan_none (table : list (string * CptEntry)) (proc : string) :
  scan table proc = None <->
  forall code v, In (code, v) table -> matches proc v = false.
Proof.
  unfold scan. destruct (find _ table) as [[code v]|] eqn:F; simpl.
  - apply find_some in F. destruct F as [Hin Hm]. simpl in Hm.
    split; [discriminate|]. intros H. rewrite (H _ _ Hin) in Hm. discriminate.
  - split; [|reflexivity]. intros _ code v Hin.
    apply (find_none _ _ F (code, v) Hin).
Qed.

(** C4, as the specification words it, fails: the scan does not follow
    the order in which the table declares its codes.  For a text that
    names a knee and a brain the first declared match is 73721, and the
    Coder suggests 70551. *)
Lemma coder_scan_is_not_in_declaration_order :
  ~ (forall unicode claim env st r st',
        coderAgent unicode claim env st = (Ok r, st') ->
        valid r = false ->
        suggestedCpt r
        = scan CPT_REF (JS.trim (JS.toLowerCase unicode (ClaimInput.procedure claim)))).
Proof.
  intros H.
  pose proof (H no_tables
                (ClaimInput.mk "Ann Ray" "1990-01-01" (Str "ZX-1")
                   "MRI Knee and MRI Brain" Undefined)
                service_down fresh) as H'.
  vm_compute in H'. specialize (H' _ _ eq_refl eq_refl). discriminate H'.
Qed.

(** C4 (amended): for the procedure text "MRI Knee" and no supplied code
    (absent or empty) the Coder suggests "73721"; with the supplied code "73721" the valid
    flag is true and the suggestion is the supplied code; and for every
    claim whose supplied code is not the name of a property that objects
    inherit, the Coder returns, valid exactly when the supplied code is a
    key of the table one of whose substrings occurs in the lowercased,
    trimmed procedure text, in which case the suggestion is the supplied
    code; otherwise it scans the table in ascending order of the codes
    (70551, 72148, 73721), suggests the first code one of whose substrings
    occurs in that text, and suggests null when no entry matches. *)
Theorem coder_suggestion (unicode : string -> string) :
  (forall name dob ins cpt env st,
      lacks cpt ->
      exists r st',
        coderAgent unicode (ClaimInput.mk name dob ins "MRI Knee" cpt) env st = (Ok r, st') /\
        suggestedCpt r = Some "73721") /\
  (forall name dob ins env st,
      exists r st',
        coderAgent unicode (ClaimInput.mk name dob ins "MRI Knee" (Str "73721")) env st
        = (Ok r, st') /\
        valid r = true /\ suggestedCpt r = Some "73721") /\
  (forall claim env st,
      names_inherited (ClaimInput.cptCode claim) = false ->
      let proc := JS.trim (JS.toLowerCase unicode (ClaimInput.procedure claim)) in
      exists r st',
        coderAgent unicode claim env st = (Ok r, st') /\
        valid r = validates proc (ClaimInput.cptCode claim) /\
        (valid r = true ->
         suggestedCpt r = nullish_to_null (ClaimInput.cptCode claim)) /\
        (valid r = false -> suggestedCpt r = scan ascending_codes proc) /\
        (scan ascending_codes proc = None <->
         forall code v, In (code, v) CPT_REF -> matches proc v = false)).
Proof.
  split; [|split].
  - intros name dob ins cpt env st Hc.
    rewrite coderAgent_run by (destruct Hc as [-> | [-> | ->]]; reflexivity).
    eexists. eexists. split; [reflexivity|].
    destruct Hc as [-> | [-> | ->]]; reflexivity.
  - intros name dob ins env st.
    rewrite coderAgent_run by reflexivity.
    eexists. eexists. split; [reflexivity|]. split; reflexivity.
  - intros claim env st NI proc.
    rewrite coderAgent_run by exact NI.
    eexists. eexists. split; [reflexivity|]. simpl. fold proc.
    split; [reflexivity|]. unfold suggestion. fold proc.
    rewrite Object_entries_CPT_REF.
    split; [|split].
    + intros ->. reflexivity.
    + intros ->. reflexivity.
    + rewrite scan_none. split; intros H code v Hin; apply (H code v);
        simpl in *; tauto.
Qed.

Lemma coder_suggestion_witness :
  exists r st',
    coderAgent no_tables (ClaimInput.mk "Ann Ray" "1990-01-01" (Str "ZX-1")
                  "MRI Knee and MRI Brain" (Str "99999")) service_down fresh
    = (Ok r, st') /\
    valid r = false /\ suggestedCpt r = Some "70551".
Proof.
  destruct (proj2 (proj2 (coder_suggestion no_tables))
              (ClaimInput.mk "Ann Ray" "1990-01-01" (Str "ZX-1")
                 "MRI Knee and MRI Brain" (Str "99999"))
              service_down fresh eq_refl)
    as (r & st' & Run & V & _ & S & _).
  exists r, st'. split; [exact Run|]. split; [exact V|].
  rewrite (S V). reflexivity.
Defined.

(** ** The orchestrator *)

Lemma bind_ok {A B} (m : M A) (k : A -> M B) env st a st' :
  m env st = (Ok a, st') -> bind m k env st = k a env st'.
Proof. intros H. unfold bind. now rewrite H. Qed.

Lemma bind_throw {A B} (m : M A) (k : A -> M B) env st e st' :
  m env st = (Throw e, st') -> bind m k env st = (Throw e, st').
Proof. intros H. unfold bind. now rewrite H. Qed.

Lemma parserAgent_keeps_perf input env st o st' :
  parserAgent input env st = (o, st') -> perf_reads st' = perf_reads st.
Proof.
  unfold parserAgent.
  destruct (if is_object input then ClaimInputSchema_safeParse input else None).
  - intros H. inversion H. reflexivity.
  - unfold bind, askGeminiJSON, get_prop.
    destruct (gemini env (asked st) (ParsePrompt input)) as [j|e].
    + destruct j; simpl;
        repeat match goal with
               | |- context [match ?x with _ => _ end] => destruct x; simpl
               end;
        intros H; inversion H; reflexivity.
    + intros H. inversion H. reflexivity.
Qed.

(** The recap converts the messages before it asks anything; once they
    are converted nothing in it throws. *)
Lemma humanExplain_run claim found suggested ok draft review saved rate env st :
  if all_convert found
  then exists text,
         humanExplain claim found suggested ok draft review saved rate env st
         = (Ok text, asked_once st)
  else humanExplain claim found suggested ok draft review saved rate env st
       = (Throw cannot_convert, st).
Proof.
  destruct (all_convert found) eqn:C; unfold humanExplain; unfold bind at 1;
    rewrite mapM_interpolate; fold (all_convert found); rewrite C; [|reflexivity].
  unfold try_catch, bind, askGeminiJSON.
  destruct (gemini env (asked st) _) as [j|e]; [|eexists; reflexivity].
  destruct (truthy j); [|eexists; reflexivity].
  destruct j; simpl; eexists; reflexivity.
Qed.

Lemma humanExplain_total claim found suggested ok draft review saved rate env st :
  all_convert found = true ->
  exists text,
    humanExplain claim found suggested ok draft review saved rate env st
    = (Ok text, asked_once st).
Proof.
  intros C.
  pose proof (humanExplain_run claim found suggested ok draft review saved rate env st) as H.
  now rewrite C in H.
Qed.

(** Once the Parser has returned a claim whose code names no inherited
    property, and the notes the Verifier gets convert to texts, the run
    goes through, whatever else the service replies. *)
Lemma runWorkflow_after_parser (unicode : string -> string) input env st claim st1 :
  parserAgent input env (started st) = (Ok claim, st1) ->
  names_inherited (ClaimInput.cptCode claim) = false ->
  forallb converts (verifier_notes env st1 claim) = true ->
  exists r st',
    runWorkflow unicode input env st = (Ok r, st') /\
    parsed r = claim /\
    issues (verified r)
    = (field_checks claim ++ map note_issue (verifier_notes env st1 claim))%list /\
    suggestedCpt (coder r) = suggestion unicode claim /\
    justification (coder r)
    = text_of "justification" "Heuristic CPT validation completed."
        (gemini env (S (asked st1)) (coder_prompt unicode claim)) /\
    submission r = draft_of claim (issues (verified r)) (suggestion unicode claim) /\
    denialRisk (reviewer r) = risk_of (submission r) /\
    rationale (reviewer r)
    = text_of "rationale" "Automated review completed."
        (gemini env (S (S (asked st1))) (ReviewPrompt (submission r))) /\
    automatedSeconds (metrics r)
    = Z.max 1 (Math_round (Number.value (Number.div (automatedMs env st)
                                           (Number.of_Z 1000)))) /\
    baselineSeconds (metrics r) = 72%Z /\
    cleanClaimRate (metrics r)
    = match SubmissionDraft.status (submission r) with
      | READY => 98%Z
      | BLOCKED => 82%Z
      end.
Proof.
  intros Hp NI Cv. unfold verifier_notes in *.
  pose proof (parserAgent_keeps_perf _ _ _ _ _ Hp) as Hperf. simpl in Hperf.
  unfold runWorkflow.
  erewrite bind_ok by reflexivity.
  erewrite bind_ok by reflexivity.
  erewrite bind_ok by exact Hp.
  erewrite bind_ok by exact (verifierAgent_run _ _ _).
  erewrite bind_ok by exact (coderAgent_run _ _ _ _ NI).
  erewrite bind_ok
    by (cbn [issues suggestedCpt];
        rewrite submissionAgent_run, notes_convert, Cv; reflexivity).
  erewrite bind_ok by exact (reviewerAgent_run _ _ _).
  erewrite bind_ok by reflexivity.
  match goal with
  | |- context [bind (humanExplain ?a ?b ?c ?d ?e ?f ?g ?h) _ env ?s] =>
      destruct (humanExplain_total a b c d e f g h env s) as [text Ht];
      [cbn [issues]; rewrite notes_convert; exact Cv|]
  end.
  erewrite bind_ok by exact Ht.
  erewrite bind_ok by reflexivity.
  unfold ret. eexists. eexists. split; [reflexivity|].
  unfold automatedMs. simpl. rewrite Hperf. repeat split; reflexivity.
Qed.

(** A note that does not convert stops the run in the Submission step,
    after the calls of the Verifier and the Coder. *)
Lemma runWorkflow_submission_throws (unicode : string -> string) input env st claim st1 :
  parserAgent input env (started st) = (Ok claim, st1) ->
  names_inherited (ClaimInput.cptCode claim) = false ->
  forallb converts (verifier_notes env st1 claim) = false ->
  exists st',
    runWorkflow unicode input env st = (Throw cannot_convert, st') /\
    asked st' = S (S (asked st1)).
Proof.
  intros Hp NI Cv. unfold verifier_notes in *. unfold runWorkflow.
  erewrite bind_ok by reflexivity.
  erewrite bind_ok by reflexivity.
  erewrite bind_ok by exact Hp.
  erewrite bind_ok by exact (verifierAgent_run _ _ _).
  erewrite bind_ok by exact (coderAgent_run _ _ _ _ NI).
  erewrite bind_throw
    by (cbn [issues suggestedCpt];
        rewrite submissionAgent_run, notes_convert, Cv; reflexivity).
  eexists. split; reflexivity.
Qed.

(** A run whose Coder meets an inherited name stops there, after the
    Verifier's call. *)
Lemma runWorkflow_coder_throws (unicode : string -> string) input env st claim st1 :
  parserAgent input env (started st) = (Ok claim, st1) ->
  names_inherited (ClaimInput.cptCode claim) = true ->
  exists st',
    runWorkflow unicode input env st
    = (Throw (TypeError "Cannot read properties of undefined (reading 'some')"), st') /\
    asked st' = S (asked st1).
Proof.
  intros Hp NI. unfold runWorkflow.
  erewrite bind_ok by reflexivity.
  erewrite bind_ok by reflexivity.
  erewrite bind_ok by exact Hp.
  erewrite bind_ok by exact (verifierAgent_run _ _ _).
  erewrite bind_throw by exact (coderAgent_inherited _ _ _ _ NI).
  eexists. split; reflexivity.
Qed.

Lemma runWorkflow_parser_throws (unicode : string -> string) input env st e st1 :
  parserAgent input env (started st) = (Throw e, st1) ->
  runWorkflow unicode input env st = (Throw e, st1).
Proof.
  intros Hp. unfold runWorkflow.
  erewrite bind_ok by reflexivity.
  erewrite bind_ok by reflexivity.
  erewrite bind_throw by exact Hp.
  reflexivity.
Qed.

Lemma runWorkflow_returns (unicode : string -> string) input env st r st' :
  runWorkflow unicode input env st = (Ok r, st') ->
  exists claim st1,
    parserAgent input env (started st) = (Ok claim, st1) /\
    names_inherited (ClaimInput.cptCode claim) = false /\
    forallb converts (verifier_notes env st1 claim) = true.
Proof.
  intros H.
  destruct (parserAgent input env (started st)) as [[claim|e] st1] eqn:Hp.
  - exists claim, st1. split; [reflexivity|].
    destruct (names_inherited (ClaimInput.cptCode claim)) eqn:NI.
    { destruct (runWorkflow_coder_throws unicode _ _ _ _ _ Hp NI) as (s' & E & _).
      rewrite E in H. discriminate H. }
    split; [reflexivity|].
    destruct (forallb converts (verifier_notes env st1 claim)) eqn:Cv; [reflexivity|].
    destruct (runWorkflow_submission_throws unicode _ _ _ _ _ Hp NI Cv) as (s' & E & _).
    rewrite E in H. discriminate H.
  - rewrite (runWorkflow_parser_throws unicode _ _ _ _ _ Hp) in H. discriminate H.
Qed.

(** C7, as the specification words it, fails: the elapsed time is not
    floored.  A run of 1500 ms reports 2 seconds, and the floor of 1.5
    is 1. *)
Lemma automatedSeconds_is_not_floored :
  ~ (forall unicode input env st r st',
        runWorkflow unicode input env st = (Ok r, st') ->
        automatedSeconds (metrics r)
        = Z.max 1 (Qfloor (Number.value (automatedMs env st) / 1000))).
Proof.
  intros H.
  pose proof (H no_tables john_doe a_second_and_a_half fresh) as H'.
  vm_compute in H'. specialize (H' _ _ eq_refl). discriminate H'.
Qed.

(** C7 (amended): when a run returns, with [d] the milliseconds between
    the two readings of the performance clock that bracket the five steps
    (their difference as binary64 numbers), automatedSeconds is the
    binary64 quotient [d / 1000] rounded to the nearest whole second (a
    half going up, [Math.round]) and at least one; baselineSeconds is the
    constant 72, and cleanClaimRate is 98 for a READY submission and 82
    for a BLOCKED one. *)
Theorem metrics_of_a_run (unicode : string -> string) input env st r st' :
  runWorkflow unicode input env st = (Ok r, st') ->
  let d := automatedMs env st in
  automatedSeconds (metrics r)
  = Z.max 1 (Qfloor (Number.value (Number.div d (Number.of_Z 1000)) + (1 # 2))) /\
  (1 <= automatedSeconds (metrics r))%Z /\
  baselineSeconds (metrics r) = 72%Z /\
  (SubmissionDraft.status (submission r) = READY -> cleanClaimRate (metrics r) = 98%Z) /\
  (SubmissionDraft.status (submission r) = BLOCKED -> cleanClaimRate (metrics r) = 82%Z).
Proof.
  intros H d.
  destruct (runWorkflow_returns _ _ _ _ _ _ H) as (claim & st1 & Hp & NI & Cv).
  destruct (runWorkflow_after_parser unicode _ _ _ _ _ Hp NI Cv)
    as (r' & st'' & H' & _ & _ & _ & _ & _ & _ & _ & Ha & Hb & Hc).
  rewrite H in H'. inversion H'; subst r' st''; clear H'.
  fold d in Ha. unfold Math_round in Ha.
  split; [exact Ha|]. split; [rewrite Ha; lia|]. split; [exact Hb|].
  rewrite Hc. split; intros ->; reflexivity.
Qed.

Lemma metrics_of_a_run_witness :
  exists r st',
    runWorkflow no_tables john_doe a_second_and_a_half fresh = (Ok r, st') /\
    automatedSeconds (metrics r) = 2%Z /\
    baselineSeconds (metrics r) = 72%Z /\
    cleanClaimRate (metrics r) = 82%Z.
Proof.
  destruct (runWorkflow no_tables john_doe a_second_and_a_half fresh)
    as [[r|e] st'] eqn:E.
  - exists r, st'. split; [reflexivity|].
    destruct (metrics_of_a_run _ _ _ _ _ _ E) as (Ha & _ & Hb & _ & Hblocked).
    split; [|split].
    + rewrite Ha. reflexivity.
    + exact Hb.
    + apply Hblocked. vm_compute in E. inversion E. reflexivity.
  - vm_compute in E. discriminate E.
Defined.

(** The difference is taken in binary64.  Between the readings nearest to
    0.1 ms and 1500.1 ms there is a little less than 1500 ms; their
    binary64 difference is 1500, and the run reports 2 seconds. *)
Example automatedSeconds_in_binary64 :
  (Number.value (Number.reading at_1500_1) - Number.value (Number.reading at_0_1)
   < 1500)%Q /\
  exists r st',
    runWorkflow no_tables john_doe a_tenth_later fresh = (Ok r, st') /\
    automatedSeconds (metrics r) = 2%Z.
Proof.
  split; [reflexivity|].
  eexists. eexists. split; [vm_compute; reflexivity | reflexivity].
Qed.

(** ** Failures of the enrichment calls *)

Lemma notes_of_failure env st prompt :
  next_call_fails env st -> notes_of (gemini env (asked st) prompt) = [].
Proof. intros F. destruct (F prompt) as [e ->]. reflexivity. Qed.

Lemma text_of_failure key fallback env st prompt :
  next_call_fails env st -> text_of key fallback (gemini env (asked st) prompt) = fallback.
Proof. intros F. destruct (F prompt) as [e ->]. reflexivity. Qed.

Lemma field_checks_no_info (claim : ClaimInput.t) (i : VerificationIssue.t) :
  In i (field_checks claim) -> VerificationIssue.severity i <> info.
Proof.
  unfold field_checks.
  repeat match goal with
         | |- context [if ?b then _ else _] => destruct b; simpl
         end;
    intros H; repeat (destruct H as [<- | H]; [simpl; discriminate|]); destruct H.
Qed.

(** C8: when the enrichment call of the Verifier, the Coder or the
    Reviewer fails, the step still returns: the Verifier with the field
    checks alone (no info note), the Coder with the justification
    "Heuristic CPT validation completed.", the Reviewer with the rationale
    "Automated review completed.".  The Coder makes its call unless the
    supplied code names an inherited property, and then it throws before
    asking anything.  A run whose Parser has returned (with a code that
    names no inherited property) goes through when the Verifier's call
    fails, whatever becomes of the calls of the Coder, the Reviewer and the
    recap; it also goes through whenever the notes the Verifier gets
    convert to texts. *)
Theorem enrichment_failures_are_absorbed :
  (forall claim env st,
      next_call_fails env st ->
      exists st',
        verifierAgent claim env st
        = (Ok {| issues := field_checks claim; normalized := claim |}, st') /\
        forall i, In i (field_checks claim) -> VerificationIssue.severity i <> info) /\
  (forall unicode claim env st o st',
      next_call_fails env st ->
      coderAgent unicode claim env st = (o, st') ->
      asked st' <> asked st ->
      exists r, o = Ok r /\ justification r = "Heuristic CPT validation completed.") /\
  (forall unicode claim env st,
      names_inherited (ClaimInput.cptCode claim) = false ->
      exists r st',
        coderAgent unicode claim env st = (Ok r, st') /\ asked st' = S (asked st)) /\
  (forall submission env st,
      next_call_fails env st ->
      exists r st',
        reviewerAgent submission env st = (Ok r, st') /\
        rationale r = "Automated review completed.") /\
  (forall unicode input env st claim st1,
      parserAgent input env (started st) = (Ok claim, st1) ->
      names_inherited (ClaimInput.cptCode claim) = false ->
      next_call_fails env st1
      \/ forallb converts (verifier_notes env st1 claim) = true ->
      exists r st', runWorkflow unicode input env st = (Ok r, st')).
Proof.
  split; [|split; [|split; [|split]]].
  - intros claim env st F. rewrite verifierAgent_run.
    rewrite (notes_of_failure _ _ _ F). simpl. rewrite app_nil_r.
    eexists. split; [reflexivity|]. apply field_checks_no_info.
  - intros unicode claim env st o st' F Run Asked.
    destruct (names_inherited (ClaimInput.cptCode claim)) eqn:NI.
    + rewrite (coderAgent_inherited _ _ _ _ NI) in Run. inversion Run; subst.
      now elim Asked.
    + rewrite (coderAgent_run _ _ _ _ NI) in Run. inversion Run; subst.
      eexists. split; [reflexivity|]. simpl. apply (text_of_failure _ _ _ _ _ F).
  - intros unicode claim env st NI. rewrite (coderAgent_run _ _ _ _ NI).
    eexists. eexists. split; reflexivity.
  - intros submission env st F. rewrite reviewerAgent_run.
    eexists. eexists. split; [reflexivity|]. simpl.
    apply (text_of_failure _ _ _ _ _ F).
  - intros unicode input env st claim st1 Hp NI Cv.
    assert (Cv' : forallb converts (verifier_notes env st1 claim) = true).
    { destruct Cv as [F | Cv]; [|exact Cv].
      unfold verifier_notes. now rewrite (notes_of_failure _ _ _ F). }
    destruct (runWorkflow_after_parser unicode _ _ _ _ _ Hp NI Cv') as (r & st' & H & _).
    eauto.
Qed.

Lemma enrichment_failures_are_absorbed_witness :
  exists r,
    fst (coderAgent no_tables
           (ClaimInput.mk "John Doe" "1975-01-01" Null "MRI Knee" (Str "73721"))
           service_down fresh) = Ok r /\
    justification r = "Heuristic CPT validation completed.".
Proof.
  destruct enrichment_failures_are_absorbed as (_ & Coder & _).
  refine (Coder no_tables
            (ClaimInput.mk "John Doe" "1975-01-01" Null "MRI Knee" (Str "73721"))
            service_down fresh _ _ _ (surjective_pairing _) _).
  - intros prompt. eexists. reflexivity.
  - vm_compute. discriminate.
Defined.

(** ** The run endpoint *)

Lemma POST_001_json (unicode : string -> string) j env st :
  Part_001.POST unicode (Json j) env st
  = (Ok (answer (fst (runWorkflow unicode (input_of j) env st))),
     snd (runWorkflow unicode (input_of j) env st)).
Proof.
  unfold Part_001.POST, try_catch, bind, req_json, ret, WorkflowResponseSchema_parse.
  destruct (runWorkflow unicode (input_of j) env st) as [[r|e] st1]; simpl; [|reflexivity].
  destruct (forallb message_is_string (issues (verified r))); reflexivity.
Qed.

Lemma POST_000_json (unicode : string -> string) j env st :
  Part_000.POST unicode (Json j) env st
  = (Ok (answer (fst (runWorkflow unicode (input_of j) env st))),
     snd (runWorkflow unicode (input_of j) env st)).
Proof.
  unfold Part_000.POST, try_catch, bind, req_json, ret, WorkflowResponseSchema_parse.
  destruct (runWorkflow unicode (input_of j) env st) as [[r|e] st1]; simpl; [|reflexivity].
  destruct (forallb message_is_string (issues (verified r))); reflexivity.
Qed.

Lemma answer_status o :
  (status_code (answer o) = 200%Z /\
   exists r, o = Ok r /\ body (answer o) = WorkflowJson r /\
             forallb message_is_string (issues (verified r)) = true)
  \/ (status_code (answer o) = 400%Z /\ exists msg, body (answer o) = ErrorJson msg).
Proof.
  destruct o as [r|e]; simpl.
  - destruct (forallb message_is_string (issues (verified r))) eqn:V; simpl.
    + left. split; [reflexivity|]. exists r. auto.
    + right. split; [reflexivity|]. eexists. reflexivity.
  - right. split; [reflexivity|]. eexists. reflexivity.
Qed.

(** C9: each of the two handlers always returns a response.  It has status
    200 and carries the validated WorkflowResponse when the run returns
    and its result passes the schema; it has status 400 and carries one
    error message when the body is not JSON (first handler), when the run
    throws, or when the result fails the schema; the second handler reads
    a body that is not JSON as the empty object.  No other status is
    produced. *)
Theorem POST_status_200_or_400 (unicode : string -> string) (req : RequestBody) (env : Env) (st : State) :
  (forall j, Part_001.POST unicode (Json j) env st
             = (Ok (answer (fst (runWorkflow unicode (input_of j) env st))),
                snd (runWorkflow unicode (input_of j) env st))) /\
  (forall e, Part_001.POST unicode (Malformed e) env st
             = (Ok {| status_code := 400; body := ErrorJson (error_message e) |}, st)) /\
  (forall j, Part_000.POST unicode (Json j) env st
             = (Ok (answer (fst (runWorkflow unicode (input_of j) env st))),
                snd (runWorkflow unicode (input_of j) env st))) /\
  (forall e, Part_000.POST unicode (Malformed e) env st = Part_000.POST unicode (Json (JObj [])) env st) /\
  (forall handler, handler = Part_001.POST unicode \/ handler = Part_000.POST unicode ->
     exists resp st',
       handler req env st = (Ok resp, st') /\
       ((status_code resp = 200%Z /\
         exists r, body resp = WorkflowJson r /\
                   forallb message_is_string (issues (verified r)) = true)
        \/ (status_code resp = 400%Z /\ exists msg, body resp = ErrorJson msg))).
Proof.
  split; [exact (fun j => POST_001_json unicode j env st)|].
  split; [reflexivity|].
  split; [exact (fun j => POST_000_json unicode j env st)|].
  split; [reflexivity|].
  intros handler [-> | ->]; destruct req as [j|e].
  - rewrite POST_001_json. eexists. eexists. split; [reflexivity|].
    destruct (answer_status (fst (runWorkflow unicode (input_of j) env st)))
      as [(S & r & _ & B & V) | H]; [left; eauto | right; exact H].
  - eexists. eexists. split; [reflexivity|]. right. simpl. eauto.
  - rewrite POST_000_json. eexists. eexists. split; [reflexivity|].
    destruct (answer_status (fst (runWorkflow unicode (input_of j) env st)))
      as [(S & r & _ & B & V) | H]; [left; eauto | right; exact H].
  - change (Part_000.POST unicode (Malformed e) env st)
      with (Part_000.POST unicode (Json (JObj [])) env st).
    rewrite POST_000_json. eexists. eexists. split; [reflexivity|].
    destruct (answer_status (fst (runWorkflow unicode (input_of (JObj [])) env st)))
      as [(S & r & _ & B & V) | H]; [left; eauto | right; exact H].
Qed.

(** Both answers occur.  With the service down the README's claim is
    still answered with 200. *)
Example POST_answers_200 (unicode : string -> string) :
  exists r st',
    Part_001.POST unicode (Json (JObj [("input", john_doe)])) service_down fresh
    = (Ok {| status_code := 200; body := WorkflowJson r |}, st') /\
    SubmissionDraft.status (submission r) = BLOCKED /\
    denialRisk (reviewer r) = high /\
    List.length (logs r) = 5.
Proof. eexists. eexists. split; [vm_compute; reflexivity|]. repeat split. Qed.

(** A note that is not a text passes the Verifier and the Submission step
    and fails the schema of the response. *)
Example POST_answers_400_on_schema (unicode : string -> string) :
  fst (Part_001.POST unicode (Json john_doe) numeric_notes fresh)
  = Ok {| status_code := 400; body := ErrorJson "invalid WorkflowResponse" |}.
Proof. vm_compute. reflexivity. Qed.

(** A supplied code that names an inherited property makes the Coder
    throw, and the endpoint answer 400. *)
Example POST_answers_400_on_inherited_code (unicode : string -> string) :
  fst (Part_000.POST unicode
         (Json (JObj [ ("patientName", JStr "John Doe"); ("dob", JStr "1975-01-01");
                       ("insuranceId", JStr "ZX-991144"); ("procedure", JStr "MRI Knee");
                       ("cptCode", JStr "toString") ]))
         service_down fresh)
  = Ok {| status_code := 400;
          body := ErrorJson "Cannot read properties of undefined (reading 'some')" |}.
Proof. vm_compute. reflexivity. Qed.

(** ** The two scenarios of the specification, with the service down *)

Example john_doe_is_blocked (unicode : string -> string) :
  exists r st',
    runWorkflow unicode john_doe service_down fresh = (Ok r, st') /\
    SubmissionDraft.status (submission r) = BLOCKED /\
    denialRisk (reviewer r) = high /\
    map AgentLog.agent (logs r)
    = ["ParserAgent"; "VerifierAgent"; "CoderAgent"; "SubmissionAgent"; "ReviewerAgent"].
Proof. eexists. eexists. split; [vm_compute; reflexivity|]. repeat split. Qed.

Example aaron_lee_is_ready (unicode : string -> string) :
  exists r st',
    runWorkflow unicode
      (JObj [ ("patientName", JStr "Aaron Lee"); ("dob", JStr "1979-11-02");
              ("insuranceId", JStr "ZX-991144"); ("procedure", JStr "MRI Lumbar Spine");
              ("cptCode", JStr "72148") ])
      service_down fresh = (Ok r, st') /\
    issues (verified r) = [] /\
    SubmissionDraft.status (submission r) = READY /\
    denialRisk (reviewer r) = low /\
    cleanClaimRate (metrics r) = 98%Z.
Proof. eexists. eexists. split; [vm_compute; reflexivity|]. repeat split. Qed.

(** ** Texts outside the ASCII range, and notes that are not texts *)

(** An insuranceId made of no-break spaces is blank. *)
Example blank_insuranceId :
  field_checks (ClaimInput.mk "John Doe" "1975-01-01"
                  (Str (no_break_space ++ no_break_space)) "MRI Knee" Null)
  = [VerificationIssue.mk "insuranceId" (JStr "Missing insurance ID.") error].
Proof. reflexivity. Qed.

(** An engine that lowers the Kelvin sign to [k] finds the knee. *)
Example kelvin_sign_is_lowered (unicode : string -> string) :
  unicode kelvin_knee = "mri knee" ->
  suggestion unicode (ClaimInput.mk "John Doe" "1975-01-01" Null kelvin_knee Null)
  = Some "73721".
Proof.
  intros E. unfold suggestion.
  change (ClaimInput.procedure _) with kelvin_knee.
  replace (JS.toLowerCase unicode kelvin_knee) with "mri knee"
    by (unfold JS.toLowerCase; rewrite E; reflexivity).
  reflexivity.
Qed.

(** The recap loses the no-break spaces around it. *)
Example recap_is_trimmed :
  JS.trim (no_break_space ++ "All done." ++ no_break_space) = "All done.".
Proof. reflexivity. Qed.

(** A note with a [toString] of its own stops the run in the Submission
    step, and the endpoint answers 400 with the TypeError. *)
Example stubborn_note_stops_the_run (unicode : string -> string) :
  fst (runWorkflow unicode john_doe stubborn_notes fresh) = Throw cannot_convert /\
  fst (Part_001.POST unicode (Json john_doe) stubborn_notes fresh)
  = Ok {| status_code := 400;
          body := ErrorJson "Cannot convert object to primitive value" |}.
Proof. split; vm_compute; reflexivity. Qed.

(* ================================================================== *)
(** * Part IV: further properties of the code *)
(* ================================================================== *)

(** ** The Parser, path by path *)

Lemma safeParse_is_object (input : JSON) (data : ClaimInput.t) :
  ClaimInputSchema_safeParse input = Some data -> is_object input = true.
Proof. destruct input; simpl; try discriminate; reflexivity. Qed.

Lemma accepted_iff (input : JSON) (data : ClaimInput.t) :
  accepted input = Some data <-> ClaimInputSchema_safeParse input = Some data.
Proof.
  unfold accepted. split.
  - destruct (is_object input); [auto | discriminate].
  - intros H. now rewrite (safeParse_is_object _ _ H).
Qed.

Lemma safeParse_dob (props : list (string * JSON)) (c : ClaimInput.t) :
  ClaimInputSchema_safeParse (JObj props) = Some c ->
  lookup "dob" props = Some (JStr (ClaimInput.dob c)).
Proof.
  unfold ClaimInputSchema_safeParse.
  destruct (zod_string (lookup "patientName" props)); [|discriminate].
  destruct (lookup "dob" props) as [[| | |d| |]|]; simpl; try discriminate.
  destruct (zod_optional_nullable_string (lookup "insuranceId" props)); [|discriminate].
  destruct (zod_string (lookup "procedure" props)); [|discriminate].
  destruct (zod_optional_nullable_string (lookup "cptCode" props)); [|discriminate].
  intros E. inversion E. reflexivity.
Qed.

Lemma safeParse_no_dob (props : list (string * JSON)) :
  (forall s, lookup "dob" props <> Some (JStr s)) ->
  ClaimInputSchema_safeParse (JObj props) = None.
Proof.
  intros H. destruct (ClaimInputSchema_safeParse (JObj props)) as [c|] eqn:E;
    [|reflexivity].
  apply safeParse_dob in E. now apply H in E.
Qed.

(** Putting a text in front under [dob] changes that field only. *)
Lemma safeParse_with_dob (props : list (string * JSON)) (d : string) :
  (exists s, lookup "dob" props = Some (JStr s)) ->
  ClaimInputSchema_safeParse (JObj (("dob", JStr d) :: props))
  = option_map (fun c => with_dob c d) (ClaimInputSchema_safeParse (JObj props)).
Proof.
  intros [s E]. unfold ClaimInputSchema_safeParse. simpl. rewrite E. simpl.
  destruct (zod_string (lookup "patientName" props)); [|reflexivity].
  destruct (zod_optional_nullable_string (lookup "insuranceId" props)); [|reflexivity].
  destruct (zod_string (lookup "procedure" props)); [|reflexivity].
  destruct (zod_optional_nullable_string (lookup "cptCode" props)); reflexivity.
Qed.

Lemma parserAgent_json_run input data env st :
  accepted input = Some data ->
  parserAgent input env st
  = (Ok (normalized_claim data),
     logged env "ParserAgent" "parse-json" "Parsed JSON claim."
       (DataClaim (normalized_claim data)) st).
Proof.
  unfold accepted. intros H. unfold parserAgent. rewrite H. reflexivity.
Qed.

Lemma parserAgent_text_run input env st :
  accepted input = None ->
  match gemini env (asked st) (ParsePrompt input) with
  | Threw e => parserAgent input env st = (Throw e, asked_once st)
  | Returned j =>
      match ClaimInputSchema_safeParse j with
      | Some data =>
          parserAgent input env st
          = (Ok (normalized_claim data),
             logged env "ParserAgent" "parse-text" "Parsed text claim."
               (DataClaim (normalized_claim data)) (asked_once st))
      | None =>
          exists e,
            parserAgent input env st = (Throw e, asked_once st) /\
            (is_named "TypeError" e \/ is_named "ZodError" e) /\
            (is_named "ZodError" e <->
             exists props s, j = JObj props /\ lookup "dob" props = Some (JStr s))
      end
  end.
Proof.
  unfold accepted. intros H.
  assert (Z : forall m, ~ is_named "ZodError" (TypeError m)).
  { intros m [m' E]. discriminate E. }
  destruct (gemini env (asked st) (ParsePrompt input)) as [j|e] eqn:G.
  2:{ unfold parserAgent. rewrite H. unfold bind at 1. unfold askGeminiJSON.
      rewrite G. reflexivity. }
  assert (R : parserAgent input env st
              = (d <- get_prop j "dob" ;;
                 match d with
                 | Some (JStr s) =>
                     match ClaimInputSchema_safeParse
                             (JObj (("dob", JStr (normalizeDOB s)) :: spread j)) with
                     | Some result =>
                         pushLog "ParserAgent" "parse-text" "Parsed text claim."
                           (DataClaim result) ;;;
                         ret result
                     | None => throw (ZodError "ClaimInput")
                     end
                 | Some JNull =>
                     throw (TypeError "Cannot read properties of null (reading 'match')")
                 | Some _ => throw (TypeError "dob.match is not a function")
                 | None =>
                     throw (TypeError "Cannot read properties of undefined (reading 'match')")
                 end) env (asked_once st)).
  { unfold parserAgent. rewrite H. unfold bind at 1. unfold askGeminiJSON.
    rewrite G. reflexivity. }
  destruct j as [| b | n | s | items | props];
    try (simpl; eexists; split; [rewrite R; reflexivity|]; split;
         [left; eexists; reflexivity|];
         split; [intros C; now apply Z in C | intros (? & ? & C & _); discriminate C]).
  unfold bind in R. simpl get_prop in R. unfold ret in R. cbv beta iota in R.
  destruct (lookup "dob" props) as [[| b | n | s | items | props']|] eqn:D;
    try (rewrite safeParse_no_dob by (intros ? C; rewrite D in C; discriminate C);
         eexists; split; [rewrite R; reflexivity|]; split;
         [left; eexists; reflexivity|];
         split; [intros C; now apply Z in C
                | intros (? & ? & C & C'); inversion C; subst; rewrite D in C';
                  discriminate C']).
  change (spread (JObj props)) with props in R.
  rewrite safeParse_with_dob in R by eauto.
  destruct (ClaimInputSchema_safeParse (JObj props)) as [data|] eqn:P;
    rewrite ?P in R; simpl option_map in R; cbv beta iota in R.
  - pose proof (safeParse_dob _ _ P) as D'. rewrite D in D'. inversion D'; subst s.
    rewrite R. reflexivity.
  - eexists. split; [rewrite R; reflexivity|]. split; [right; eexists; reflexivity|].
    split; [eauto | intros _; eexists; reflexivity].
Qed.

Lemma normalized_claim_dob (data : ClaimInput.t) :
  normalizeDOB (ClaimInput.dob (normalized_claim data))
  = ClaimInput.dob (normalized_claim data).
Proof. unfold normalized_claim, with_dob. simpl. apply normalizeDOB_idempotent. Qed.

(** How the Parser can have returned. *)
Lemma parserAgent_ok input env st c st' :
  parserAgent input env st = (Ok c, st') ->
  exists data,
    c = normalized_claim data /\
    ((accepted input = Some data /\
      st' = logged env "ParserAgent" "parse-json" "Parsed JSON claim." (DataClaim c) st)
     \/ (accepted input = None /\
         (exists j, gemini env (asked st) (ParsePrompt input) = Returned j /\
                    ClaimInputSchema_safeParse j = Some data) /\
         st' = logged env "ParserAgent" "parse-text" "Parsed text claim." (DataClaim c)
                 (asked_once st))).
Proof.
  intros H. destruct (accepted input) as [data|] eqn:A.
  - rewrite (parserAgent_json_run _ _ _ _ A) in H. inversion H; subst.
    exists data. split; [reflexivity|]. left. auto.
  - pose proof (parserAgent_text_run input env st A) as T.
    destruct (gemini env (asked st) (ParsePrompt input)) as [j|e].
    + destruct (ClaimInputSchema_safeParse j) as [data|] eqn:P.
      * rewrite T in H. inversion H; subst. exists data. split; [reflexivity|].
        right. split; [reflexivity|]. split; [eauto | reflexivity].
      * destruct T as (e & T & _). rewrite T in H. discriminate H.
    + rewrite T in H. discriminate H.
Qed.

(** The trace of a run that goes through: the four entries the later
    steps add to the Parser's, the calls made and the clocks read. *)
Lemma runWorkflow_trace (unicode : string -> string) input env st claim st1 :
  parserAgent input env (started st) = (Ok claim, st1) ->
  names_inherited (ClaimInput.cptCode claim) = false ->
  forallb converts (verifier_notes env st1 claim) = true ->
  exists r st',
    runWorkflow unicode input env st = (Ok r, st') /\
    map (fun e => (AgentLog.agent e, AgentLog.step e, AgentLog.ts e)) (logs r)
    = (map (fun e => (AgentLog.agent e, AgentLog.step e, AgentLog.ts e)) (log_array st1)
       ++ [ ("VerifierAgent", "validate", date_now env (date_reads st1));
            ("CoderAgent", "code-validate", date_now env (S (date_reads st1)));
            ("SubmissionAgent", "draft", date_now env (S (S (date_reads st1))));
            ("ReviewerAgent", "review", date_now env (S (S (S (date_reads st1))))) ])%list /\
    log_array st' = logs r /\
    asked st' = 4 + asked st1 /\
    date_reads st' = 4 + date_reads st1 /\
    perf_reads st' = 2 + perf_reads st /\
    valid (coder r)
    = validates (JS.trim (JS.toLowerCase unicode (ClaimInput.procedure claim)))
        (ClaimInput.cptCode claim) /\
    timeSavedPercent (metrics r)
    = Math_round ((1 - inject_Z (automatedSeconds (metrics r)) / inject_Z 72) * 100) /\
    List.length (SubmissionDraft.notes (submission r)) = List.length (issues (verified r)) /\
    normalized (verified r) = claim.
Proof.
  intros Hp NI Cv. unfold verifier_notes in *.
  pose proof (parserAgent_keeps_perf _ _ _ _ _ Hp) as Hperf. simpl in Hperf.
  unfold runWorkflow.
  erewrite bind_ok by reflexivity.
  erewrite bind_ok by reflexivity.
  erewrite bind_ok by exact Hp.
  erewrite bind_ok by exact (verifierAgent_run _ _ _).
  erewrite bind_ok by exact (coderAgent_run _ _ _ _ NI).
  erewrite bind_ok
    by (cbn [issues suggestedCpt];
        rewrite submissionAgent_run, notes_convert, Cv; reflexivity).
  erewrite bind_ok by exact (reviewerAgent_run _ _ _).
  erewrite bind_ok by reflexivity.
  match goal with
  | |- context [bind (humanExplain ?a ?b ?c ?d ?e ?f ?g ?h) _ env ?s] =>
      destruct (humanExplain_total a b c d e f g h env s) as [text Ht];
      [cbn [issues]; rewrite notes_convert; exact Cv|]
  end.
  erewrite bind_ok by exact Ht.
  erewrite bind_ok by reflexivity.
  unfold ret. eexists. eexists. split; [reflexivity|].
  simpl. rewrite Hperf, !map_app. simpl.
  rewrite <- !app_assoc. simpl.
  repeat split; try reflexivity.
  now rewrite !length_app, !length_map.
Qed.

(** ** [normalizeDOB], once more *)

Lemma list_ascii_of_append (a b : string) :
  list_ascii_of_string (a ++ b)
  = (list_ascii_of_string a ++ list_ascii_of_string b)%list.
Proof. induction a as [|x a IH]; simpl; [reflexivity | now rewrite IH]. Qed.

Lemma all_digits_In (a : string) (c : ascii) :
  all_digits a = true -> In c (list_ascii_of_string a) -> JS.is_digit c = true.
Proof.
  induction a as [|x a IH]; simpl; [tauto|].
  intros D [-> | H]; apply andb_true_iff in D; destruct D as [Dx Da]; auto.
Qed.

(** A text that either pattern accepts is made of digits, slashes and
    hyphens, and has six to ten characters. *)
Lemma recognized_text (s : string) :
  is_iso_form s = true \/ is_some (mdy_parts_any s) = true ->
  (forall c, In c (list_ascii_of_string s) -> JS.is_digit c = true \/ is_sep c = true)
  /\ 6 <= String.length s <= 10.
Proof.
  assert (G : forall ok lo1 hi1 lo2 hi2 lo3 hi3 a b c,
             (forall c1 c2, ok c1 c2 = true -> is_sep c1 = true /\ is_sep c2 = true) ->
             date_parts ok lo1 hi1 lo2 hi2 lo3 hi3 s a b c ->
             (forall x, In x (list_ascii_of_string s) ->
                        JS.is_digit x = true \/ is_sep x = true)
             /\ String.length s
                = String.length a + String.length b + String.length c + 2).
  { intros ok lo1 hi1 lo2 hi2 lo3 hi3 a b c Hsep
           (c1 & c2 & -> & Hok & Da & Db & Dc & _).
    destruct (Hsep _ _ Hok) as [S1 S2]. split.
    - intros x. rewrite list_ascii_of_append. simpl.
      rewrite list_ascii_of_append. simpl.
      rewrite in_app_iff. simpl. rewrite in_app_iff. simpl.
      intros [H | [<- | [H | [<- | H]]]];
        [ left; exact (all_digits_In _ _ Da H) | right; exact S1
        | left; exact (all_digits_In _ _ Db H) | right; exact S2
        | left; exact (all_digits_In _ _ Dc H) ].
    - rewrite length_append. simpl. rewrite length_append. simpl. lia. }
  intros [H | H].
  - unfold is_iso_form in H.
    destruct (read_date _ 4 4 2 2 2 2 s) as [[[a b] c]|] eqn:R; [|discriminate].
    apply read_date_sound in R.
    assert (Hsep : forall c1 c2,
               Ascii.eqb c1 "-" && Ascii.eqb c2 "-" = true ->
               is_sep c1 = true /\ is_sep c2 = true).
    { intros c1 c2 E. apply andb_true_iff in E. destruct E as [E1 E2].
      apply Ascii.eqb_eq in E1, E2. subst. split; reflexivity. }
    destruct (G _ _ _ _ _ _ _ a b c Hsep R) as [Hc Hl].
    split; [exact Hc|].
    destruct R as (_ & _ & _ & _ & _ & _ & _ & Wa & Wb & Wc).
    apply within_iff in Wa, Wb, Wc. lia.
  - destruct (mdy_parts_any s) as [[[a b] c]|] eqn:R; [|discriminate].
    apply read_date_sound in R.
    assert (Hsep : forall c1 c2,
               is_sep c1 && is_sep c2 = true -> is_sep c1 = true /\ is_sep c2 = true).
    { intros c1 c2 E. apply andb_true_iff in E. exact E. }
    destruct (G _ _ _ _ _ _ _ a b c Hsep R) as [Hc Hl].
    split; [exact Hc|].
    destruct R as (_ & _ & _ & _ & _ & _ & _ & Wa & Wb & Wc).
    apply within_iff in Wa, Wb, Wc. lia.
Qed.

Lemma normalizeDOB_cases (s : string) :
  (is_iso_form s = true /\ normalizeDOB s = s)
  \/ (is_iso_form s = false /\ is_some (mdy_parts_any s) = true
      /\ is_iso_form (normalizeDOB s) = true)
  \/ (is_iso_form s = false /\ is_some (mdy_parts_any s) = false
      /\ normalizeDOB s = s).
Proof.
  destruct (is_iso_form s) eqn:I.
  - left. split; [reflexivity | now apply normalizeDOB_iso].
  - destruct (mdy_parts_any s) as [[[mm dd] yyyy]|] eqn:P.
    + right. left. repeat split. eapply normalizeDOB_mdy_iso; eauto.
    + right. right. repeat split. now apply normalizeDOB_other.
Qed.

(** X1: normalizing twice is normalizing once, for every text; the result
    is in ISO form exactly when the text was in ISO form or in
    month-day-year form; and a text that [normalizeDOB] changes comes out
    as ten characters in ISO form. *)
Theorem normalizeDOB_settles (s : string) :
  normalizeDOB (normalizeDOB s) = normalizeDOB s /\
  is_iso_form (normalizeDOB s) = is_iso_form s || is_some (mdy_parts_any s) /\
  (normalizeDOB s <> s ->
   is_iso_form (normalizeDOB s) = true /\ String.length (normalizeDOB s) = 10).
Proof.
  split; [apply normalizeDOB_idempotent|].
  destruct (normalizeDOB_cases s) as [(I & E) | [(I & P & O) | (I & P & E)]].
  - rewrite E, I. split; [reflexivity|]. intros C. now elim C.
  - rewrite O, I, P. split; [reflexivity|]. intros _. split; [reflexivity|].
    apply is_iso_form_iff in O.
    destruct O as (y1 & y2 & y3 & y4 & m1 & m2 & d1 & d2 & -> & _). reflexivity.
  - rewrite E, I, P. split; [reflexivity|]. intros C. now elim C.
Qed.

(** X2: a text that holds a character other than a digit, a slash or a
    hyphen, or that is shorter than six or longer than ten characters (the
    empty text among them), is returned unchanged. *)
Theorem normalizeDOB_leaves_other_text (s : string) :
  (exists c, In c (list_ascii_of_string s)
             /\ JS.is_digit c = false /\ is_sep c = false)
  \/ String.length s < 6 \/ 10 < String.length s ->
  normalizeDOB s = s.
Proof.
  intros H.
  destruct (normalizeDOB_cases s) as [(_ & E) | [(I & P & _) | (_ & _ & E)]];
    try exact E.
  exfalso.
  destruct (recognized_text s (or_intror P)) as [Hc Hl].
  destruct H as [(c & Hin & Hd & Hs) | H]; [|lia].
  destruct (Hc c Hin); congruence.
Qed.

Lemma normalizeDOB_leaves_other_text_witness :
  normalizeDOB "Jan 1, 1975" = "Jan 1, 1975" /\ normalizeDOB "" = ""
  /\ normalizeDOB "01/01/19750" = "01/01/19750".
Proof.
  split; [|split].
  - apply normalizeDOB_leaves_other_text. left. exists "J"%char.
    split; [left; reflexivity | split; reflexivity].
  - apply normalizeDOB_leaves_other_text. right. left. simpl. lia.
  - apply normalizeDOB_leaves_other_text. right. right. simpl. lia.
Defined.

(** ** The Parser *)

(** X3: an object that the claim schema accepts is parsed without asking
    the service, whatever the service would reply: the Parser returns its
    fields, with the date of birth normalized (and left alone by a second
    normalization). *)
Theorem parser_accepts_claim_objects (input : JSON) (data : ClaimInput.t) :
  ClaimInputSchema_safeParse input = Some data ->
  forall env st,
  exists c st',
    parserAgent input env st = (Ok c, st') /\
    asked st' = asked st /\
    ClaimInput.patientName c = ClaimInput.patientName data /\
    ClaimInput.insuranceId c = ClaimInput.insuranceId data /\
    ClaimInput.procedure c = ClaimInput.procedure data /\
    ClaimInput.cptCode c = ClaimInput.cptCode data /\
    ClaimInput.dob c = normalizeDOB (ClaimInput.dob data) /\
    normalizeDOB (ClaimInput.dob c) = ClaimInput.dob c.
Proof.
  intros P env st. apply accepted_iff in P.
  rewrite (parserAgent_json_run _ _ _ _ P).
  eexists. eexists. split; [reflexivity|].
  repeat split. apply normalized_claim_dob.
Qed.

Lemma parser_accepts_claim_objects_witness :
  exists c st',
    parserAgent john_doe service_down fresh = (Ok c, st') /\
    asked st' = 0 /\ ClaimInput.dob c = "1975-01-01".
Proof.
  destruct (parser_accepts_claim_objects john_doe
              (ClaimInput.mk "John Doe" "01/01/1975" (Str "") "MRI Knee" (Str "73721"))
              eq_refl service_down fresh)
    as (c & st' & Run & A & _ & _ & _ & _ & D & _).
  exists c, st'. split; [exact Run|]. split; [exact A | exact D].
Defined.

(** X4: for an input that is not an accepted claim object (free text, an
    array, an object with a field missing) the Parser asks the service
    once.  An error of the service is thrown on as it is.  A reply that
    the claim schema accepts gives the claim the Parser would make of that
    reply as an input.  Any other reply makes the Parser throw: a ZodError
    when the reply is an object whose [dob] is a text, a TypeError
    otherwise. *)
Theorem parser_asks_for_other_inputs (input : JSON) (env : Env) (st : State) :
  accepted input = None ->
  asked (snd (parserAgent input env st)) = S (asked st) /\
  (forall e, gemini env (asked st) (ParsePrompt input) = Threw e ->
             fst (parserAgent input env st) = Throw e) /\
  (forall j data,
      gemini env (asked st) (ParsePrompt input) = Returned j ->
      ClaimInputSchema_safeParse j = Some data ->
      fst (parserAgent input env st) = Ok (normalized_claim data) /\
      forall env2 st2, fst (parserAgent j env2 st2) = Ok (normalized_claim data)) /\
  (forall j,
      gemini env (asked st) (ParsePrompt input) = Returned j ->
      ClaimInputSchema_safeParse j = None ->
      exists e,
        fst (parserAgent input env st) = Throw e /\
        (is_named "TypeError" e \/ is_named "ZodError" e) /\
        (is_named "ZodError" e <->
         exists props s, j = JObj props /\ lookup "dob" props = Some (JStr s))).
Proof.
  intros A. pose proof (parserAgent_text_run input env st A) as T.
  destruct (gemini env (asked st) (ParsePrompt input)) as [j|e].
  - destruct (ClaimInputSchema_safeParse j) as [data|] eqn:P.
    + rewrite T. split; [reflexivity|]. split; [discriminate|]. split.
      * intros j' data' E P'. inversion E; subst j'.
        rewrite P in P'. inversion P'; subst data'.
        split; [reflexivity|]. intros env2 st2.
        apply accepted_iff in P. now rewrite (parserAgent_json_run _ _ _ _ P).
      * intros j' E P'. inversion E; subst j'. congruence.
    + destruct T as (e & T & K & Z). rewrite T.
      split; [reflexivity|]. split; [discriminate|]. split.
      * intros j' data' E P'. inversion E; subst j'. congruence.
      * intros j' E _. inversion E; subst j'. exists e. auto.
  - rewrite T. split; [reflexivity|]. split.
    + intros e' E. inversion E. reflexivity.
    + split; intros; discriminate.
Qed.

Lemma parser_asks_for_other_inputs_witness :
  asked (snd (parserAgent (JStr "Patient: John Doe, DOB 01/01/1975")
                service_down fresh)) = 1 /\
  fst (parserAgent (JStr "Patient: John Doe, DOB 01/01/1975") service_down fresh)
  = Throw (JsError "Error" "fetch failed").
Proof.
  destruct (parser_asks_for_other_inputs
              (JStr "Patient: John Doe, DOB 01/01/1975") service_down fresh eq_refl)
    as (A & T & _).
  split; [exact A | apply T; reflexivity].
Defined.

(** X5: whenever the Parser returns a claim, its date of birth is one
    that [normalizeDOB] leaves unchanged, the log has grown by exactly one
    entry of the Parser that carries the claim and the next reading of the
    clock, and the service was asked at most once: not at all for an
    accepted object, once otherwise. *)
Theorem parser_result_is_normalized input env st c st' :
  parserAgent input env st = (Ok c, st') ->
  normalizeDOB (ClaimInput.dob c) = ClaimInput.dob c /\
  (exists step detail,
      log_array st'
      = (log_array st
         ++ [AgentLog.mk "ParserAgent" step detail (DataClaim c)
               (date_now env (date_reads st))])%list) /\
  (accepted input <> None -> asked st' = asked st) /\
  (accepted input = None -> asked st' = S (asked st)).
Proof.
  intros H. destruct (parserAgent_ok _ _ _ _ _ H) as (data & -> & [[A ->] | (A & _ & ->)]).
  - split; [apply normalized_claim_dob|]. split; [eexists; eexists; reflexivity|].
    split; [reflexivity | congruence].
  - split; [apply normalized_claim_dob|]. split; [eexists; eexists; reflexivity|].
    split; [congruence | reflexivity].
Qed.

Lemma parser_result_is_normalized_witness :
  exists c st',
    parserAgent john_doe service_down fresh = (Ok c, st') /\
    normalizeDOB (ClaimInput.dob c) = ClaimInput.dob c /\
    List.length (log_array st') = 1.
Proof.
  destruct (parserAgent john_doe service_down fresh) as [[c|e] st'] eqn:E.
  - exists c, st'. split; [reflexivity|].
    destruct (parser_result_is_normalized _ _ _ _ _ E) as (D & (step & detail & L) & _).
    split; [exact D|]. rewrite L. reflexivity.
  - vm_compute in E. discriminate E.
Defined.

(** ** The claim schema *)

(** X6: a claim written out as JSON and read back through the claim schema
    is the same claim: every [ClaimInput] is accepted as an input, whether
    its optional fields are absent, [null] or texts; the Parser then
    returns it with no call to the service, unchanged when its date of
    birth is already normalized. *)
Theorem claim_round_trip (c : ClaimInput.t) :
  ClaimInputSchema_safeParse (claim_to_json c) = Some c /\
  (forall env st, fst (parserAgent (claim_to_json c) env st) = Ok (normalized_claim c)
                  /\ asked (snd (parserAgent (claim_to_json c) env st)) = asked st) /\
  (normalizeDOB (ClaimInput.dob c) = ClaimInput.dob c -> normalized_claim c = c).
Proof.
  assert (P : ClaimInputSchema_safeParse (claim_to_json c) = Some c).
  { destruct c as [n d i p k]. destruct i, k; reflexivity. }
  split; [exact P|]. split.
  - intros env st. apply accepted_iff in P.
    rewrite (parserAgent_json_run _ _ _ _ P). split; reflexivity.
  - intros E. destruct c. unfold normalized_claim, with_dob. simpl in *. now rewrite E.
Qed.

(** ** The Verifier, both ways *)

Lemma is_error_note (n : JSON) : is_error (note_issue n) = false.
Proof. reflexivity. Qed.

Lemma existsb_is_error_notes (l : list JSON) :
  existsb is_error (map note_issue l) = false.
Proof. induction l as [|n l IH]; simpl; [reflexivity | exact IH]. Qed.

Lemma trim_empty : JS.trim "" = "".
Proof. reflexivity. Qed.

Lemma field_checks_error (claim : ClaimInput.t) :
  existsb is_error (field_checks claim)
  = (falsy (ClaimInput.insuranceId claim) || blank (ClaimInput.insuranceId claim))
    || negb (JS.truthy_string (ClaimInput.patientName claim))
    || negb (JS.truthy_string (ClaimInput.procedure claim)).
Proof.
  unfold field_checks.
  destruct (falsy _ || blank _);
    destruct (negb (JS.truthy_string (ClaimInput.dob claim)));
    destruct (negb (JS.truthy_string (ClaimInput.patientName claim)));
    destruct (negb (JS.truthy_string (ClaimInput.procedure claim))); reflexivity.
Qed.

Lemma empty_iff (s : string) : negb (JS.truthy_string s) = true <-> s = "".
Proof. destruct s; simpl; split; congruence. Qed.

Lemma unusable_iff (i : Optional) :
  falsy i || blank i = true <->
  i = Undefined \/ i = Null \/ exists s, i = Str s /\ JS.trim s = "".
Proof.
  destruct i as [| |s]; simpl.
  - split; auto.
  - split; auto.
  - rewrite orb_true_iff, negb_true_iff, String.eqb_eq. split.
    + intros [H | H]; right; right; exists s; split; auto.
      destruct s; [reflexivity | discriminate].
    + intros [H | [H | (s' & E & T)]]; try discriminate.
      inversion E; subst. auto.
Qed.

Lemma field_checks_error_iff (claim : ClaimInput.t) :
  existsb is_error (field_checks claim) = true <-> misses_a_field claim.
Proof.
  rewrite field_checks_error, !orb_true_iff.
  rewrite <- orb_true_iff, unusable_iff, !empty_iff.
  unfold misses_a_field. tauto.
Qed.

Lemma field_checks_length (claim : ClaimInput.t) :
  List.length (field_checks claim) <= 4.
Proof.
  unfold field_checks.
  repeat match goal with
         | |- context [if ?b then _ else _] => destruct b
         end; simpl; lia.
Qed.

Lemma notes_of_length (reply : Reply) : List.length (notes_of reply) <= 3.
Proof.
  unfold notes_of. destruct reply as [[| | | | |props]|]; try (simpl; lia).
  destruct (lookup "notes" props) as [[| | | |items|]|]; try (simpl; lia).
  rewrite length_firstn. lia.
Qed.

(** X7: the Verifier always returns, asks the service once and hands the
    claim back unchanged.  Its list is the field checks (at most four)
    followed by at most three notes of the service, each an "info" issue on
    the field "general"; so it holds an "error" issue if and only if
    insuranceId is absent, empty or blank, patientName is empty or
    procedure is empty, whatever the service replies. *)
Theorem verifier_errors_iff_missing (claim : ClaimInput.t) (env : Env) (st : State) :
  exists r st',
    verifierAgent claim env st = (Ok r, st') /\
    normalized r = claim /\
    asked st' = S (asked st) /\
    (exists notes,
        issues r = (field_checks claim ++ map note_issue notes)%list /\
        List.length notes <= 3) /\
    List.length (issues r) <= 7 /\
    ((exists i, In i (issues r) /\ VerificationIssue.severity i = error)
     <-> misses_a_field claim).
Proof.
  rewrite verifierAgent_run. eexists. eexists. split; [reflexivity|]. simpl.
  split; [reflexivity|]. split; [reflexivity|].
  pose proof (notes_of_length (gemini env (asked st) (VerifyPrompt claim))) as Ln.
  pose proof (field_checks_length claim) as Lf.
  split; [eexists; split; [reflexivity | exact Ln]|].
  split; [rewrite length_app, length_map; lia|].
  rewrite <- field_checks_error_iff. split.
  - intros (i & Hin & Hi). apply in_app_iff in Hin. destruct Hin as [Hin | Hin].
    + apply existsb_exists. exists i. split; [exact Hin | now apply is_error_iff].
    + apply in_map_iff in Hin. destruct Hin as (n & <- & _). discriminate Hi.
  - intros H. apply existsb_exists in H. destruct H as (i & Hin & Hi).
    exists i. split; [apply in_app_iff; now left | now apply is_error_iff].
Qed.

(** ** The Coder, both ways *)

Lemma lookup_In {V} (k : string) (l : list (string * V)) (v : V) :
  lookup k l = Some v -> In (k, v) l.
Proof.
  induction l as [|[k' v'] l IH]; simpl; [discriminate|].
  destruct (String.eqb_spec k k') as [->|_].
  - intros E. inversion E. now left.
  - intros E. right. auto.
Qed.

Lemma scan_Some (table : list (string * CptEntry)) (proc code : string) :
  scan table proc = Some code ->
  exists v, In (code, v) table /\ matches proc v = true.
Proof.
  unfold scan. destruct (find _ table) as [[code' v]|] eqn:F; [|discriminate].
  simpl. intros E. inversion E; subst. apply find_some in F. exists v. exact F.
Qed.

Lemma ascending_codes_In (kv : string * CptEntry) :
  In kv ascending_codes <-> In kv CPT_REF.
Proof. unfold ascending_codes, CPT_REF. simpl. tauto. Qed.

(** X8: whenever the Coder returns, its suggestion is [null] or a code of
    the table one of whose substrings occurs in the lowercased, trimmed
    procedure text; it is [null] exactly when no entry of the table
    matches that text; and a valid flag means that the supplied code is
    such a code and is the suggestion. *)
Theorem coder_suggests_matching_codes (unicode : string -> string) claim env st r st' :
  coderAgent unicode claim env st = (Ok r, st') ->
  let proc := JS.trim (JS.toLowerCase unicode (ClaimInput.procedure claim)) in
  (forall code, suggestedCpt r = Some code ->
                exists v, In (code, v) CPT_REF /\ matches proc v = true) /\
  (suggestedCpt r = None <->
   forall code v, In (code, v) CPT_REF -> matches proc v = false) /\
  (valid r = true ->
   exists code, ClaimInput.cptCode claim = Str code /\ suggestedCpt r = Some code).
Proof.
  intros Run proc.
  destruct (names_inherited (ClaimInput.cptCode claim)) eqn:NI.
  { rewrite (coderAgent_inherited _ _ _ _ NI) in Run. discriminate Run. }
  rewrite (coderAgent_run _ _ _ _ NI) in Run. inversion Run; subst r st'; clear Run.
  simpl. unfold suggestion. fold proc. rewrite Object_entries_CPT_REF.
  assert (V : validates proc (ClaimInput.cptCode claim) = true ->
              exists code v, ClaimInput.cptCode claim = Str code /\
                             In (code, v) CPT_REF /\ matches proc v = true).
  { unfold validates. destruct (ClaimInput.cptCode claim) as [| |code]; try discriminate.
    destruct (lookup code CPT_REF) as [v|] eqn:L; [|discriminate].
    intros M. exists code, v. split; [reflexivity|]. split; [|exact M].
    now apply lookup_In. }
  destruct (validates proc (ClaimInput.cptCode claim)) eqn:Ev.
  - destruct (V eq_refl) as (code & v & Ec & Hin & M). rewrite Ec. simpl.
    split; [|split].
    + intros code' E. inversion E; subst. exists v. split; [exact Hin | exact M].
    + split; [discriminate|]. intros H. rewrite (H _ _ Hin) in M. discriminate M.
    + intros _. exists code. split; reflexivity.
  - split; [|split].
    + intros code E. apply scan_Some in E. destruct E as (v & Hin & M).
      exists v. split; [now apply ascending_codes_In | exact M].
    + rewrite scan_none. split; intros H code v Hin; apply (H code v);
        now apply ascending_codes_In.
    + discriminate.
Qed.

Lemma coder_suggests_matching_codes_witness :
  exists r st',
    coderAgent no_tables (ClaimInput.mk "Ann Ray" "1990-01-01" (Str "ZX-1") "Brain MRI" (Str "73721"))
      service_down fresh = (Ok r, st') /\
    exists v, In ("70551", v) CPT_REF /\ matches "brain mri" v = true.
Proof.
  destruct (coderAgent no_tables (ClaimInput.mk "Ann Ray" "1990-01-01" (Str "ZX-1") "Brain MRI"
                          (Str "73721")) service_down fresh) as [[r|e] st'] eqn:E.
  - exists r, st'. split; [reflexivity|].
    destruct (coder_suggests_matching_codes _ _ _ _ _ _ E) as (S & _).
    apply S. vm_compute in E. inversion E. reflexivity.
  - vm_compute in E. discriminate E.
Defined.

Lemma names_inherited_iff (o : Optional) :
  names_inherited o = true <-> exists code, o = Str code /\ In code Object_prototype_keys.
Proof.
  unfold names_inherited. destruct o as [| |code].
  - split; [discriminate | intros (c & E & _); discriminate E].
  - split; [discriminate | intros (c & E & _); discriminate E].
  - rewrite existsb_exists. split.
    + intros (k & Hin & E). apply String.eqb_eq in E. subst. eauto.
    + intros (c & E & Hin). inversion E; subst. exists c. split; [exact Hin|].
      apply String.eqb_refl.
Qed.

(** X9: the Coder throws exactly when the supplied code is the name of a
    property that objects inherit (constructor, toString, valueOf,
    hasOwnProperty, __proto__, ...).  It then throws a TypeError before it
    asks the service or writes to the log; for every other claim it
    returns, having asked once and logged once. *)
Theorem coder_throws_on_inherited_names (unicode : string -> string) (claim : ClaimInput.t) (env : Env) (st : State) :
  ((exists e st', coderAgent unicode claim env st = (Throw e, st')) <->
   exists code, ClaimInput.cptCode claim = Str code /\ In code Object_prototype_keys) /\
  (forall e st', coderAgent unicode claim env st = (Throw e, st') ->
                 is_named "TypeError" e /\ st' = st) /\
  (forall r st', coderAgent unicode claim env st = (Ok r, st') ->
                 asked st' = S (asked st) /\
                 List.length (log_array st') = S (List.length (log_array st))).
Proof.
  rewrite <- names_inherited_iff.
  destruct (names_inherited (ClaimInput.cptCode claim)) eqn:NI.
  - rewrite (coderAgent_inherited _ _ _ _ NI). split; [|split].
    + split; [reflexivity | eauto].
    + intros e st' E. inversion E; subst. split; [eexists; reflexivity | reflexivity].
    + intros r st' E. discriminate E.
  - rewrite (coderAgent_run _ _ _ _ NI). split; [|split].
    + split; [intros (e & st' & E); discriminate E | discriminate].
    + intros e st' E. discriminate E.
    + intros r st' E. inversion E; subst. simpl.
      split; [reflexivity|]. rewrite length_app. simpl. lia.
Qed.

(** ** A whole run *)

(** Everything the two run lemmas say of a run that has returned. *)
Ltac run_facts H :=
  let claim := fresh "claim" in
  let st1 := fresh "st1" in
  let ra := fresh "ra" in
  let sta := fresh "sta" in
  let rb := fresh "rb" in
  let stb := fresh "stb" in
  let Ha := fresh "Ha" in
  let Hb := fresh "Hb" in
  match type of H with
  | runWorkflow ?u _ _ _ = _ =>
      destruct (runWorkflow_returns _ _ _ _ _ _ H) as (claim & st1 & Hp & NI & Cv);
      destruct (runWorkflow_after_parser u _ _ _ _ _ Hp NI Cv)
        as (ra & sta & Ha & Fparsed & Fissues & Fsugg & Fjust & Fsub & Frisk & Frat
            & Fauto & Fbase & Frate);
      destruct (runWorkflow_trace u _ _ _ _ _ Hp NI Cv)
        as (rb & stb & Hb & Tlog & Tarr & Tasked & Tdate & Tperf & Tvalid & Tsaved
            & Tnotes & Tnorm);
      rewrite H in Ha, Hb; inversion Ha; inversion Hb; subst ra sta rb stb;
      clear Ha Hb
  end.

Lemma status_of_draft claim found suggested :
  SubmissionDraft.status (draft_of claim found suggested) = BLOCKED
  <-> existsb is_error found = true.
Proof.
  unfold draft_of. simpl. destruct (existsb is_error found); split; congruence.
Qed.

Lemma run_issues_error claim (notes : list JSON) :
  existsb is_error (field_checks claim ++ map note_issue notes)%list = true
  <-> misses_a_field claim.
Proof.
  rewrite existsb_app, existsb_is_error_notes, orb_false_r.
  apply field_checks_error_iff.
Qed.

(** X10: in every run that returns, the decisions hang together and on
    the parsed claim alone.  The submission is BLOCKED exactly when the
    parsed claim misses insuranceId (absent, empty or blank), patientName
    or procedure; the denial risk is "high" exactly when it is BLOCKED and
    "medium" exactly when it is READY with no billing code at all; the
    clean-claim rate is 82 exactly when it is BLOCKED; the draft carries
    the Coder's suggestion, or the claim's own code when there is none;
    and it has one note per issue. *)
Theorem run_decisions_hang_together (unicode : string -> string) input env st r st' :
  runWorkflow unicode input env st = (Ok r, st') ->
  (SubmissionDraft.status (submission r) = BLOCKED <-> misses_a_field (parsed r)) /\
  (denialRisk (reviewer r) = high <-> SubmissionDraft.status (submission r) = BLOCKED) /\
  (denialRisk (reviewer r) = medium <->
   SubmissionDraft.status (submission r) = READY
   /\ missing (SubmissionDraft.cptCode (submission r))) /\
  (cleanClaimRate (metrics r) = 82%Z <->
   SubmissionDraft.status (submission r) = BLOCKED) /\
  SubmissionDraft.cptCode (submission r)
  = match suggestedCpt (coder r) with
    | Some code => Some code
    | None => nullish_to_null (ClaimInput.cptCode (parsed r))
    end /\
  List.length (SubmissionDraft.notes (submission r)) = List.length (issues (verified r)) /\
  normalized (verified r) = parsed r.
Proof.
  intros H. run_facts H.
  assert (B : SubmissionDraft.status (submission r) = BLOCKED <-> misses_a_field claim).
  { rewrite Fsub, status_of_draft, Fissues. apply run_issues_error. }
  rewrite Fparsed. split; [exact B|].
  assert (I : SubmissionDraft.status (submission r) = READY ->
              absent (SubmissionDraft.insuranceId (submission r)) = false).
  { intros R. rewrite Fsub. unfold draft_of. simpl.
    destruct (absent (nullish_to_null (ClaimInput.insuranceId claim))) eqn:A;
      [|reflexivity].
    exfalso. assert (M : misses_a_field claim).
    { unfold misses_a_field. destruct (ClaimInput.insuranceId claim) as [| |s]; auto.
      simpl in A. destruct s; [|discriminate A].
      right. right. left. exists "". auto. }
    apply B in M. congruence. }
  assert (C : SubmissionDraft.cptCode (submission r)
              = match suggestedCpt (coder r) with
                | Some code => Some code
                | None => nullish_to_null (ClaimInput.cptCode claim)
                end).
  { rewrite Fsub. unfold draft_of. simpl. now rewrite Fsugg. }
  assert (A : absent (SubmissionDraft.cptCode (submission r)) = true
              <-> missing (SubmissionDraft.cptCode (submission r)))
    by apply absent_iff.
  rewrite Frisk, Frate. unfold risk_of.
  destruct (SubmissionDraft.status (submission r)) eqn:S.
  - rewrite (I eq_refl). simpl.
    destruct (absent (SubmissionDraft.cptCode (submission r))).
    + split; [split; discriminate|].
      split; [split; [intros _; split; [reflexivity | now apply A] | reflexivity]|].
      split; [split; discriminate|]. auto.
    + split; [split; discriminate|].
      split; [split; [discriminate | intros [_ M]; apply A in M; discriminate M]|].
      split; [split; discriminate|]. auto.
  - split; [split; reflexivity|].
    split; [split; [discriminate | intros [D _]; discriminate D]|].
    split; [split; reflexivity|]. auto.
Qed.

Lemma run_decisions_hang_together_witness :
  exists r st',
    runWorkflow no_tables john_doe service_down fresh = (Ok r, st') /\
    SubmissionDraft.status (submission r) = BLOCKED /\
    denialRisk (reviewer r) = high /\
    cleanClaimRate (metrics r) = 82%Z.
Proof.
  destruct (runWorkflow no_tables john_doe service_down fresh) as [[r|e] st'] eqn:E.
  - exists r, st'. split; [reflexivity|].
    destruct (run_decisions_hang_together _ _ _ _ _ _ E) as (B & Hi & _ & Rate & _).
    assert (S : SubmissionDraft.status (submission r) = BLOCKED).
    { apply B. vm_compute in E. inversion E. unfold misses_a_field. simpl.
      right. right. left. exists "". auto. }
    split; [exact S|]. split; [now apply Hi | now apply Rate].
  - vm_compute in E. discriminate E.
Defined.

Lemma parserAgent_throws input env st e st' :
  parserAgent input env st = (Throw e, st') ->
  accepted input = None /\ st' = asked_once st.
Proof.
  intros H. destruct (accepted input) as [data|] eqn:A.
  - rewrite (parserAgent_json_run _ _ _ _ A) in H. discriminate H.
  - split; [reflexivity|].
    pose proof (parserAgent_text_run input env st A) as T.
    destruct (gemini env (asked st) (ParsePrompt input)) as [j|e'].
    + destruct (ClaimInputSchema_safeParse j).
      * rewrite T in H. discriminate H.
      * destruct T as (e' & T & _). rewrite T in H. now inversion H.
    + rewrite T in H. now inversion H.
Qed.

Lemma map_triple (l : list AgentLog.t) :
  map AgentLog.agent l
  = map (fun t => fst (fst t))
      (map (fun e => (AgentLog.agent e, AgentLog.step e, AgentLog.ts e)) l)
  /\ map AgentLog.step l
     = map (fun t => snd (fst t))
         (map (fun e => (AgentLog.agent e, AgentLog.step e, AgentLog.ts e)) l)
  /\ map AgentLog.ts l
     = map (fun t => snd t)
         (map (fun e => (AgentLog.agent e, AgentLog.step e, AgentLog.ts e)) l).
Proof. rewrite !map_map. simpl. repeat split; reflexivity. Qed.

(** X11: the log of every run that returns has exactly five entries, one
    per step and in the order of the steps, whatever the log held before;
    the first names the path the Parser took; their time stamps are five
    successive readings of the clock, so they never decrease when the
    clock does not. *)
Theorem run_log_has_five_entries (unicode : string -> string) input env st r st' :
  runWorkflow unicode input env st = (Ok r, st') ->
  map AgentLog.agent (logs r)
  = ["ParserAgent"; "VerifierAgent"; "CoderAgent"; "SubmissionAgent"; "ReviewerAgent"] /\
  map AgentLog.step (logs r)
  = [ match accepted input with Some _ => "parse-json" | None => "parse-text" end;
      "validate"; "code-validate"; "draft"; "review" ] /\
  map AgentLog.ts (logs r)
  = map (fun i => date_now env (i + date_reads st)) [0; 1; 2; 3; 4] /\
  (clock_is_monotone env -> nondecreasing (map AgentLog.ts (logs r))) /\
  log_array st' = logs r.
Proof.
  intros H. run_facts H.
  assert (L : map (fun e => (AgentLog.agent e, AgentLog.step e, AgentLog.ts e)) (logs r)
              = [ ("ParserAgent",
                   match accepted input with Some _ => "parse-json" | None => "parse-text" end,
                   date_now env (date_reads st));
                  ("VerifierAgent", "validate", date_now env (1 + date_reads st));
                  ("CoderAgent", "code-validate", date_now env (2 + date_reads st));
                  ("SubmissionAgent", "draft", date_now env (3 + date_reads st));
                  ("ReviewerAgent", "review", date_now env (4 + date_reads st)) ]).
  { rewrite Tlog.
    destruct (parserAgent_ok _ _ _ _ _ Hp) as (data & _ & [[A ->] | (A & _ & ->)]);
      rewrite A; reflexivity. }
  destruct (map_triple (logs r)) as (Ea & Es & Et).
  rewrite Ea, Es, Et, L. cbn [map fst snd nondecreasing].
  split; [reflexivity|]. split; [reflexivity|]. split; [reflexivity|].
  split; [|exact Tarr].
  intros M. repeat split; apply M.
Qed.

Lemma run_log_has_five_entries_witness :
  exists r st',
    runWorkflow no_tables john_doe service_down fresh = (Ok r, st') /\
    List.length (logs r) = 5.
Proof.
  destruct (runWorkflow no_tables john_doe service_down fresh) as [[r|e] st'] eqn:E.
  - exists r, st'. split; [reflexivity|].
    destruct (run_log_has_five_entries _ _ _ _ _ _ E) as (A & _).
    rewrite <- (length_map AgentLog.agent), A. reflexivity.
  - vm_compute in E. discriminate E.
Defined.

(** X12: no call is made twice.  A run that returns has asked the service
    exactly four times when the input was an accepted claim object and
    exactly five times otherwise, has read [Date.now] five times and the
    performance clock twice; a run that throws has asked once, twice or
    three times (three times when the input was not an accepted claim
    object and a note of the service does not convert to a text), never
    more and never not at all. *)
Theorem run_asks_each_question_once (unicode : string -> string) input env st o st' :
  runWorkflow unicode input env st = (o, st') ->
  match o with
  | Ok _ =>
      asked st' = match accepted input with Some _ => 4 | None => 5 end + asked st /\
      date_reads st' = 5 + date_reads st /\
      perf_reads st' = 2 + perf_reads st
  | Throw _ =>
      asked st' = 1 + asked st \/ asked st' = 2 + asked st \/ asked st' = 3 + asked st
  end.
Proof.
  intros H. destruct o as [r|e].
  - run_facts H.
    rewrite Tasked, Tdate, Tperf.
    destruct (parserAgent_ok _ _ _ _ _ Hp) as (data & _ & [[A ->] | (A & _ & ->)]);
      rewrite A; simpl; repeat split; lia.
  - destruct (parserAgent input env (started st)) as [[claim|e'] st1] eqn:Hp.
    + assert (A1 : asked st1 = asked st \/ asked st1 = S (asked st)).
      { destruct (parserAgent_ok _ _ _ _ _ Hp) as (data & _ & [[_ ->] | (_ & _ & ->)]);
          simpl; auto. }
      destruct (names_inherited (ClaimInput.cptCode claim)) eqn:NI.
      * destruct (runWorkflow_coder_throws unicode _ _ _ _ _ Hp NI) as (st'' & H' & A).
        rewrite H in H'. inversion H'; subst st''. rewrite A. lia.
      * destruct (forallb converts (verifier_notes env st1 claim)) eqn:Cv.
        -- destruct (runWorkflow_after_parser unicode _ _ _ _ _ Hp NI Cv)
             as (r & st'' & H' & _).
           rewrite H in H'. discriminate H'.
        -- destruct (runWorkflow_submission_throws unicode _ _ _ _ _ Hp NI Cv)
             as (st'' & H' & A).
           rewrite H in H'. inversion H'; subst st''. rewrite A. lia.
    + destruct (parserAgent_throws _ _ _ _ _ Hp) as [_ ->].
      rewrite (runWorkflow_parser_throws unicode _ _ _ _ _ Hp) in H.
      inversion H. simpl. auto.
Qed.

Lemma run_asks_each_question_once_witness :
  asked (snd (runWorkflow no_tables john_doe service_down fresh)) = 4 /\
  asked (snd (runWorkflow no_tables (JStr "Patient: John Doe") service_down fresh)) = 1.
Proof.
  split.
  - exact (proj1 (run_asks_each_question_once no_tables john_doe service_down fresh
                    (fst (runWorkflow no_tables john_doe service_down fresh))
                    (snd (runWorkflow no_tables john_doe service_down fresh))
                    (surjective_pairing _))).
  - destruct (run_asks_each_question_once no_tables (JStr "Patient: John Doe")
                service_down fresh _ _ (surjective_pairing _)) as [A | [A | A]];
      [exact A | discriminate A | discriminate A].
Defined.

(** [Math.round ((1 - a / 72) * 100)], in whole numbers. *)
Lemma Math_round_saved (a : Z) :
  Math_round ((1 - inject_Z a / inject_Z 72) * 100) = ((14472 - 200 * a) / 144)%Z.
Proof.
  unfold Math_round, Qfloor, Qminus, Qdiv, Qmult, Qplus, Qopp, Qinv, inject_Z.
  cbn [Qnum Qden].
  change ((((1 * 72 + - (a * 1) * 1) * 100 * 2 + 1 * 72) / 144)%Z
          = ((14472 - 200 * a) / 144)%Z).
  f_equal. lia.
Qed.

(** X13: in every run that returns, automatedSeconds is at least 1 and
    timeSavedPercent is floor((14472 - 200 * automatedSeconds) / 144): it
    is 99 at most, never 100, and it is negative as soon as the run took
    more than 72 seconds. *)
Theorem run_time_saved (unicode : string -> string) input env st r st' :
  runWorkflow unicode input env st = (Ok r, st') ->
  (1 <= automatedSeconds (metrics r))%Z /\
  timeSavedPercent (metrics r)
  = ((14472 - 200 * automatedSeconds (metrics r)) / 144)%Z /\
  (timeSavedPercent (metrics r) <= 99)%Z /\
  (0 <= timeSavedPercent (metrics r) <-> automatedSeconds (metrics r) <= 72)%Z.
Proof.
  intros H. run_facts H.
  rewrite Math_round_saved in Tsaved.
  assert (A : (1 <= automatedSeconds (metrics r))%Z) by (rewrite Fauto; lia).
  split; [exact A|]. split; [exact Tsaved|].
  rewrite Tsaved. clear - A. split.
  - Z.div_mod_to_equations. lia.
  - split; intros B; Z.div_mod_to_equations; lia.
Qed.

Lemma run_time_saved_witness :
  exists r st',
    runWorkflow no_tables john_doe a_second_and_a_half fresh = (Ok r, st') /\
    timeSavedPercent (metrics r) = 97%Z.
Proof.
  destruct (runWorkflow no_tables john_doe a_second_and_a_half fresh) as [[r|e] st'] eqn:E.
  - exists r, st'. split; [reflexivity|].
    destruct (run_time_saved _ _ _ _ _ _ E) as (_ & T & _).
    rewrite T. vm_compute in E. inversion E. reflexivity.
  - vm_compute in E. discriminate E.
Defined.

Lemma without_info_run claim (notes : list JSON) :
  without_info (field_checks claim ++ map note_issue notes)%list = field_checks claim.
Proof.
  unfold without_info. rewrite filter_app.
  assert (N : filter (fun i => negb (Severity_eqb (VerificationIssue.severity i) info))
                (map note_issue notes) = []).
  { induction notes as [|n l IH]; simpl; [reflexivity | exact IH]. }
  rewrite N, app_nil_r.
  unfold field_checks.
  repeat match goal with
         | |- context [if ?b then _ else _] => destruct b
         end; reflexivity.
Qed.

(** What a run that has returned decided, read off its parsed claim. *)
Lemma run_decided (unicode : string -> string) input env st r st' :
  runWorkflow unicode input env st = (Ok r, st') ->
  let c := parsed r in
  let d := draft_of c (field_checks c) (suggestion unicode c) in
  suggestedCpt (coder r) = suggestion unicode c /\
  valid (coder r)
  = validates (JS.trim (JS.toLowerCase unicode (ClaimInput.procedure c))) (ClaimInput.cptCode c) /\
  SubmissionDraft.status (submission r) = SubmissionDraft.status d /\
  SubmissionDraft.insuranceId (submission r) = SubmissionDraft.insuranceId d /\
  SubmissionDraft.cptCode (submission r) = SubmissionDraft.cptCode d /\
  denialRisk (reviewer r) = risk_of d /\
  cleanClaimRate (metrics r)
  = match SubmissionDraft.status d with READY => 98%Z | BLOCKED => 82%Z end /\
  without_info (issues (verified r)) = field_checks c.
Proof.
  intros H c d. run_facts H. subst c d. rewrite Fparsed.
  assert (S : SubmissionDraft.status (submission r)
              = SubmissionDraft.status
                  (draft_of claim (field_checks claim) (suggestion unicode claim))).
  { rewrite Fsub, Fissues. unfold draft_of. simpl.
    now rewrite existsb_app, existsb_is_error_notes, orb_false_r. }
  assert (I : SubmissionDraft.insuranceId (submission r)
              = SubmissionDraft.insuranceId
                  (draft_of claim (field_checks claim) (suggestion unicode claim)))
    by (rewrite Fsub; reflexivity).
  assert (C : SubmissionDraft.cptCode (submission r)
              = SubmissionDraft.cptCode
                  (draft_of claim (field_checks claim) (suggestion unicode claim)))
    by (rewrite Fsub; reflexivity).
  split; [exact Fsugg|]. split; [exact Tvalid|].
  split; [exact S|]. split; [exact I|]. split; [exact C|].
  split; [rewrite Frisk; unfold risk_of; now rewrite S, I, C|].
  split; [rewrite Frate; now rewrite S|].
  rewrite Fissues. apply without_info_run.
Qed.

(** X14: no reply of the service changes a decision.  Two runs that return
    with the same parsed claim (two runs on the same accepted claim object
    always do, whatever the two environments) agree on the suggested code
    and the valid flag, on the status, the insuranceId and the code of the
    draft, on the denial risk, on the clean-claim rate and on every issue
    that is not an "info" note. *)
Theorem service_cannot_change_decisions (unicode : string -> string)
    input1 env1 st1 r1 st1' input2 env2 st2 r2 st2' :
  runWorkflow unicode input1 env1 st1 = (Ok r1, st1') ->
  runWorkflow unicode input2 env2 st2 = (Ok r2, st2') ->
  (forall data, accepted input1 = Some data -> parsed r1 = normalized_claim data) /\
  (parsed r1 = parsed r2 ->
   suggestedCpt (coder r1) = suggestedCpt (coder r2) /\
   valid (coder r1) = valid (coder r2) /\
   SubmissionDraft.status (submission r1) = SubmissionDraft.status (submission r2) /\
   SubmissionDraft.insuranceId (submission r1)
   = SubmissionDraft.insuranceId (submission r2) /\
   SubmissionDraft.cptCode (submission r1) = SubmissionDraft.cptCode (submission r2) /\
   denialRisk (reviewer r1) = denialRisk (reviewer r2) /\
   cleanClaimRate (metrics r1) = cleanClaimRate (metrics r2) /\
   without_info (issues (verified r1)) = without_info (issues (verified r2))).
Proof.
  intros H1 H2. split.
  - intros data A.
    destruct (runWorkflow_returns _ _ _ _ _ _ H1) as (claim & s1 & Hp & NI & Cv).
    destruct (runWorkflow_after_parser unicode _ _ _ _ _ Hp NI Cv) as (r & s & H & P & _).
    rewrite H1 in H. inversion H; subst r s. rewrite P.
    rewrite (parserAgent_json_run _ _ _ _ A) in Hp. now inversion Hp.
  - intros E.
    destruct (run_decided _ _ _ _ _ _ H1) as (A1 & B1 & C1 & D1 & E1 & F1 & G1 & I1).
    destruct (run_decided _ _ _ _ _ _ H2) as (A2 & B2 & C2 & D2 & E2 & F2 & G2 & I2).
    rewrite A1, A2, B1, B2, C1, C2, D1, D2, E1, E2, F1, F2, G1, G2, I1, I2, E.
    repeat split; reflexivity.
Qed.

Lemma service_cannot_change_decisions_witness :
  exists r1 st1' r2 st2',
    runWorkflow no_tables john_doe service_down fresh = (Ok r1, st1') /\
    runWorkflow no_tables john_doe numeric_notes fresh = (Ok r2, st2') /\
    issues (verified r1) <> issues (verified r2) /\
    SubmissionDraft.status (submission r1) = SubmissionDraft.status (submission r2) /\
    denialRisk (reviewer r1) = denialRisk (reviewer r2).
Proof.
  destruct (runWorkflow no_tables john_doe service_down fresh) as [[r1|e] st1'] eqn:E1;
    [|vm_compute in E1; discriminate E1].
  destruct (runWorkflow no_tables john_doe numeric_notes fresh) as [[r2|e] st2'] eqn:E2;
    [|vm_compute in E2; discriminate E2].
  exists r1, st1', r2, st2'. split; [reflexivity|]. split; [reflexivity|].
  destruct (service_cannot_change_decisions _ _ _ _ _ _ _ _ _ _ _ E1 E2) as (P & D).
  assert (E : parsed r1 = parsed r2).
  { rewrite (P _ eq_refl).
    destruct (service_cannot_change_decisions _ _ _ _ _ _ _ _ _ _ _ E2 E1) as (P' & _).
    now rewrite (P' _ eq_refl). }
  destruct (D E) as (_ & _ & S & _ & _ & R & _).
  split; [|split; [exact S | exact R]].
  vm_compute in E1, E2. inversion E1. inversion E2. simpl. discriminate.
Defined.

(** ** The recap *)

Lemma recap_block (prompt : Prompt) (fallback : string) env st :
  try_catch
    (j <- askGeminiJSON prompt ;;
     if truthy j then
       t <- get_prop j "text" ;;
       ret (match t with Some (JStr s) => JS.trim s | _ => fallback end)
     else ret fallback)
    (fun _ => ret fallback) env st
  = (Ok match offered "text" (gemini env (asked st) prompt) with
        | Some t => JS.trim t
        | None => fallback
        end,
     asked_once st).
Proof.
  unfold try_catch, bind, askGeminiJSON, offered.
  destruct (gemini env (asked st) prompt) as [j|e]; [|reflexivity].
  destruct j as [| b | n | s | items | props]; try reflexivity.
  - destruct b; reflexivity.
  - unfold truthy. destruct (negb (n =? "0")%string); reflexivity.
  - unfold truthy. destruct (JS.truthy_string s); reflexivity.
  - cbn [truthy get_prop]. unfold ret.
    destruct (lookup "text" props) as [[| | | | |]|]; reflexivity.
Qed.

(** X15: the recap first converts the message of every issue to a text.
    When one does not convert it throws the TypeError of the conversion
    before it asks anything (in a run the Submission step has then thrown
    already, so the recap of a run never throws).  Otherwise it does not
    throw and asks the service exactly once; for given arguments there is
    one fallback text: the recap is the reply's [text], trimmed, whenever
    the reply is an object whose [text] is a text (an empty or blank one
    included), and the fallback for every other reply and for every
    failure of the call. *)
Theorem recap_falls_back claim found suggested ok draft review saved rate :
  (all_convert found = true /\
   exists fallback prompt,
     forall env st,
       humanExplain claim found suggested ok draft review saved rate env st
       = (Ok match offered "text" (gemini env (asked st) prompt) with
             | Some t => JS.trim t
             | None => fallback
             end,
          asked_once st))
  \/ (all_convert found = false /\
      forall env st,
        humanExplain claim found suggested ok draft review saved rate env st
        = (Throw cannot_convert, st)).
Proof.
  destruct (all_convert found) eqn:C; [left | right]; (split; [reflexivity|]).
  - unfold humanExplain. eexists. eexists.
    intros env st. unfold bind at 1. rewrite mapM_interpolate.
    fold (all_convert found). rewrite C. apply recap_block.
  - intros env st.
    pose proof (humanExplain_run claim found suggested ok draft review saved rate env st)
      as H.
    now rewrite C in H.
Qed.

(** ** The endpoint, edge by edge *)

Lemma field_checks_are_texts (claim : ClaimInput.t) :
  forallb message_is_string (field_checks claim) = true.
Proof.
  unfold field_checks.
  repeat match goal with
         | |- context [if ?b then _ else _] => destruct b
         end; reflexivity.
Qed.

Lemma notes_are_texts (notes : list JSON) :
  forallb message_is_string (map note_issue notes) = forallb is_text notes.
Proof.
  induction notes as [|n l IH]; simpl; [reflexivity|].
  rewrite IH. destruct n; reflexivity.
Qed.

Lemma POST_json (unicode : string -> string) handler j env st :
  handler = Part_001.POST unicode \/ handler = Part_000.POST unicode ->
  handler (Json j) env st
  = (Ok (answer (fst (runWorkflow unicode (input_of j) env st))),
     snd (runWorkflow unicode (input_of j) env st)).
Proof. intros [-> | ->]; [apply POST_001_json | apply POST_000_json]. Qed.

Lemma texts_are_converted (notes : list JSON) :
  forallb is_text notes = true -> forallb converts notes = true.
Proof.
  rewrite !forallb_forall. intros H n Hin. specialize (H n Hin).
  destruct n; try discriminate H. reflexivity.
Qed.

(** X16: a complete run can still be answered 400.  For a request that
    carries an accepted claim object whose code names no inherited
    property, either handler answers 200 exactly when each of the (at most
    three) notes that the service returned to the Verifier is a text, and
    400 otherwise.  The run itself returns exactly when every note
    converts to a text: a note that is a number or [null] lets every step
    return and makes the response fail its schema; a note that does not
    convert makes the Submission step throw, and the answer carries its
    TypeError. *)
Theorem endpoint_needs_text_notes (unicode : string -> string) handler j data env st :
  handler = Part_001.POST unicode \/ handler = Part_000.POST unicode ->
  accepted (input_of j) = Some data ->
  names_inherited (ClaimInput.cptCode data) = false ->
  let notes := notes_of (gemini env (asked st) (VerifyPrompt (normalized_claim data))) in
  exists resp st',
    handler (Json j) env st = (Ok resp, st') /\
    (status_code resp = 200%Z <-> forallb is_text notes = true) /\
    (status_code resp = 200%Z \/ status_code resp = 400%Z) /\
    ((exists r st1, runWorkflow unicode (input_of j) env st = (Ok r, st1))
     <-> forallb converts notes = true) /\
    (forallb converts notes = true -> forallb is_text notes = false ->
     body resp = ErrorJson "invalid WorkflowResponse") /\
    (forallb converts notes = false ->
     body resp = ErrorJson "Cannot convert object to primitive value").
Proof.
  intros Hh A NI notes. rewrite (POST_json _ _ _ _ _ Hh).
  pose proof (parserAgent_json_run _ _ env (started st) A) as Hp.
  pose proof (texts_are_converted notes) as T.
  destruct (forallb converts notes) eqn:Cv.
  - destruct (runWorkflow_after_parser unicode _ _ _ _ _ Hp NI Cv)
      as (r & st1 & H & _ & I & _).
    rewrite H. simpl fst. simpl snd.
    eexists. eexists. split; [reflexivity|].
    unfold answer. rewrite I, forallb_app, field_checks_are_texts, notes_are_texts.
    unfold verifier_notes. simpl asked. fold notes.
    destruct (forallb is_text notes); simpl.
    + split; [tauto|]. split; [auto|]. split; [split; eauto|].
      split; [discriminate | discriminate].
    + split; [split; discriminate|]. split; [auto|]. split; [split; eauto|].
      split; [reflexivity | discriminate].
  - destruct (runWorkflow_submission_throws unicode _ _ _ _ _ Hp NI Cv) as (st1 & H & _).
    rewrite H. simpl fst. simpl snd.
    eexists. eexists. split; [reflexivity|]. simpl.
    split; [split; [discriminate | intros X; apply T in X; discriminate X]|].
    split; [auto|].
    split; [split; [intros (r & s1 & E); discriminate E | discriminate]|].
    split; [discriminate | reflexivity].
Qed.

Lemma endpoint_needs_text_notes_witness :
  exists resp st',
    Part_001.POST no_tables (Json john_doe) numeric_notes fresh = (Ok resp, st') /\
    status_code resp = 400%Z /\ body resp = ErrorJson "invalid WorkflowResponse".
Proof.
  destruct (endpoint_needs_text_notes no_tables (Part_001.POST no_tables) john_doe
              (ClaimInput.mk "John Doe" "01/01/1975" (Str "") "MRI Knee" (Str "73721"))
              numeric_notes fresh (or_introl eq_refl) eq_refl eq_refl)
    as (resp & st' & P & T & [S | S] & _ & B & _).
  - apply T in S. discriminate S.
  - exists resp, st'. split; [exact P|]. split; [exact S|].
    apply B; reflexivity.
Defined.

(** X17: a request that carries an accepted claim object whose code is the
    name of a property that objects inherit (toString, constructor, ...)
    is answered 400 by either handler with the Coder's TypeError as
    message, whatever the service replies, after the Verifier's call has
    been made. *)
Theorem endpoint_rejects_inherited_names (unicode : string -> string) handler j data env st :
  handler = Part_001.POST unicode \/ handler = Part_000.POST unicode ->
  accepted (input_of j) = Some data ->
  names_inherited (ClaimInput.cptCode data) = true ->
  fst (handler (Json j) env st)
  = Ok {| status_code := 400;
          body := ErrorJson "Cannot read properties of undefined (reading 'some')" |}
  /\ asked (snd (handler (Json j) env st)) = S (asked st).
Proof.
  intros Hh A NI. rewrite (POST_json _ _ _ _ _ Hh).
  pose proof (parserAgent_json_run _ _ env (started st) A) as Hp.
  destruct (runWorkflow_coder_throws unicode _ _ _ _ _ Hp NI) as (st' & H & As).
  rewrite H. simpl. split; [reflexivity | exact As].
Qed.

Lemma endpoint_rejects_inherited_names_witness :
  fst (Part_000.POST no_tables
         (Json (JObj [ ("patientName", JStr "John Doe"); ("dob", JStr "1975-01-01");
                       ("insuranceId", JStr "ZX-991144"); ("procedure", JStr "MRI Knee");
                       ("cptCode", JStr "constructor") ]))
         service_down fresh)
  = Ok {| status_code := 400;
          body := ErrorJson "Cannot read properties of undefined (reading 'some')" |}.
Proof.
  apply (endpoint_rejects_inherited_names no_tables (Part_000.POST no_tables) _
           (ClaimInput.mk "John Doe" "1975-01-01" (Str "ZX-991144") "MRI Knee"
              (Str "constructor"))).
  - right. reflexivity.
  - reflexivity.
  - reflexivity.
Defined.

(** ** White space *)

Lemma strip_prefix_spec (p s r : string) :
  JS.strip_prefix p s = Some r <-> s = p ++ r.
Proof.
  revert s. induction p as [|a p IH]; intros s; simpl.
  - split; [intros E; inversion E; reflexivity | intros ->; reflexivity].
  - destruct s as [|b s]; [split; discriminate|].
    destruct (Ascii.eqb_spec a b) as [->|N].
    + rewrite IH. split; [intros ->; reflexivity | intros E; now inversion E].
    + split; [discriminate | intros E; inversion E; congruence].
Qed.

Lemma strip_one_of_In (ps : list string) (s r : string) :
  JS.strip_one_of ps s = Some r -> exists w, In w ps /\ s = w ++ r.
Proof.
  induction ps as [|p ps IH]; simpl; [discriminate|].
  destruct (JS.strip_prefix p s) as [r'|] eqn:E.
  - intros X. inversion X; subst r'. apply strip_prefix_spec in E. eauto.
  - intros X. destruct (IH X) as (w & Hin & Ew). eauto.
Qed.

Lemma strip_space_In (s r : string) :
  JS.strip_space s = Some r -> exists w, In w JS.white_space /\ s = w ++ r.
Proof. apply strip_one_of_In. Qed.

(** No white-space character is the start of another: a text that starts
    with one loses exactly that one. *)
Lemma strip_space_white (w r : string) :
  In w JS.white_space -> JS.strip_space (w ++ r) = Some r.
Proof.
  intros H. cbv in H.
  repeat (destruct H as [<- | H]; [reflexivity|]). destruct H.
Qed.

Lemma strip_space_shorter (s r : string) :
  JS.strip_space s = Some r -> String.length r < String.length s.
Proof.
  intros E. destruct (strip_space_In _ _ E) as (w & H & ->).
  rewrite length_append. cbv in H.
  repeat (destruct H as [<- | H]; [simpl; lia|]). destruct H.
Qed.

Lemma trimStart_within_enough (n m : nat) (s : string) :
  String.length s <= n -> String.length s <= m ->
  JS.trimStart_within n s = JS.trimStart_within m s.
Proof.
  revert m s. induction n as [|n IH]; intros m s Hn Hm.
  - destruct s; [|simpl in Hn; lia]. destruct m; reflexivity.
  - destruct m as [|m].
    + destruct s; [reflexivity | simpl in Hm; lia].
    + cbn [JS.trimStart_within].
      destruct (JS.strip_space s) as [r|] eqn:E; [|reflexivity].
      apply strip_space_shorter in E. apply IH; lia.
Qed.

Lemma trimStart_eq (s : string) :
  JS.trimStart s
  = match JS.strip_space s with
    | Some r => JS.trimStart r
    | None => s
    end.
Proof.
  unfold JS.trimStart. destruct s as [|c s]; [reflexivity|].
  cbn [String.length JS.trimStart_within].
  destruct (JS.strip_space (String c s)) as [r|] eqn:E; [|reflexivity].
  apply strip_space_shorter in E. cbn [String.length] in E.
  apply trimStart_within_enough; lia.
Qed.

Lemma only_space_white (w r : string) :
  In w JS.white_space -> JS.only_space (w ++ r) = JS.only_space r.
Proof.
  intros H. unfold JS.only_space. now rewrite trimStart_eq, (strip_space_white _ _ H).
Qed.

(** A text of white space is a white-space character followed by a text
    of white space, or empty. *)
Lemma only_space_ind (P : string -> Prop) :
  P "" ->
  (forall w r, In w JS.white_space -> JS.only_space r = true -> P r -> P (w ++ r)) ->
  forall s, JS.only_space s = true -> P s.
Proof.
  intros P0 Pstep s.
  remember (String.length s) as n eqn:Hn. revert s Hn.
  induction n as [n IH] using lt_wf_ind. intros s Hn Hs.
  unfold JS.only_space in Hs. rewrite trimStart_eq in Hs.
  destruct (JS.strip_space s) as [r|] eqn:E.
  - pose proof (strip_space_shorter _ _ E) as L.
    destruct (strip_space_In _ _ E) as (w & Hw & ->).
    apply Pstep; [exact Hw | exact Hs |].
    apply (IH (String.length r)); [lia | reflexivity | exact Hs].
  - apply String.eqb_eq in Hs. subst s. exact P0.
Qed.

Lemma append_cases (a x b y : string) :
  a ++ x = b ++ y ->
  (exists z, a = b ++ z /\ y = z ++ x)
  \/ (exists c z, b = a ++ String c z /\ x = String c z ++ y).
Proof.
  revert b. induction a as [|k a IH]; intros b E.
  - simpl in E. subst x. destruct b as [|c b].
    + left. exists "". auto.
    + right. exists c, b. auto.
  - destruct b as [|c b]; simpl in E.
    + left. exists (String k a). split; [reflexivity | now rewrite <- E].
    + inversion E; subst c.
      destruct (IH b H1) as [(z & -> & ->) | (c' & z & -> & ->)].
      * left. exists z. auto.
      * right. exists c', z. auto.
Qed.

(** The bytes of a white-space character after its first continue it;
    its first byte does not continue anything. *)
Lemma white_tail_bytes (w b : string) (c : ascii) (t : string) :
  In w JS.white_space -> w = b ++ String c t -> b <> "" -> is_tail_byte c = true.
Proof.
  intros H E N.
  assert (T : forallb is_tail_byte (tl (list_ascii_of_string w)) = true).
  { cbv in H. repeat (destruct H as [<- | H]; [reflexivity|]). destruct H. }
  rewrite forallb_forall in T. apply T. subst w. rewrite list_ascii_of_append.
  destruct b as [|b0 b]; [now elim N|]. simpl. apply in_or_app. right. now left.
Qed.

Lemma white_clean (w r : string) :
  In w JS.white_space -> clean_start (w ++ r) = true.
Proof.
  intros H. cbv in H. repeat (destruct H as [<- | H]; [reflexivity|]). destruct H.
Qed.

Lemma white_not_tight (w : string) : In w JS.white_space -> last_tight w = false.
Proof.
  intros H. cbv in H. repeat (destruct H as [<- | H]; [reflexivity|]). destruct H.
Qed.

Lemma white_nonempty (w : string) : In w JS.white_space -> w <> "".
Proof.
  intros H. cbv in H. repeat (destruct H as [<- | H]; [discriminate|]). destruct H.
Qed.

(** A text that does not start with white space does not start with it
    either when something follows that starts a character. *)
Lemma strip_space_append (b rest : string) :
  JS.strip_space b = None -> b <> "" -> clean_start rest = true ->
  JS.strip_space (b ++ rest) = None.
Proof.
  intros Hb N Hc.
  destruct (JS.strip_space (b ++ rest)) as [r|] eqn:E; [|reflexivity]. exfalso.
  destruct (strip_space_In _ _ E) as (w & Hw & Ew).
  destruct (append_cases _ _ _ _ Ew) as [(z & -> & _) | (c & z & -> & ->)].
  - rewrite (strip_space_white _ _ Hw) in Hb. discriminate Hb.
  - cbn [append clean_start] in Hc.
    rewrite (white_tail_bytes _ _ _ _ Hw eq_refl N) in Hc. discriminate Hc.
Qed.

Lemma trimEnd_suffix (a z : string) :
  JS.trimEnd (a ++ z) = a ++ z -> JS.trimEnd z = z.
Proof.
  induction a as [|c a IH]; [auto|].
  change (String c a ++ z) with (String c (a ++ z)). cbn [JS.trimEnd].
  destruct (JS.only_space (String c (a ++ z))); [discriminate|].
  intros E. inversion E as [E']. exact (IH E').
Qed.

Lemma last_tight_suffix (b1 b2 : string) :
  b2 <> "" -> last_tight (b1 ++ b2) = true -> last_tight b2 = true.
Proof.
  intros N H. unfold last_tight in *. apply andb_true_iff in H. destruct H as [_ H].
  apply String.eqb_eq in H. apply trimEnd_suffix in H. rewrite H, String.eqb_refl.
  destruct b2; [now elim N | reflexivity].
Qed.

Lemma lacks_char_append (c : ascii) (a b : string) :
  lacks_char c (a ++ b) = lacks_char c a && lacks_char c b.
Proof.
  induction a as [|x a IH]; simpl; [reflexivity|]. now rewrite IH, andb_assoc.
Qed.

(** ** The LLM client *)

Section FenceFacts.

Import Fence.

Lemma flat_map_nil {A B} (f : A -> list B) (l : list A) :
  (forall x, In x l -> f x = []) -> flat_map f l = [].
Proof.
  induction l as [|x l IH]; simpl; [reflexivity|].
  intros H. rewrite (H x) by now left. apply IH. intros y Hy. apply H. now right.
Qed.

Lemma satisfy_In p s c r :
  In (c, r) (satisfy p s) <-> s = String c r /\ p c = true.
Proof.
  unfold satisfy. destruct s as [|x s]; simpl.
  - split; [tauto | intros [E _]; discriminate E].
  - destruct (p x) eqn:P; simpl.
    + split.
      * intros [E | []]. inversion E; subst. auto.
      * intros [E _]. inversion E; subst. now left.
    + split; [tauto|]. intros [E H]. inversion E; subst. congruence.
Qed.

Lemma literal_ci_In (w s : string) u r :
  In (u, r) (literal_ci w s) ->
  exists p, s = p ++ r /\ JS.lower_ascii p = JS.lower_ascii w.
Proof.
  revert s. induction w as [|x w IH]; intros s; simpl.
  - intros [E | []]. inversion E; subst. exists "". auto.
  - intros H. apply bind_In in H. destruct H as (c & r' & H1 & H2).
    apply satisfy_In in H1. destruct H1 as [-> Hc].
    apply Ascii.eqb_eq in Hc.
    destruct (IH _ H2) as (p & -> & Ep). exists (String c p). simpl.
    now rewrite Hc, Ep.
Qed.

Lemma literal_ci_match (w p r : string) :
  JS.lower_ascii p = JS.lower_ascii w -> literal_ci w (p ++ r) = [(tt, r)].
Proof.
  revert p. induction w as [|x w IH]; intros p E.
  - destruct p; [reflexivity | discriminate E].
  - destruct p as [|c p]; [discriminate E|]. simpl in E. inversion E as [[Ec Ep]].
    simpl. unfold Regex.bind, satisfy. rewrite Ec, Ascii.eqb_refl. simpl.
    rewrite (IH p Ep). reflexivity.
Qed.

Lemma literal_ci_stops (x : ascii) (w s : string) :
  match s with
  | String c _ => Ascii.eqb (JS.lower_char c) (JS.lower_char x) = false
  | EmptyString => True
  end ->
  literal_ci (String x w) s = [].
Proof.
  intros H. simpl. unfold Regex.bind, satisfy.
  destruct s as [|c s]; [reflexivity|]. now rewrite H.
Qed.

Lemma spaces_within_enough (n m : nat) (s : string) :
  String.length s <= n -> String.length s <= m ->
  spaces_within n s = spaces_within m s.
Proof.
  revert m s. induction n as [|n IH]; intros m s Hn Hm.
  - destruct s; [|simpl in Hn; lia]. destruct m; reflexivity.
  - destruct m as [|m].
    + destruct s; [reflexivity | simpl in Hm; lia].
    + cbn [spaces_within]. destruct (JS.strip_space s) as [r|] eqn:E; [|reflexivity].
      apply strip_space_shorter in E. rewrite (IH m r) by lia. reflexivity.
Qed.

Lemma spaces_eq (s : string) :
  spaces s
  = match JS.strip_space s with
    | Some r => (spaces r ++ [(tt, s)])%list
    | None => [(tt, s)]
    end.
Proof.
  unfold spaces. destruct s as [|c s]; [reflexivity|].
  cbn [String.length spaces_within].
  destruct (JS.strip_space (String c s)) as [r|] eqn:E; [|reflexivity].
  apply strip_space_shorter in E. cbn [String.length] in E.
  rewrite (spaces_within_enough (String.length s) (String.length r) r) by lia.
  reflexivity.
Qed.

Lemma spaces_In (s : string) u r :
  In (u, r) (spaces s) -> exists w, s = w ++ r /\ all_space w = true.
Proof.
  remember (String.length s) as n eqn:Hn. revert s Hn.
  induction n as [n IH] using lt_wf_ind. intros s Hn.
  rewrite spaces_eq. destruct (JS.strip_space s) as [r1|] eqn:E.
  - rewrite in_app_iff. intros [H | [X | []]].
    + pose proof (strip_space_shorter _ _ E) as L.
      destruct (strip_space_In _ _ E) as (w & Hw & ->).
      destruct (IH (String.length r1) ltac:(lia) r1 eq_refl H) as (p & -> & Hp).
      exists (w ++ p). split; [now rewrite append_assoc|].
      unfold all_space in *. now rewrite only_space_white.
    + inversion X; subst. exists "". auto.
  - intros [X | []]. inversion X; subst. exists "". auto.
Qed.

(** The longest run of white space is the first alternative. *)
Lemma spaces_head (w r : string) :
  all_space w = true -> JS.strip_space r = None ->
  exists rest, spaces (w ++ r) = (tt, r) :: rest.
Proof.
  intros Hw Hr. unfold all_space in Hw. revert w Hw.
  apply (only_space_ind (fun w => exists rest, spaces (w ++ r) = (tt, r) :: rest)).
  - change ("" ++ r) with r. rewrite spaces_eq, Hr. eexists. reflexivity.
  - intros c w Hc _ [rest IH]. rewrite append_assoc, spaces_eq.
    rewrite (strip_space_white _ _ Hc), IH. simpl. eexists. reflexivity.
Qed.

Lemma lazy_any_In (s b r : string) :
  In (b, r) (lazy_any s) -> s = b ++ r.
Proof.
  revert b. induction s as [|c s IH]; intros b; simpl.
  - intros [E | []]. inversion E. reflexivity.
  - intros [E | H]; [inversion E; reflexivity|].
    apply in_map_iff in H. destruct H as ([b' r'] & E & H). inversion E; subst.
    simpl. now rewrite (IH _ H).
Qed.

Lemma lower_char_backtick (c : ascii) :
  Ascii.eqb (JS.lower_char c) (JS.lower_char "`") = Ascii.eqb c "`".
Proof. destruct c as [[] [] [] [] [] [] [] []]; reflexivity. Qed.

(** Inside a body without backticks that ends with something else than
    white space, the closing fence is not found. *)
Lemma closing_not_inside (b rest : string) :
  b <> "" -> lacks_char "`" b = true -> last_tight b = true ->
  clean_start rest = true ->
  closing (b ++ rest) = [].
Proof.
  remember (String.length b) as n eqn:Hn. revert b Hn.
  induction n as [n IH] using lt_wf_ind. intros b Hn N Hb Hl Hc.
  assert (F : literal_ci "```" (b ++ rest) = []).
  { apply (literal_ci_stops "`"%char "``" (b ++ rest)).
    destruct b as [|c b]; [now elim N|]. simpl. rewrite lower_char_backtick.
    simpl in Hb. apply andb_true_iff in Hb. destruct Hb as [Hb _].
    now apply negb_true_iff. }
  unfold closing, Regex.bind. rewrite spaces_eq.
  destruct (JS.strip_space (b ++ rest)) as [r1|] eqn:E.
  - rewrite flat_map_app. cbn [flat_map fst snd]. rewrite F, app_nil_r.
    destruct (strip_space_In _ _ E) as (w & Hw & Ew).
    destruct (append_cases _ _ _ _ Ew) as [(z & Eb & ->) | (c & z & Ew' & Er)].
    + destruct z as [|k z].
      { rewrite append_nil_r in Eb. subst b.
        rewrite (white_not_tight _ Hw) in Hl. discriminate Hl. }
      subst b. rewrite lacks_char_append in Hb. apply andb_true_iff in Hb.
      destruct Hb as [_ Hz].
      apply last_tight_suffix in Hl; [|discriminate].
      pose proof (white_nonempty _ Hw) as Nw.
      assert (L : String.length (String k z) < n).
      { subst n. rewrite length_append. destruct w; [now elim Nw | simpl; lia]. }
      exact (IH _ L (String k z) eq_refl ltac:(discriminate) Hz Hl Hc).
    + subst rest. cbn [append clean_start] in Hc.
      rewrite (white_tail_bytes _ _ _ _ Hw Ew' N) in Hc. discriminate Hc.
  - cbn [flat_map fst snd]. now rewrite F.
Qed.

(** The lazy body stops at the first place where the closing fence is
    found. *)
Lemma lazy_body_first (b t r : string) :
  (forall b1 b2, b = b1 ++ b2 -> b2 <> "" -> closing (b2 ++ t) = []) ->
  (exists rest, closing t = (tt, r) :: rest) ->
  exists rest,
    (body <~ lazy_any ;; _ <~ closing ;; Regex.ret body) (b ++ t) = (b, r) :: rest.
Proof.
  intros Hin [rest0 Ht]. unfold Regex.bind at 1.
  assert (K : forall b0 : string,
             (_ <~ closing ;; Regex.ret b0) t
             = (b0, r) :: flat_map (fun ar : unit * string => Regex.ret b0 (snd ar)) rest0).
  { intros b0. unfold Regex.bind. rewrite Ht. reflexivity. }
  revert Hin. induction b as [|c b IH]; intros Hin.
  - change ("" ++ t) with t.
    destruct t as [|x t]; cbn [lazy_any flat_map fst snd]; rewrite K;
      eexists; reflexivity.
  - change ((String c b) ++ t) with (String c (b ++ t)).
    cbn [lazy_any flat_map fst snd].
    assert (C0 : closing (String c (b ++ t)) = []).
    { apply (Hin "" (String c b)); [reflexivity | discriminate]. }
    unfold Regex.bind at 1. rewrite C0. cbn [flat_map app].
    rewrite flat_map_concat_map, map_map, <- flat_map_concat_map.
    cbn [fst snd].
    destruct IH as [rest IH].
    { intros b1 b2 E N. apply (Hin (String c b1) b2); [simpl; now rewrite E | exact N]. }
    assert (M : forall l,
               flat_map (fun x : string * string =>
                           (_ <~ closing ;; Regex.ret (String c (fst x))) (snd x)) l
               = map (fun br => (String c (fst br), snd br))
                   (flat_map (fun ar : string * string =>
                                (_ <~ closing ;; Regex.ret (fst ar)) (snd ar)) l)).
    { intros l. induction l as [|[b' r'] l IHl]; [reflexivity|].
      cbn [flat_map fst snd]. rewrite map_app, IHl. f_equal.
      unfold Regex.bind, Regex.ret.
      rewrite !flat_map_concat_map, concat_map, !map_map. reflexivity. }
    rewrite M, IH. simpl. eexists. reflexivity.
Qed.

End FenceFacts.

Section FenceSearch.

Import Fence.

Lemma Regex_bind_assoc {A B C} (m : Regex.Matcher A) (k : A -> Regex.Matcher B)
    (h : B -> Regex.Matcher C) (s : string) :
  Regex.bind (Regex.bind m k) h s
  = Regex.bind m (fun a => Regex.bind (k a) h) s.
Proof.
  unfold Regex.bind. induction (m s) as [|[a r] l IH]; simpl; [reflexivity|].
  rewrite flat_map_app, IH. reflexivity.
Qed.

(** The pattern, with what follows the body gathered in [closing]. *)
Lemma fence_re_closing (s : string) :
  fence_re s
  = (_ <~ literal_ci "```json" ;;
     _ <~ spaces ;;
     body <~ lazy_any ;; _ <~ closing ;; Regex.ret body) s.
Proof.
  unfold fence_re, closing, Regex.bind at 1 6.
  apply flat_map_ext. intros [u1 r1]. cbn [fst snd].
  unfold Regex.bind at 1 5. apply flat_map_ext. intros [u2 r2]. cbn [fst snd].
  unfold Regex.bind at 1 4. apply flat_map_ext. intros [b r3]. cbn [fst snd].
  symmetry. apply Regex_bind_assoc.
Qed.

Lemma all_space_clean (w r : string) :
  all_space w = true -> clean_start r = true -> clean_start (w ++ r) = true.
Proof.
  intros Hw Hr. unfold all_space in Hw. revert w Hw.
  apply (only_space_ind (fun w => clean_start (w ++ r) = true)); [exact Hr|].
  intros c w Hc _ _. rewrite append_assoc. now apply white_clean.
Qed.

Lemma fence_re_found (tag w1 body w2 post : string) :
  JS.lower_ascii tag = "json" ->
  all_space w1 = true -> all_space w2 = true ->
  head_tight body = true -> last_tight body = true -> lacks_char "`" body = true ->
  exists rest,
    fence_re ("```" ++ tag ++ w1 ++ body ++ w2 ++ "```" ++ post) = (body, post) :: rest.
Proof.
  intros Etag H1 H2 Hh Hl Hb. rewrite fence_re_closing.
  unfold Regex.bind at 1.
  replace ("```" ++ tag ++ w1 ++ body ++ w2 ++ "```" ++ post)
    with (("```" ++ tag) ++ w1 ++ body ++ w2 ++ "```" ++ post)
    by (now rewrite append_assoc).
  rewrite literal_ci_match by (simpl; now rewrite Etag).
  cbn [flat_map fst snd]. rewrite app_nil_r.
  unfold Regex.bind at 1.
  assert (Ct : clean_start (w2 ++ "```" ++ post) = true)
    by (apply all_space_clean; [exact H2 | reflexivity]).
  unfold head_tight in Hh. apply andb_true_iff in Hh. destruct Hh as [Hn Hs].
  assert (N : body <> "") by (intros ->; discriminate Hn).
  destruct (spaces_head w1 (body ++ w2 ++ "```" ++ post) H1) as [rest1 ->].
  { apply strip_space_append; [|exact N | exact Ct].
    destruct (JS.strip_space body); [discriminate Hs | reflexivity]. }
  cbn [flat_map fst snd].
  destruct (lazy_body_first body (w2 ++ "```" ++ post) post) as [rest2 ->].
  - intros b1 b2 E N2. apply closing_not_inside; [exact N2 | | | exact Ct].
    + subst body. rewrite lacks_char_append in Hb.
      apply andb_true_iff in Hb. tauto.
    + subst body. eapply last_tight_suffix; eauto.
  - unfold closing, Regex.bind.
    destruct (spaces_head w2 ("```" ++ post) H2) as [rest3 ->]; [reflexivity|].
    cbn [flat_map fst snd].
    rewrite (literal_ci_match "```" "```" post) by reflexivity.
    simpl. eexists. reflexivity.
  - simpl. eexists. reflexivity.
Qed.

Lemma fence_re_needs_backtick (s : string) :
  match s with
  | String c _ => Ascii.eqb c "`" = false
  | EmptyString => True
  end ->
  fence_re s = [].
Proof.
  intros H. unfold fence_re, Regex.bind at 1.
  rewrite (literal_ci_stops "`"%char "``json" s); [reflexivity|].
  destruct s as [|c s]; [exact I|]. now rewrite lower_char_backtick.
Qed.

Lemma search_eq {A} (re : Regex.Matcher A) (s : string) :
  search re s
  = match re s with
    | (a, _) :: _ => Some a
    | [] => match s with String _ s' => search re s' | EmptyString => None end
    end.
Proof. destruct s; reflexivity. Qed.

Lemma search_skips (pre s : string) :
  lacks_char "`" pre = true -> search fence_re (pre ++ s) = search fence_re s.
Proof.
  induction pre as [|c pre IH]; [reflexivity|].
  cbn [lacks_char]. intros H. apply andb_true_iff in H. destruct H as [Hc Hp].
  change (String c pre ++ s) with (String c (pre ++ s)).
  rewrite search_eq, fence_re_needs_backtick by now apply negb_true_iff.
  auto.
Qed.

Lemma search_without_backtick (s : string) :
  lacks_char "`" s = true -> search fence_re s = None.
Proof.
  intros H. rewrite <- (append_nil_r s), (search_skips _ _ H).
  rewrite search_eq, fence_re_needs_backtick by exact I. reflexivity.
Qed.

(** What the pattern captures is a part of the text. *)
Lemma search_part_of (s body : string) :
  search fence_re s = Some body -> part_of body s.
Proof.
  induction s as [|c s IH].
  - rewrite search_eq, fence_re_needs_backtick by exact I. discriminate.
  - rewrite search_eq.
    destruct (fence_re (String c s)) as [|[b r] l] eqn:F.
    + intros H. destruct (IH H) as (a & z & ->). exists (String c a), z. reflexivity.
    + intros E. inversion E; subst b. clear E.
      assert (Hin : In (body, r) (fence_re (String c s))) by (rewrite F; now left).
      unfold fence_re in Hin.
      apply bind_In in Hin. destruct Hin as (u1 & r1 & K1 & Hin).
      apply bind_In in Hin. destruct Hin as (u2 & r2 & K2 & Hin).
      apply bind_In in Hin. destruct Hin as (b & r3 & K3 & Hin).
      apply bind_In in Hin. destruct Hin as (u4 & r4 & K4 & Hin).
      apply bind_In in Hin. destruct Hin as (u5 & r5 & K5 & Hin).
      destruct Hin as [E | []]. inversion E; subst b r5.
      apply literal_ci_In in K1. destruct K1 as (p1 & E1 & _).
      apply spaces_In in K2. destruct K2 as (p2 & E2 & _).
      apply lazy_any_In in K3.
      exists (p1 ++ p2), r3. rewrite E1, E2, K3. now rewrite !append_assoc.
Qed.

End FenceSearch.

Section ClientFacts.

Lemma lacks_indexOf (c : ascii) (s : string) :
  lacks_char c s = true -> indexOf c s = None.
Proof.
  induction s as [|x s IH]; [reflexivity|]. cbn [lacks_char indexOf].
  intros H. apply andb_true_iff in H. destruct H as [Hx Hs].
  apply negb_true_iff in Hx. rewrite Hx, (IH Hs). reflexivity.
Qed.

Lemma indexOf_lacks (c : ascii) (s : string) :
  indexOf c s = None -> lacks_char c s = true.
Proof.
  induction s as [|x s IH]; [reflexivity|]. cbn [lacks_char indexOf].
  destruct (Ascii.eqb x c); [discriminate|].
  destruct (indexOf c s); [discriminate|]. intros _. now rewrite IH.
Qed.

Lemma lacks_lastIndexOf (c : ascii) (s : string) :
  lacks_char c s = true -> lastIndexOf c s = None.
Proof.
  induction s as [|x s IH]; [reflexivity|]. cbn [lacks_char lastIndexOf].
  intros H. apply andb_true_iff in H. destruct H as [Hx Hs].
  apply negb_true_iff in Hx. rewrite Hx, (IH Hs). reflexivity.
Qed.

Lemma lastIndexOf_lacks (c : ascii) (s : string) :
  lastIndexOf c s = None -> lacks_char c s = true.
Proof.
  induction s as [|x s IH]; [reflexivity|]. cbn [lacks_char lastIndexOf].
  destruct (lastIndexOf c s); [discriminate|].
  destruct (Ascii.eqb x c); [discriminate|]. intros _. now rewrite IH.
Qed.

Lemma indexOf_first (c : ascii) (pre r : string) :
  lacks_char c pre = true -> indexOf c (pre ++ String c r) = Some (String.length pre).
Proof.
  induction pre as [|x pre IH]; cbn [lacks_char].
  - intros _. simpl. now rewrite Ascii.eqb_refl.
  - intros H. apply andb_true_iff in H. destruct H as [Hx Hs].
    apply negb_true_iff in Hx.
    change (String x pre ++ String c r) with (String x (pre ++ String c r)).
    cbn [indexOf String.length]. rewrite Hx, (IH Hs). reflexivity.
Qed.

Lemma lastIndexOf_last (c : ascii) (a post : string) :
  lacks_char c post = true ->
  lastIndexOf c (a ++ String c post) = Some (String.length a).
Proof.
  intros H. induction a as [|x a IH].
  - change ("" ++ String c post) with (String c post). cbn [lastIndexOf].
    rewrite (lacks_lastIndexOf _ _ H), Ascii.eqb_refl. reflexivity.
  - change (String x a ++ String c post) with (String x (a ++ String c post)).
    cbn [lastIndexOf String.length]. rewrite IH. reflexivity.
Qed.

Lemma substring_head (m b : string) :
  String.substring 0 (String.length m) (m ++ b) = m.
Proof.
  induction m as [|c m IH]; simpl.
  - destruct b; reflexivity.
  - now rewrite IH.
Qed.

Lemma substring_middle (a m b : string) :
  String.substring (String.length a) (String.length m) (a ++ m ++ b) = m.
Proof.
  induction a as [|c a IH]; simpl; [apply substring_head | exact IH].
Qed.

Lemma substring_is_head (n : nat) (s : string) :
  exists b, s = String.substring 0 n s ++ b.
Proof.
  revert n. induction s as [|c s IH]; intros [|n]; simpl.
  - exists "". reflexivity.
  - exists "". reflexivity.
  - exists (String c s). reflexivity.
  - destruct (IH n) as [b E]. exists b. now rewrite <- E.
Qed.

Lemma substring_part_of (n m : nat) (s : string) :
  part_of (String.substring n m s) s.
Proof.
  revert n. induction s as [|c s IH]; intros n.
  - exists "", "". destruct n, m; reflexivity.
  - destruct n as [|n].
    + destruct (substring_is_head m (String c s)) as [b E]. exists "", b. exact E.
    + destruct (IH n) as (a & b & E). exists (String c a), b.
      simpl. now rewrite <- E.
Qed.

Lemma part_of_refl (s : string) : part_of s s.
Proof. exists "", "". simpl. now rewrite append_nil_r. Qed.

Lemma part_of_trans (a b c : string) : part_of a b -> part_of b c -> part_of a c.
Proof.
  intros (x & y & ->) (u & v & ->). exists (u ++ x), (y ++ v).
  now rewrite !append_assoc.
Qed.

Lemma jsonLike_part_of (text : string) : part_of (Gemini.jsonLike text) text.
Proof.
  unfold Gemini.jsonLike. destruct (Fence.search fence_re text) eqn:E.
  - now apply search_part_of.
  - apply part_of_refl.
Qed.

Lemma slice_braces (pre mid post : string) :
  slice (pre ++ "{" ++ mid ++ "}" ++ post)
        (String.length pre) (S (String.length (pre ++ "{" ++ mid)))
  = "{" ++ mid ++ "}".
Proof.
  unfold slice.
  replace (S (String.length (pre ++ "{" ++ mid)) - String.length pre)
    with (String.length ("{" ++ mid ++ "}")).
  - replace (pre ++ "{" ++ mid ++ "}" ++ post)
      with (pre ++ ("{" ++ mid ++ "}") ++ post).
    + apply substring_middle.
    + now rewrite !append_assoc.
  - change ("{" ++ mid ++ "}") with (String "{" (mid ++ "}")).
    change (pre ++ "{" ++ mid) with (pre ++ String "{" mid).
    cbn [String.length]. rewrite !length_append. cbn [String.length]. lia.
Qed.

(** X18: a completion that holds one fenced block (three backticks, the
    word json in any case, white space, a body without backticks that
    starts and ends with something else than white space, white space,
    three backticks), with no backtick before it, is read through the
    block: the body is what is parsed, and when it parses the call
    returns its value, whatever surrounds the block. *)
Theorem fenced_json_is_unwrapped (JSON_parse : string -> option JSON)
    (raw pre tag w1 body w2 post : string) (j : JSON) :
  JS.trim raw = pre ++ "```" ++ tag ++ w1 ++ body ++ w2 ++ "```" ++ post ->
  lacks_char "`" pre = true ->
  JS.lower_ascii tag = "json" ->
  all_space w1 = true -> all_space w2 = true ->
  head_tight body = true -> last_tight body = true ->
  lacks_char "`" body = true ->
  JSON_parse body = Some j ->
  Gemini.jsonLike (JS.trim raw) = body /\
  Gemini.askGeminiJSON JSON_parse (Completed raw) = Returned j.
Proof.
  intros T Hp Ht H1 H2 Hh Hl Hb P.
  assert (L : Gemini.jsonLike (JS.trim raw) = body).
  { rewrite T. unfold Gemini.jsonLike. rewrite (search_skips _ _ Hp).
    destruct (fence_re_found tag w1 body w2 post Ht H1 H2 Hh Hl Hb) as [rest F].
    rewrite search_eq, F. reflexivity. }
  split; [exact L|].
  unfold Gemini.askGeminiJSON. cbv zeta. rewrite L, P. reflexivity.
Qed.

Lemma fenced_json_is_unwrapped_witness :
  Gemini.askGeminiJSON reads_empty_object
    (Completed " Sure, here it is: ```Json  {}   ``` Anything else? ")
  = Returned (JObj []).
Proof.
  apply (fenced_json_is_unwrapped reads_empty_object
           " Sure, here it is: ```Json  {}   ``` Anything else? "
           "Sure, here it is: " "Json" "  " "{}" "   " " Anything else?"
           (JObj [])); reflexivity.
Defined.

(** X19: a completion without a backtick is taken whole (trimmed): when it
    parses, the call returns its value and nothing is cut out of it. *)
Theorem bare_completion_is_parsed_whole (JSON_parse : string -> option JSON)
    (raw : string) (j : JSON) :
  lacks_char "`" (JS.trim raw) = true ->
  JSON_parse (JS.trim raw) = Some j ->
  Gemini.jsonLike (JS.trim raw) = JS.trim raw /\
  Gemini.askGeminiJSON JSON_parse (Completed raw) = Returned j.
Proof.
  intros H P.
  assert (L : Gemini.jsonLike (JS.trim raw) = JS.trim raw).
  { unfold Gemini.jsonLike. now rewrite (search_without_backtick _ H). }
  split; [exact L|].
  unfold Gemini.askGeminiJSON. cbv zeta. rewrite L, P. reflexivity.
Qed.

Lemma bare_completion_is_parsed_whole_witness :
  Gemini.askGeminiJSON reads_empty_object (Completed "  {}  ") = Returned (JObj []).
Proof.
  apply (bare_completion_is_parsed_whole reads_empty_object "  {}  " (JObj []));
    reflexivity.
Defined.

(** X20: when the text to parse does not parse and holds an opening brace
    and, after it, a closing brace, the call parses what lies from the first
    opening brace to the last closing brace: it returns that value, or
    throws the SyntaxError of that second parse. *)
Theorem braces_are_cut_out (JSON_parse : string -> option JSON)
    (raw pre mid post : string) :
  Gemini.jsonLike (JS.trim raw) = pre ++ "{" ++ mid ++ "}" ++ post ->
  lacks_char "{" pre = true ->
  lacks_char "}" post = true ->
  JSON_parse (Gemini.jsonLike (JS.trim raw)) = None ->
  Gemini.askGeminiJSON JSON_parse (Completed raw)
  = match JSON_parse ("{" ++ mid ++ "}") with
    | Some j => Returned j
    | None => Threw Gemini.SyntaxError
    end.
Proof.
  intros L Hp Hq P. unfold Gemini.askGeminiJSON. cbv zeta. rewrite P, L.
  change (pre ++ "{" ++ mid ++ "}" ++ post) with (pre ++ String "{" (mid ++ "}" ++ post)) at 1.
  rewrite (indexOf_first _ _ _ Hp).
  replace (pre ++ "{" ++ mid ++ "}" ++ post)
    with ((pre ++ "{" ++ mid) ++ String "}" post) at 1
    by (now rewrite !append_assoc).
  rewrite (lastIndexOf_last _ _ _ Hq).
  rewrite slice_braces. reflexivity.
Qed.

Lemma braces_are_cut_out_witness :
  Gemini.askGeminiJSON reads_empty_object (Completed "The answer is {} I think.")
  = Returned (JObj []).
Proof.
  apply (braces_are_cut_out reads_empty_object "The answer is {} I think."
           "The answer is " "" " I think."); reflexivity.
Defined.

(** X21: the call never makes a value up, and throws in two ways only.  A
    completion that came back gives either the parse of some part of its
    text, or the SyntaxError of the second parse (the text to parse then
    holds both braces), or the error [Gemini did not return valid JSON]
    (the text to parse then did not parse and lacks an opening or a closing
    brace).  A failure of the service is thrown on as it is. *)
Theorem client_outcomes (JSON_parse : string -> option JSON) :
  (forall e, Gemini.askGeminiJSON JSON_parse (Failed e) = Threw e) /\
  (forall raw,
     match Gemini.askGeminiJSON JSON_parse (Completed raw) with
     | Returned j =>
         exists sub, part_of sub (JS.trim raw) /\ JSON_parse sub = Some j
     | Threw e =>
         JSON_parse (Gemini.jsonLike (JS.trim raw)) = None /\
         ((e = Gemini.SyntaxError /\
           lacks_char "{" (Gemini.jsonLike (JS.trim raw)) = false /\
           lacks_char "}" (Gemini.jsonLike (JS.trim raw)) = false) \/
          (e = JsError "Error" "Gemini did not return valid JSON" /\
           (lacks_char "{" (Gemini.jsonLike (JS.trim raw)) = true \/
            lacks_char "}" (Gemini.jsonLike (JS.trim raw)) = true)))
     end).
Proof.
  split; [reflexivity|]. intros raw.
  unfold Gemini.askGeminiJSON. cbv zeta.
  pose proof (jsonLike_part_of (JS.trim raw)) as Part.
  set (cand := Gemini.jsonLike (JS.trim raw)) in *.
  destruct (JSON_parse cand) as [j|] eqn:P.
  { exists cand. split; [exact Part | exact P]. }
  destruct (indexOf "{" cand) as [start|] eqn:I.
  - destruct (lastIndexOf "}" cand) as [stop|] eqn:K.
    + assert (Hi : lacks_char "{" cand = false).
      { destruct (lacks_char "{" cand) eqn:Q; [|reflexivity].
        rewrite (lacks_indexOf _ _ Q) in I. discriminate I. }
      assert (Hk : lacks_char "}" cand = false).
      { destruct (lacks_char "}" cand) eqn:Q; [|reflexivity].
        rewrite (lacks_lastIndexOf _ _ Q) in K. discriminate K. }
      destruct (JSON_parse (slice cand start (S stop))) as [j|] eqn:P2.
      * exists (slice cand start (S stop)). split; [|exact P2].
        eapply part_of_trans; [apply substring_part_of | exact Part].
      * split; [reflexivity|]. left. auto.
    + split; [reflexivity|]. right. split; [reflexivity|].
      right. now apply lastIndexOf_lacks.
  - split; [reflexivity|]. right. split; [reflexivity|].
    left. now apply indexOf_lacks.
Qed.

Lemma substring_none (n : nat) (s : string) : String.substring n 0 s = "".
Proof.
  revert n. induction s as [|c s IH]; intros [|n]; simpl; auto.
Qed.

(** White space of Unicode around a fenced body is not captured. *)
Example fence_among_no_break_spaces :
  Gemini.jsonLike ("```json" ++ no_break_space ++ "[{}]" ++ no_break_space ++ "```")
  = "[{}]".
Proof. reflexivity. Qed.

(** X22: when the text to parse does not parse and its only closing braces
    come before its only opening braces, the cut is empty: the second parse
    is of the empty text, and its SyntaxError is what the call throws, not
    the error [Gemini did not return valid JSON]. *)
Theorem braces_in_the_wrong_order (JSON_parse : string -> option JSON)
    (raw pre mid post : string) :
  Gemini.jsonLike (JS.trim raw) = pre ++ "}" ++ mid ++ "{" ++ post ->
  lacks_char "{" pre = true -> lacks_char "{" mid = true ->
  lacks_char "}" mid = true -> lacks_char "}" post = true ->
  JSON_parse (Gemini.jsonLike (JS.trim raw)) = None ->
  JSON_parse "" = None ->
  Gemini.askGeminiJSON JSON_parse (Completed raw) = Threw Gemini.SyntaxError.
Proof.
  intros L Hp Hm Hm' Hq P E. unfold Gemini.askGeminiJSON. cbv zeta. rewrite P, L.
  replace (pre ++ "}" ++ mid ++ "{" ++ post)
    with ((pre ++ "}" ++ mid) ++ String "{" post) at 1
    by (now rewrite !append_assoc).
  rewrite indexOf_first
    by (rewrite !lacks_char_append, Hp, Hm; reflexivity).
  change (pre ++ "}" ++ mid ++ "{" ++ post)
    with (pre ++ String "}" (mid ++ "{" ++ post)) at 1.
  rewrite lastIndexOf_last
    by (rewrite !lacks_char_append, Hm', Hq; reflexivity).
  unfold slice.
  replace (S (String.length pre) - String.length (pre ++ "}" ++ mid)) with 0.
  - rewrite substring_none, E. reflexivity.
  - rewrite length_append. change ("}" ++ mid) with (String "}" mid).
    cbn [String.length]. lia.
Qed.

Lemma braces_in_the_wrong_order_witness :
  Gemini.askGeminiJSON reads_empty_object (Completed "} nothing {")
  = Threw Gemini.SyntaxError.
Proof.
  apply (braces_in_the_wrong_order reads_empty_object "} nothing {"
           "" " nothing " ""); reflexivity.
Defined.

End ClientFacts.
